(** * Superblock-Detector BS: the scoring core

    A shallow embedding of the two scoring routines of
    [superblock-detector-bs.py]:

    - [calculate_quantile_score], the hand-written seven-band quantile
      classifier, and
    - [phase_4_quantilskala], which aggregates building scores, calls the
      quantile classifier, scores the width:height ratio of the oriented
      bounding box and combines both scores with a percentage weighting;

    and of what feeds them: the four building formulas and the preparation
    of the buildings in [phase_1_vorprozessierung], and
    [create_unique_project_folder].

    Python floats and the doubles of the QGIS expression engine are IEEE 754
    binary64 numbers; they are modelled bit for bit with the executable
    specification [SpecFloat] of the standard library, so that
    [int(n * 0.142857)] or [0.7 * 3 + 0.3 * -2] evaluate here to what they
    evaluate to in the program.  Layers are lists of features, a feature is
    a finite map from field names to attribute values. *)

From Stdlib Require Import ZArith Lia List String Sorted SpecFloat.
From stdpp Require Import base option list strings gmap pretty.

Local Open Scope Z_scope.

(* ===================================================================== *)
(** * Part I: definitions *)
(* ===================================================================== *)

(** ** IEEE 754 binary64 *)

Module Binary64.

Definition prec : Z := 53.
Definition emax : Z := 1024.

(** A double is a [spec_float] that is [valid_binary prec emax]; the
    conversions and operations below return such numbers. *)
Abbreviation float := spec_float.

(** Conversion of an integer, round to nearest even (C's [(double)n],
    Python's [float(n)] before its overflow test). *)
Definition of_Z (z : Z) : float := binary_normalize prec emax z 0 false.

Definition add : float -> float -> float := SFadd prec emax.
Definition mul : float -> float -> float := SFmul prec emax.
Definition div : float -> float -> float := SFdiv prec emax.

(** A decimal literal [num / den] with [den] a power of ten, e.g.
    [0.142857] is [lit 142857 1000000].  Numerator and denominator are
    exactly representable, so the correctly rounded quotient is the double
    nearest to the literal. *)
Definition lit (num den : Z) : float := div (of_Z num) (of_Z den).

Definition leb : float -> float -> bool := SFleb.
Definition ltb : float -> float -> bool := SFltb.

Definition is_nan (x : float) : bool :=
  match x with S754_nan => true | _ => false end.

Definition is_infinite (x : float) : bool :=
  match x with S754_infinity _ => true | _ => false end.

Definition is_zero (x : float) : bool :=
  match x with S754_zero _ => true | _ => false end.

(** Truncation toward zero of a finite number. *)
Definition trunc (x : float) : option Z :=
  match x with
  | S754_zero _ => Some 0
  | S754_finite s m e =>
      Some (cond_Zopp s (if 0 <=? e then Zpos m * 2 ^ e else Zpos m / 2 ^ (- e)))
  | S754_infinity _ | S754_nan => None
  end.

(** Rounding of a finite number to the nearest integer, halves away from
    zero (C's [round]). *)
Definition round_half_away (x : float) : option Z :=
  match x with
  | S754_zero _ => Some 0
  | S754_finite s m e =>
      Some (cond_Zopp s (if 0 <=? e then Zpos m * 2 ^ e
                         else (Zpos m + 2 ^ (- e - 1)) / 2 ^ (- e)))
  | S754_infinity _ | S754_nan => None
  end.

End Binary64.

Import Binary64.

(** ** Attribute values, exceptions *)

(** What [feature[name]] can hand to Python, and what a QGIS expression
    reads from a column. *)
Inductive attr : Type :=
| PyNone                      (* Python's None *)
| QNULL                       (* the QGIS NULL variant *)
| PyInt (z : Z)
| PyFloat (x : float)
| PyStr (s : string)
| PyOther.                    (* any other object (a date, a list, ...) *)

(** The exceptions of the two routines.  A [QgsProcessingException] is
    represented by the message it is raised with. *)
Inductive exn : Type :=
| ValueError
| TypeError
| OverflowError
| IndexError
| ZeroDivisionError
| FieldNotFound (field : string)
    (* "Feld '...' existiert nicht. Verfuegbare Felder: ..." *)
| NoValidValues (field : string)
    (* "Keine gueltigen Werte im Feld '...' gefunden" *)
| QuantileFailure (cause : exn)
    (* "Fehler bei der Quantilberechnung: ..." *)
| DirectoriesMissing
    (* "Ein oder mehrere Verzeichnisse existieren nicht" *)
| WeightsNot100
    (* "Die Summe der Gewichtungen muss 100% ergeben" *)
| BlocksLayerMissing
    (* "Blocks-Layer nicht gefunden: ..." *)
| BuildingsLayerMissing
    (* "Gebaeude-Layer nicht gefunden: ..." *)
| AggregationFailed
    (* "Fehler beim Aggregieren der Gebaeudescores" *)
| LayerInvalid
    (* "Layer nach Join ist ungueltig" *)
| ScoreFieldMissing (field : string)
    (* "Feld '...' nicht gefunden. Verfuegbare Felder: ..." *)
| ToolboxError (algorithm : string)
    (* an exception raised inside a native processing algorithm *)
| EvalError
    (* the expression engine could not evaluate a formula *)
| Phase4Failure (cause : exn).
    (* "Fehler in Phase 4: ..." *)

(** ** Exceptions and mutable state as monads *)

Definition result (A : Type) : Type := exn + A.

Abbreviation Ok := (@inr exn _).
Abbreviation Raise := (@inl exn _).

#[global] Instance result_ret : MRet result := fun A a => Ok a.
#[global] Instance result_bind : MBind result :=
  fun A B f m => match m with inl e => inl e | inr a => f a end.

(** A computation that may raise and that mutates a store of type [S];
    the store it returns is the store at the point of the raise. *)
Definition M (S A : Type) : Type := S -> result A * S.

#[global] Instance M_ret {S : Type} : MRet (M S) := fun A a s => (Ok a, s).
#[global] Instance M_bind {S : Type} : MBind (M S) :=
  fun A B f m s =>
    match m s with
    | (inl e, s') => (inl e, s')
    | (inr a, s') => f a s'
    end.

Definition get {S : Type} : M S S := fun s => (Ok s, s).
Definition put {S : Type} (s : S) : M S unit := fun _ => (Ok tt, s).
Definition throw {S A : Type} (e : exn) : M S A := fun s => (Raise e, s).
Definition lift {S A : Type} (r : result A) : M S A := fun s => (r, s).

(** [try: body except Exception as e: handler e]. *)
Definition try_except {S A : Type} (body : M S A) (handler : exn -> M S A) : M S A :=
  fun s =>
    match body s with
    | (inl e, s') => handler e s'
    | ok => ok
    end.

(** ** Python primitives used by the classifier *)

Section Python.

(** [float(s)] for a [str]: the double it denotes, or [None] when Python
    raises [ValueError]. *)
Variable float_of_str : string -> option float.

(** The largest length a Python list can have ([sys.maxsize]). *)
Definition PY_SSIZE_T_MAX : Z := 2 ^ 63 - 1.

(** [float(n)] for an [int]. *)
Definition py_float_of_int (n : Z) : result float :=
  let x := of_Z n in
  if is_infinite x then Raise OverflowError else Ok x.

(** [float(value)]. *)
Definition py_float (value : attr) : result float :=
  match value with
  | PyInt z => py_float_of_int z
  | PyFloat x => Ok x
  | PyStr s =>
      match float_of_str s with
      | Some x => Ok x
      | None => Raise ValueError
      end
  | PyNone | QNULL | PyOther => Raise TypeError
  end.

(** [n * c] for an [int] [n] and a [float] [c]. *)
Definition py_mul_int_float (n : Z) (c : float) : result float :=
  x ← py_float_of_int n; Ok (mul x c).

(** [int(x)] for a [float]. *)
Definition py_int (x : float) : result Z :=
  match trunc x with
  | Some i => Ok i
  | None => if is_nan x then Raise ValueError else Raise OverflowError
  end.

(** [l[i]] for a list: negative indices count from the end. *)
Definition py_getitem {A : Type} (l : list A) (i : Z) : result A :=
  let n := Z.of_nat (length l) in
  let j := if i <? 0 then i + n else i in
  if (j <? 0) || (n <=? j) then Raise IndexError
  else match l !! Z.to_nat j with
       | Some a => Ok a
       | None => Raise IndexError
       end.

(** [values.sort()]: the sort is stable and only uses [<]; on floats
    without NaN the outcome is the one of this insertion sort.  With a NaN
    in the list the order that [list.sort] leaves depends on the comparisons
    it happens to make and is not the one of this function: what is proved
    about the order of the sample carries the hypothesis that the sample
    holds no NaN. *)
Fixpoint insert (x : float) (l : list float) : list float :=
  match l with
  | [] => [x]
  | y :: l' => if ltb y x then y :: insert x l' else x :: y :: l'
  end.

Fixpoint sort (l : list float) : list float :=
  match l with
  | [] => []
  | x :: l' => insert x (sort l')
  end.

(** ** Layers *)

Definition feature : Type := gmap string attr.

Record QgsVectorLayer : Type := {
  fields : list string;
  features : list feature
}.

(** [feature[name]]: a field without a value reads as NULL. *)
Definition getitem (f : feature) (name : string) : attr :=
  default QNULL (f !! name).

(** [name in field_names]. *)
Definition contains (field_names : list string) (name : string) : bool :=
  existsb (String.eqb name) field_names.

(** ** [calculate_quantile_score] *)

(** [value is not None and value != NULL and value != ''] *)
Definition has_value (value : attr) : bool :=
  match value with
  | PyNone | QNULL => false
  | PyStr s => negb (String.eqb s "")
  | PyInt _ | PyFloat _ | PyOther => true
  end.

(** The first loop: the values of [field_name] that convert to a float. *)
Fixpoint collect_values (field_name : string) (fs : list feature) : result (list float) :=
  match fs with
  | [] => Ok []
  | f :: fs' =>
      let value := getitem f field_name in
      if has_value value then
        match py_float value with
        | inr x => values ← collect_values field_name fs'; Ok (x :: values)
        | inl ValueError | inl TypeError => collect_values field_name fs'
        | inl e => Raise e
        end
      else collect_values field_name fs'
  end.

Record quantiles : Type := {
  q1 : float; q2 : float; q3 : float; q4 : float; q5 : float; q6 : float
}.

Definition c1 : float := lit 142857 1000000.  (* 0.142857 *)
Definition c2 : float := lit 285714 1000000.  (* 0.285714 *)
Definition c3 : float := lit 428571 1000000.  (* 0.428571 *)
Definition c4 : float := lit 571429 1000000.  (* 0.571429 *)
Definition c5 : float := lit 714286 1000000.  (* 0.714286 *)
Definition c6 : float := lit 857143 1000000.  (* 0.857143 *)

Definition constants : list float := [c1; c2; c3; c4; c5; c6].

(** [int(n * c)] *)
Definition quantile_index (n : Z) (c : float) : result Z :=
  x ← py_mul_int_float n c; py_int x.

(** [values[int(n * c)]] *)
Definition quantile_at (values : list float) (c : float) : result float :=
  i ← quantile_index (Z.of_nat (length values)) c; py_getitem values i.

(** [v] is the element of [values] at the index [int(n * c)], which is a
    valid position of the list. *)
Definition breakpoint_at (values : list float) (c v : float) : Prop :=
  exists i,
    quantile_index (Z.of_nat (length values)) c = Ok i
    /\ 0 <= i <= Z.of_nat (length values) - 1
    /\ values !! Z.to_nat i = Some v.

(** The dictionary [quantiles], built from the sorted values. *)
Definition compute_quantiles (values : list float) : result quantiles :=
  v1 ← quantile_at values c1;
  v2 ← quantile_at values c2;
  v3 ← quantile_at values c3;
  v4 ← quantile_at values c4;
  v5 ← quantile_at values c5;
  v6 ← quantile_at values c6;
  Ok {| q1 := v1; q2 := v2; q3 := v3; q4 := v4; q5 := v5; q6 := v6 |}.

(** The [if]/[elif] ladder. *)
Definition quantile_score (q : quantiles) (value : float) : Z :=
  if leb value (q1 q) then -3
  else if leb value (q2 q) then -2
  else if leb value (q3 q) then -1
  else if leb value (q4 q) then 0
  else if leb value (q5 q) then 1
  else if leb value (q6 q) then 2
  else 3.

(** The ladder in the words of the specification: [s] is the score of
    [value] when the first breakpoint that [value] does not exceed decides,
    and 3 when it exceeds all six. *)
Definition inclusive_upper_bound_ladder (q : quantiles) (value : float) (s : Z) : Prop :=
  let le x y := leb x y = true in
  (le value (q1 q) -> s = -3)
  /\ (~ le value (q1 q) -> le value (q2 q) -> s = -2)
  /\ (~ le value (q1 q) -> ~ le value (q2 q) -> le value (q3 q) -> s = -1)
  /\ (~ le value (q1 q) -> ~ le value (q2 q) -> ~ le value (q3 q) ->
      le value (q4 q) -> s = 0)
  /\ (~ le value (q1 q) -> ~ le value (q2 q) -> ~ le value (q3 q) ->
      ~ le value (q4 q) -> le value (q5 q) -> s = 1)
  /\ (~ le value (q1 q) -> ~ le value (q2 q) -> ~ le value (q3 q) ->
      ~ le value (q4 q) -> ~ le value (q5 q) -> le value (q6 q) -> s = 2)
  /\ (~ le value (q1 q) -> ~ le value (q2 q) -> ~ le value (q3 q) ->
      ~ le value (q4 q) -> ~ le value (q5 q) -> ~ le value (q6 q) -> s = 3).

(** The source value of a feature when it is valid: not None, not NULL, not
    the empty string, and accepted by [float]. *)
Definition valid_value (field_name : string) (f : feature) : option float :=
  let value := getitem f field_name in
  if has_value value then
    match py_float value with
    | inr x => Some x
    | inl _ => None
    end
  else None.

(** What the second loop does to one feature [f], giving [f']. *)
Definition scored_as (q : quantiles) (field_name output_field : string)
    (f f' : feature) : Prop :=
  match valid_value field_name f with
  | Some v =>
      exists s, f' = <[output_field := PyInt s]> f /\ inclusive_upper_bound_ladder q v s
  | None => f' = f
  end.

(** The body of the second loop for one feature. *)
Definition score_feature (q : quantiles) (field_name output_field : string)
    (f : feature) : result feature :=
  let value := getitem f field_name in
  if has_value value then
    match py_float value with
    | inr x => Ok (<[output_field := PyInt (quantile_score q x)]> f)
    | inl ValueError | inl TypeError => Ok f
    | inl e => Raise e
    end
  else Ok f.

Fixpoint score_features (q : quantiles) (field_name output_field : string)
    (fs : list feature) : result (list feature) :=
  match fs with
  | [] => Ok []
  | f :: fs' =>
      f' ← score_feature q field_name output_field f;
      fs'' ← score_features q field_name output_field fs';
      Ok (f' :: fs'')
  end.

(** [provider.addAttributes([QgsField(output_field, ...)])] when the field
    is new. *)
Definition add_output_field (output_field : string) (layer : QgsVectorLayer)
  : QgsVectorLayer :=
  if contains (fields layer) output_field then layer
  else {| fields := fields layer ++ [output_field]; features := features layer |}.

(** The statements inside [try:]. A raise in the second loop happens in an
    editing session, which the handler rolls back: the edits are dropped,
    the attribute added through the provider stays. *)
Definition quantile_body (field_name output_field : string) : M QgsVectorLayer unit :=
  layer ← get;
  if negb (contains (fields layer) field_name) then throw (FieldNotFound field_name)
  else
    values ← lift (collect_values field_name (features layer));
    match values with
    | [] => throw (NoValidValues field_name)
    | _ :: _ =>
        q ← lift (compute_quantiles (sort values));
        let layer' := add_output_field output_field layer in
        _ ← put layer';
        scored ← lift (score_features q field_name output_field (features layer'));
        put {| fields := fields layer'; features := scored |}
    end.

Definition calculate_quantile_score (field_name output_field : string)
  : M QgsVectorLayer unit :=
  try_except (quantile_body field_name output_field)
             (fun e => throw (QuantileFailure e)).

End Python.

(** ** The QGIS expression operators of the two formulas

    The formulas handed to [native:fieldcalculator] are programs in the QGIS
    expression language.  Its operators propagate NULL, a division by zero
    yields NULL rather than an error, a comparison with NULL is unknown, and
    [CASE] takes the first [WHEN] whose condition is true.  The numeric
    columns the pipeline builds hold integers, doubles or NULL; a text or
    other operand is outside the fragment modelled here. *)

Inductive operand : Type :=
| NullOp
| IntOp (z : Z)
| RealOp (x : float).

Definition operand_of (v : attr) : result operand :=
  match v with
  | PyNone | QNULL => Ok NullOp
  | PyInt z => Ok (IntOp z)
  | PyFloat x => Ok (RealOp x)
  | PyStr _ | PyOther => Raise EvalError
  end.

(** The double an operand is computed with. *)
Definition to_double (o : operand) : float :=
  match o with
  | NullOp => S754_nan
  | IntOp z => of_Z z
  | RealOp x => x
  end.

(** [a * b]; two integers are multiplied as integers (the formulas below
    multiply by doubles, the 64-bit range of that product plays no role). *)
Definition qgs_mul (a b : attr) : result attr :=
  x ← operand_of a; y ← operand_of b;
  match x, y with
  | NullOp, _ | _, NullOp => Ok QNULL
  | IntOp i, IntOp j => Ok (PyInt (i * j))
  | _, _ => Ok (PyFloat (mul (to_double x) (to_double y)))
  end.

(** [a + b] *)
Definition qgs_add (a b : attr) : result attr :=
  x ← operand_of a; y ← operand_of b;
  match x, y with
  | NullOp, _ | _, NullOp => Ok QNULL
  | IntOp i, IntOp j => Ok (PyInt (i + j))
  | _, _ => Ok (PyFloat (add (to_double x) (to_double y)))
  end.

(** [a / b]: always a floating-point division; a zero divisor gives NULL. *)
Definition qgs_div (a b : attr) : result attr :=
  x ← operand_of a; y ← operand_of b;
  match x, y with
  | NullOp, _ | _, NullOp => Ok QNULL
  | _, _ =>
      if is_zero (to_double y) then Ok QNULL
      else Ok (PyFloat (div (to_double x) (to_double y)))
  end.

(** [a >= b], three-valued: [None] is unknown. *)
Definition qgs_ge (a b : attr) : result (option bool) :=
  x ← operand_of a; y ← operand_of b;
  match x, y with
  | NullOp, _ | _, NullOp => Ok None
  | IntOp i, IntOp j => Ok (Some (j <=? i))
  | _, _ => Ok (Some (leb (to_double y) (to_double x)))
  end.

(** [CASE WHEN c1 THEN t1 ... ELSE e END]: the conditions are evaluated in
    order, up to the first one that is true. *)
Fixpoint qgs_case (whens : list (result (option bool) * attr)) (else_ : attr)
  : result attr :=
  match whens with
  | [] => Ok else_
  | (cond, then_) :: rest =>
      c ← cond;
      match c with
      | Some true => Ok then_
      | _ => qgs_case rest else_
      end
  end.

(** [round(a)] with one argument: the nearest integer. *)
Definition qgs_round (a : attr) : result attr :=
  x ← operand_of a;
  match x with
  | NullOp => Ok QNULL
  | IntOp i => Ok (PyInt i)
  | RealOp d =>
      match round_half_away d with
      | Some i => Ok (PyInt i)
      | None => Raise EvalError
      end
  end.

(** The [CASE] of the ratio formula as a function of [@p]. *)
Definition ratio_case (p : attr) : result attr :=
  qgs_case
    [ (qgs_ge p (PyFloat (lit 857 10)), PyInt 3);
      (qgs_ge p (PyFloat (lit 714 10)), PyInt 2);
      (qgs_ge p (PyFloat (lit 571 10)), PyInt 1);
      (qgs_ge p (PyFloat (lit 428 10)), PyInt 0);
      (qgs_ge p (PyFloat (lit 285 10)), PyInt (-1));
      (qgs_ge p (PyFloat (lit 142 10)), PyInt (-2)) ]
    (PyInt (-3)).

(** [with_variable('p', 100.0 * "width" / "height", CASE ... END)] *)
Definition score_verhaeltnis_formula (f : feature) : result attr :=
  t ← qgs_mul (PyFloat (of_Z 100)) (getitem f "width");
  p ← qgs_div t (getitem f "height");
  ratio_case p.

(** The ladder of the ratio score in the words of the specification: the
    first threshold that [p] reaches decides, -3 when it reaches none. *)
Definition descending_threshold_ladder (p : float) (s : Z) : Prop :=
  let ge x num := leb (lit num 10) x = true in
  (ge p 857 -> s = 3)
  /\ (~ ge p 857 -> ge p 714 -> s = 2)
  /\ (~ ge p 857 -> ~ ge p 714 -> ge p 571 -> s = 1)
  /\ (~ ge p 857 -> ~ ge p 714 -> ~ ge p 571 -> ge p 428 -> s = 0)
  /\ (~ ge p 857 -> ~ ge p 714 -> ~ ge p 571 -> ~ ge p 428 -> ge p 285 -> s = -1)
  /\ (~ ge p 857 -> ~ ge p 714 -> ~ ge p 571 -> ~ ge p 428 -> ~ ge p 285 ->
      ge p 142 -> s = -2)
  /\ (~ ge p 857 -> ~ ge p 714 -> ~ ge p 571 -> ~ ge p 428 -> ~ ge p 285 ->
      ~ ge p 142 -> s = -3).

(** A bounding box with its two side lengths. *)
Definition bbox (width height : float) : feature :=
  {[ "width" := PyFloat width; "height" := PyFloat height ]}.

(** [a / b] for two [int]s: the correctly rounded quotient. *)
Definition py_truediv (a b : Z) : result float :=
  if b =? 0 then Raise ZeroDivisionError
  else if a =? 0 then Ok (S754_zero (b <? 0))
  else
    let '(mz, ez, lz) := SFdiv_core_binary prec emax (Z.abs a) 0 (Z.abs b) 0 in
    let x := binary_round_aux prec emax (xorb (a <? 0) (b <? 0)) mz ez lz in
    if is_infinite x then Raise OverflowError else Ok x.

(** [round(gc * "score_geb_sum_norm" + vc * "score_verhaeltnis")], where
    [gc] and [vc] are the doubles that [{geb_weight/100}] and
    [{verh_weight/100}] print into the formula. *)
Definition final_score_formula (gc vc : float) (f : feature) : result attr :=
  a ← qgs_mul (PyFloat gc) (getitem f "score_geb_sum_norm");
  b ← qgs_mul (PyFloat vc) (getitem f "score_verhaeltnis");
  s ← qgs_add a b;
  qgs_round s.

(** A block with its two scores. *)
Definition scored_block (score_geb_sum_norm score_verhaeltnis : attr) : feature :=
  {[ "score_geb_sum_norm" := score_geb_sum_norm; "score_verhaeltnis" := score_verhaeltnis ]}.

(** ** The two processing algorithms whose outcome the formulas decide *)

Fixpoint calculate_features (field_name : string) (formula : feature -> result attr)
    (fs : list feature) : result (list feature) :=
  match fs with
  | [] => Ok []
  | f :: fs' =>
      v ← formula f;
      fs'' ← calculate_features field_name formula fs';
      Ok (<[field_name := v]> f :: fs'')
  end.

(** [native:fieldcalculator]: a new field holding the value of the formula
    on every feature; an evaluation error aborts the algorithm. *)
Definition fieldcalculator (layer : QgsVectorLayer) (field_name : string)
    (formula : feature -> result attr) : result QgsVectorLayer :=
  fs ← calculate_features field_name formula (features layer);
  Ok {| fields := if contains (fields layer) field_name then fields layer
                  else fields layer ++ [field_name];
        features := fs |}.

(** [native:retainfields] *)
Definition retainfields (layer : QgsVectorLayer) (keep : list string) : QgsVectorLayer :=
  {| fields := List.filter (contains keep) (fields layer);
     features := map (filter (fun kv : string * attr => contains keep kv.1 = true))
                     (features layer) |}.

(** ** [phase_4_quantilskala] *)

(** The GeoPackage files of phase 4, named after the variables that hold
    their paths. *)
Inductive path : Type :=
| input_blocks         (* temp_path/4_liegenschaftsflaechen_blocks.gpkg *)
| join_layer           (* ..._prepared_inputdata/gwr_bund_bs_lv95.gpkg *)
| joined_score_path    (* temp_path/1_liegenschaftsflaechen_score_geb_sum.gpkg *)
| bbox_path            (* temp_path/2_liegenschaftsflaechen_min_boundingbox.gpkg *)
| scored_bbox_path     (* temp_path/3_liegenschaftsflaechen_min_bbox_score_verhaeltnis.gpkg *)
| temp_joined_path     (* temp_path/temp_joined_scores.gpkg *)
| temp_final_path      (* temp_path/temp_final_scores.gpkg *)
| final_path.          (* final_output_dir/3_liegenschaftsflaechen_joined_scores.gpkg *)

#[global] Instance path_eq_dec : EqDecision path.
Proof. solve_decision. Defined.

(** What phase 4 sees of the file system. *)
Record disk : Type := {
  temp_path_exists : bool;
  final_output_dir_exists : bool;
  gpkg : path -> option QgsVectorLayer;
  undeletable : path -> bool   (* the files that [os.remove] fails on *)
}.

Definition write (p : path) (layer : QgsVectorLayer) : M disk unit :=
  fun d =>
    (Ok tt, {| temp_path_exists := temp_path_exists d;
               final_output_dir_exists := final_output_dir_exists d;
               gpkg := fun p' => if decide (p' = p) then Some layer else gpkg d p';
               undeletable := undeletable d |}).

(** [if os.path.exists(p): try: os.remove(p) except Exception as e: ...]:
    a removal that fails is logged, not raised, and the file stays. *)
Definition remove (p : path) : M disk unit :=
  fun d =>
    (Ok tt, if undeletable d p then d
            else {| temp_path_exists := temp_path_exists d;
                    final_output_dir_exists := final_output_dir_exists d;
                    gpkg := fun p' => if decide (p' = p) then None else gpkg d p';
                    undeletable := undeletable d |}).

(** Reading the layer of a file as the input of an algorithm. *)
Definition read (p : path) (algorithm : string) : M disk QgsVectorLayer :=
  d ← get;
  match gpkg d p with
  | Some layer => mret layer
  | None => throw (ToolboxError algorithm)
  end.

(** A routine that edits a layer, run on the layer stored in file [p]. *)
Definition on_layer {A : Type} (p : path) (edit : M QgsVectorLayer A) : M disk A :=
  layer ← read p "ogr";
  let '(r, layer') := edit layer in
  _ ← write p layer';
  lift r.

(** The native algorithms that work on geometry; their code is not part of
    the plugin, phase 4 only passes layers through them. *)
Record Toolbox : Type := {
  joinbylocationsummary : QgsVectorLayer -> QgsVectorLayer -> result QgsVectorLayer;
  orientedminimumboundingbox : QgsVectorLayer -> result QgsVectorLayer;
  joinattributestable : QgsVectorLayer -> QgsVectorLayer -> result QgsVectorLayer;
  isValid : QgsVectorLayer -> bool
}.

Section Phase4.

Variable float_of_str : string -> option float.
Variable qgis : Toolbox.

Definition score_field : string := "score_gebaeude_sum".

Definition retained : list string :=
  ["fid"; "score_gebaeude_sum"; "score_geb_sum_norm"; "score_verhaeltnis"; "final_score"].

(** The statements inside [try:]. *)
Definition phase_4_body (geb_weight verh_weight : Z) : M disk unit :=
  d ← get;
  if negb (temp_path_exists d && final_output_dir_exists d) then throw DirectoriesMissing
  else if negb (geb_weight + verh_weight =? 100) then throw WeightsNot100
  else
    match gpkg d input_blocks with
    | None => throw BlocksLayerMissing
    | Some blocks =>
    match gpkg d join_layer with
    | None => throw BuildingsLayerMissing
    | Some buildings =>
        aggregated ← lift (joinbylocationsummary qgis blocks buildings);
        _ ← write joined_score_path aggregated;
        d' ← get;
        match gpkg d' joined_score_path with
        | None => throw AggregationFailed
        | Some layer =>
            if negb (isValid qgis layer) then throw LayerInvalid
            else if negb (contains (fields layer) score_field)
            then throw (ScoreFieldMissing score_field)
            else
              _ ← on_layer joined_score_path
                    (calculate_quantile_score float_of_str score_field "score_geb_sum_norm");
              scored ← read joined_score_path "native:orientedminimumboundingbox";
              bbox ← lift (orientedminimumboundingbox qgis scored);
              _ ← write bbox_path bbox;
              scored_bbox ← lift (fieldcalculator bbox "score_verhaeltnis"
                                    score_verhaeltnis_formula);
              _ ← write scored_bbox_path scored_bbox;
              temp_joined ← lift (joinattributestable qgis scored scored_bbox);
              _ ← write temp_joined_path temp_joined;
              gc ← lift (py_truediv geb_weight 100);
              vc ← lift (py_truediv verh_weight 100);
              temp_final ← lift (fieldcalculator temp_joined "final_score"
                                   (final_score_formula gc vc));
              _ ← write temp_final_path temp_final;
              _ ← write final_path (retainfields temp_final retained);
              _ ← remove temp_joined_path;
              remove temp_final_path
        end
    end
    end.

Definition phase_4_quantilskala (geb_weight verh_weight : Z) : M disk unit :=
  try_except (phase_4_body geb_weight verh_weight)
             (fun e => throw (Phase4Failure e)).

End Phase4.

(** ** Example data *)

(** Text attributes do not occur in the examples; any reading of text as a
    number does for them. *)
Definition no_text : string -> option float := fun _ => None.

Definition block (fid : Z) (score_gebaeude_sum : attr) : feature :=
  {[ "fid" := PyInt fid; "score_gebaeude_sum" := score_gebaeude_sum ]}.

(** Three blocks, the second without buildings. *)
Definition three_blocks : QgsVectorLayer :=
  {| fields := ["fid"; "score_gebaeude_sum"];
     features := [block 1 (PyFloat (of_Z 4)); block 2 QNULL; block 3 (PyFloat (of_Z (-2)))] |}.

(** Two blocks without buildings. *)
Definition empty_blocks : QgsVectorLayer :=
  {| fields := ["fid"; "score_gebaeude_sum"];
     features := [block 1 QNULL; block 2 (PyStr "")] |}.

(** A toolbox for the examples: the aggregation hands out three blocks, the
    bounding boxes are 30 by 40, and the join returns the boxes, which carry
    every attribute of the blocks. *)
Definition example_toolbox : Toolbox :=
  {| joinbylocationsummary := fun _ _ => Ok three_blocks;
     orientedminimumboundingbox := fun layer =>
       Ok {| fields := fields layer ++ ["width"; "height"];
             features := map (fun f => <["width" := PyFloat (of_Z 30)]>
                                         (<["height" := PyFloat (of_Z 40)]> f))
                             (features layer) |};
     joinattributestable := fun _ scored_bbox => Ok scored_bbox;
     isValid := fun _ => true |}.

Definition example_disk : disk :=
  {| temp_path_exists := true;
     final_output_dir_exists := true;
     gpkg := fun p => match p with
                      | input_blocks | join_layer => Some three_blocks
                      | _ => None
                      end;
     undeletable := fun _ => false |}.

(** The weights of the seven presets lie between 0 and 100; the scores of
    both classifiers between -3 and 3. *)
Definition percentages : list Z := map Z.of_nat (seq 0 101).
Definition score_range : list Z := [-3; -2; -1; 0; 1; 2; 3].

(** The final score of a block with the scores [a] and [b] under the weights
    [geb_weight] and [100 - geb_weight], when it is an integer. *)
Definition final_score_of (geb_weight a b : Z) : option Z :=
  match gc ← py_truediv geb_weight 100;
        vc ← py_truediv (100 - geb_weight) 100;
        final_score_formula gc vc (scored_block (PyInt a) (PyInt b)) with
  | inr (PyInt final_score) => Some final_score
  | _ => None
  end.

(** ** What the classifier and the two formulas are measured by *)

(** The composite score in the words of the specification: the weighted sum
    [(geb_weight * a + verh_weight * b) / 100] in exact arithmetic, rounded
    to the nearest integer, a half away from zero or to the even
    neighbour. *)
Definition round_half_away_from_zero (num den : Z) : Z :=
  Z.sgn num * ((2 * Z.abs num + den) / (2 * den)).

Definition round_half_to_even (num den : Z) : Z :=
  let q := num / den in
  let r := 2 * (num mod den) in
  if r <? den then q
  else if den <? r then q + 1
  else if Z.even q then q else q + 1.

Definition exact_final_score (round : Z -> Z -> Z) (geb_weight verh_weight a b : Z) : Z :=
  round (geb_weight * a + verh_weight * b) 100.

(** [f'] has the attributes of [f], except possibly [name]. *)
Definition agree_off (name : string) (f f' : feature) : Prop :=
  forall other, other <> name -> f' !! other = f !! other.

Definition breakpoints (q : quantiles) : list float :=
  [q1 q; q2 q; q3 q; q4 q; q5 q; q6 q].

(** The number of breakpoints that lie below [x]. *)
Definition breakpoints_exceeded (q : quantiles) (x : float) : Z :=
  Z.of_nat (length (List.filter (fun b => negb (leb x b)) (breakpoints q))).

(** The number of thresholds of the ratio ladder that [p] reaches. *)
Definition thresholds_reached (p : float) : Z :=
  Z.of_nat (length (List.filter (fun t => leb t p)
              [lit 857 10; lit 714 10; lit 571 10; lit 428 10; lit 285 10; lit 142 10])).

Definition final_le (x y : option Z) : bool :=
  match x, y with
  | Some u, Some v => u <=? v
  | _, _ => false
  end.

(** The final scores under one weight, for every pair of scores. *)
Definition final_scores (geb_weight : Z) : list (Z * Z * option Z) :=
  flat_map (fun a => map (fun b => (a, b, final_score_of geb_weight a b)) score_range)
           score_range.

Definition monotone_table (t : list (Z * Z * option Z)) : bool :=
  forallb (fun '(a, b, s) =>
    forallb (fun '(a', b', s') => implb ((a <=? a') && (b <=? b')) (final_le s s')) t) t.

(** [d'] has the directories and the two input files of [d]. *)
Definition same_inputs (d d' : disk) : Prop :=
  temp_path_exists d' = temp_path_exists d
  /\ final_output_dir_exists d' = final_output_dir_exists d
  /\ gpkg d' input_blocks = gpkg d input_blocks
  /\ gpkg d' join_layer = gpkg d join_layer.

(** A computation that leaves the directories and the input files alone. *)
Definition keeps_inputs {A : Type} (m : M disk A) : Prop :=
  forall d, same_inputs d (m d).2.

(** ** The building formulas of phase 1 *)

(** [a = b] on numbers, three-valued.  (QGIS compares two numbers as
    doubles; against the integer literals of the formulas below that is the
    equality written here.) *)
Definition qgs_eq (a b : attr) : result (option bool) :=
  x ← operand_of a; y ← operand_of b;
  match x, y with
  | NullOp, _ | _, NullOp => Ok None
  | IntOp i, IntOp j => Ok (Some (i =? j))
  | _, _ => Ok (Some (SFeqb (to_double x) (to_double y)))
  end.

(** [CASE WHEN x = k1 THEN v1 WHEN x = k2 THEN v2 ... ELSE NULL END] *)
Definition case_equal {A : Type} (then_ : A -> attr) (x : attr) (table : list (Z * A))
  : result attr :=
  qgs_case (map (fun '(k, v) => (qgs_eq x (PyInt k), then_ v)) table) QNULL.

Definition gwr_gebaeude : list (Z * string) :=
  [ (1110, "Gebaeude mit einer Wohnung");
    (1121, "Gebaeude mit zwei Wohnungen");
    (1122, "Gebaeude mit drei oder mehr Wohnungen");
    (1130, "Wohngebaeude fuer Gemeinschaften");
    (1211, "Hotelgebaeude");
    (1212, "Andere Gebaeude fuer kurzfristige Beherbergung");
    (1220, "Buerogebaeude");
    (1230, "Gross- und Einzelhandelsgebaeude");
    (1231, "Restaurants und Bars in Gebaeuden ohne Wohnnutzung");
    (1241, "Gebaeude des Verkehrs- und Nachrichtenwesens ohne Garagen");
    (1242, "Garagengebaeude");
    (1251, "Industriegebaeude");
    (1252, "Behaelter, Silos und Lagergebaeude");
    (1261, "Gebaeude fuer Kultur- und Freizeitzwecke");
    (1262, "Museen und Bibliotheken");
    (1263, "Schul- und Hochschulgebaeude, Forschungseinrichtungen");
    (1264, "Krankenhaeuser und Facheinrichtungen des Gesundheitswesens");
    (1265, "Sporthallen");
    (1271, "Landwirtschaftliche Betriebsgebaeude");
    (1272, "Kirchen und sonstige Kultgebaeude");
    (1273, "Denkmaeler oder unter Denkmalschutz stehende Bauwerke");
    (1274, "Sonstige Hochbauten, anderweitig nicht genannt");
    (1275, "Andere Gebaeude fuer die kollektive Unterkunft");
    (1276, "Gebaeude fuer die Tierhaltung");
    (1277, "Gebaeude fuer den Pflanzenbau");
    (1278, "Andere landwirtschaftliche Gebaeude") ].

Definition gwr_score : list (Z * Z) :=
  [ (1110, 3); (1121, 3); (1122, 3); (1130, 2); (1211, 1); (1212, 1); (1220, 0);
    (1230, 1); (1231, 1); (1241, -2); (1242, -2); (1251, -3); (1252, -3); (1261, 2);
    (1262, 1); (1263, 1); (1264, -2); (1265, 0); (1271, -2); (1272, 0); (1273, -2);
    (1274, -1); (1275, 1); (1276, -3); (1277, -3); (1278, -3) ].

Definition kt_gebaeude : list (Z * string) :=
  [ (1021, "Wohngebaeude reines Wohngebaeude");
    (1025, "Wohngebaeude reines Wohngebaeude (Mehrfamilienhaus)");
    (1030, "Wohngebaeude uebrige Wohngebaeude");
    (1040, "Anderes Gebäude mit Wohnnutzung (nebensaechlich)");
    (1060, "Anderes Gebäude ohne Wohnnutzung");
    (1080, "Sonderbaute");
    (1090, "Gebaeudekategorie unbekannt") ].

Definition kt_score : list (Z * Z) :=
  [ (1021, 2); (1025, 3); (1030, 1); (1040, 0); (1060, -1); (1080, -3); (1090, -2) ].

(** The four formulas, as functions of the feature they are evaluated on. *)
Definition _get_gwr_gebaeude_formula (f : feature) : result attr :=
  case_equal PyStr (getitem f "GKLAS") gwr_gebaeude.

Definition _get_gwr_score_formula (f : feature) : result attr :=
  case_equal PyInt (getitem f "GKLAS") gwr_score.

Definition _get_kt_gebaeude_formula (f : feature) : result attr :=
  case_equal PyStr (getitem f "GEBKATEGO") kt_gebaeude.

Definition _get_kt_score_formula (f : feature) : result attr :=
  case_equal PyInt (getitem f "GEBKATEGO") kt_score.

(** A building score: NULL or an integer between -3 and 3. *)
Definition building_score (v : attr) : Prop :=
  v = QNULL \/ exists s, v = PyInt s /\ -3 <= s <= 3.

Fixpoint extract_features (expression : feature -> result (option bool))
    (fs : list feature) : result (list feature) :=
  match fs with
  | [] => Ok []
  | f :: fs' =>
      c ← expression f;
      rest ← extract_features expression fs';
      Ok (match c with Some true => f :: rest | _ => rest end)
  end.

(** [native:extractbyexpression]: the features on which the expression is
    true; an evaluation error aborts the algorithm. *)
Definition extractbyexpression (layer : QgsVectorLayer)
    (expression : feature -> result (option bool)) : result QgsVectorLayer :=
  fs ← extract_features expression (features layer);
  Ok {| fields := fields layer; features := fs |}.

(** The branch [key == "gebaeude"] of [phase_1_vorprozessierung]: the name
    of the file and the layer that is exported to it. *)
Definition prepare_gebaeude (layer : QgsVectorLayer) : result (string * QgsVectorLayer) :=
  if contains (fields layer) "GKLAS" then
    gefiltert ← extractbyexpression layer (fun f => qgs_eq (getitem f "GSTAT") (PyInt 1004));
    bezeichnung ← fieldcalculator gefiltert "BEZEICHNUNG" _get_gwr_gebaeude_formula;
    export_layer ← fieldcalculator bezeichnung "score_gebaeude" _get_gwr_score_formula;
    Ok ("gwr_bund_bs_lv95.gpkg", export_layer)
  else
    gefiltert ← extractbyexpression layer (fun f => qgs_eq (getitem f "GEBSTATUS") (PyInt 1004));
    kategotxt ← fieldcalculator gefiltert "KATEGOTXT" _get_kt_gebaeude_formula;
    export_layer ← fieldcalculator kategotxt "score_gebaeude" _get_kt_score_formula;
    Ok ("gebaeudeinformationen_kt_bs_lv95.gpkg", export_layer).

(** The field that holds the status of a building of [layer]. *)
Definition status_field (layer : QgsVectorLayer) : string :=
  if contains (fields layer) "GKLAS" then "GSTAT" else "GEBSTATUS".

(** ** [create_unique_project_folder] *)

(** The paths that exist ([os.path.exists]). *)
Definition filesystem : Type := string -> bool.

Inductive folder_exn : Type :=
| BaseDirectoryMissing   (* "Basisverzeichnis existiert nicht" *)
| FolderCreationFailed   (* "Ordnererstellung fehlgeschlagen" *)
| MaxAttemptsReached.    (* "Maximale Anzahl an Versuchen erreicht" *)

Definition MAX_FOLDER_ATTEMPTS : Z := 1000.

Definition SUBFOLDERS : list string := ["_prepared_inputdata"; "_tempdata"; "_finaloutput"].

(** [f"_basisdata_superblock_{index}"] *)
Definition folder_name (index : Z) : string := "_basisdata_superblock_" +:+ pretty index.

Section Folders.

(** [os.path.join], and the paths that the operating system refuses to
    create (for want of permission or space). *)
Variable join : string -> string -> string.
Variable denied : string -> bool.

(** [os.makedirs(p)] below an existing directory: raises when [p] exists or
    cannot be created; [false] stands for the raise. *)
Definition makedirs (p : string) (fs : filesystem) : bool * filesystem :=
  if fs p || denied p then (false, fs)
  else (true, fun q => String.eqb q p || fs q).

(** [for sub in SUBFOLDERS: os.makedirs(os.path.join(full_path, sub))] *)
Fixpoint make_subfolders (full_path : string) (subs : list string) (fs : filesystem)
  : bool * filesystem :=
  match subs with
  | [] => (true, fs)
  | sub :: rest =>
      let '(created, fs') := makedirs (join full_path sub) fs in
      if created then make_subfolders full_path rest fs' else (false, fs')
  end.

(** The loop [while index <= max_attempts], by recursion on the number
    [max_attempts - index + 1] of indices that are left; any exception
    inside its [try] becomes the failure of the creation. *)
Fixpoint attempts (left : nat) (index : Z) (base_path : string) (fs : filesystem)
  : (folder_exn + string) * filesystem :=
  match left with
  | O => (inl MaxAttemptsReached, fs)
  | S left' =>
      let full_path := join base_path (folder_name index) in
      if negb (fs full_path) then
        let '(created, fs1) := makedirs full_path fs in
        if created then
          let '(created, fs2) := make_subfolders full_path SUBFOLDERS fs1 in
          if created then (inr full_path, fs2) else (inl FolderCreationFailed, fs2)
        else (inl FolderCreationFailed, fs1)
      else attempts left' (index + 1) base_path fs
  end.

Definition create_unique_project_folder (base_path : string) (fs : filesystem)
  : (folder_exn + string) * filesystem :=
  if negb (fs base_path) then (inl BaseDirectoryMissing, fs)
  else attempts (Z.to_nat MAX_FOLDER_ATTEMPTS) 1 base_path fs.

End Folders.

(** ** More example data *)

(** A project prepared from kantonal building data: the blocks are there,
    the file [gwr_bund_bs_lv95.gpkg] is not. *)
Definition kantonal_disk : disk :=
  {| temp_path_exists := true;
     final_output_dir_exists := true;
     gpkg := fun p => match p with
                      | input_blocks => Some three_blocks
                      | _ => None
                      end;
     undeletable := fun _ => false |}.

(** The example disk, on which the file [temp_final_scores.gpkg] cannot be
    deleted once it is there. *)
Definition busy_disk : disk :=
  {| temp_path_exists := true;
     final_output_dir_exists := true;
     gpkg := gpkg example_disk;
     undeletable := fun p => bool_decide (p = temp_final_path) |}.

(** A toolbox whose aggregation finds no building in any block. *)
Definition empty_toolbox : Toolbox :=
  {| joinbylocationsummary := fun _ _ => Ok empty_blocks;
     orientedminimumboundingbox := orientedminimumboundingbox example_toolbox;
     joinattributestable := joinattributestable example_toolbox;
     isValid := fun _ => true |}.

Definition sample : list float := [of_Z 4; of_Z (-2); of_Z 7].

(** Three GWR buildings: a house, a demolished house, a building of a class
    that the formulas do not list. *)
Definition gwr_buildings : QgsVectorLayer :=
  {| fields := ["GSTAT"; "GKLAS"];
     features := [ {[ "GSTAT" := PyInt 1004; "GKLAS" := PyInt 1110 ]};
                   {[ "GSTAT" := PyInt 1007; "GKLAS" := PyInt 1110 ]};
                   {[ "GSTAT" := PyInt 1004; "GKLAS" := PyInt 1279 ]} ] |}.

Definition posix_join (a b : string) : string := a +:+ "/" +:+ b.

Definition nothing_denied : string -> bool := fun _ => false.

(** An output directory that holds one project already. *)
Definition one_project : filesystem :=
  fun q => String.eqb q "/out" || String.eqb q "/out/_basisdata_superblock_1".

(** A file system on which every path exists. *)
Definition full_disk : filesystem := fun _ => true.

(** ** Tactics *)

(** Running a computation of [M] on a store. *)
Ltac run_M := unfold mbind, M_bind, get, lift, put, throw; cbv beta iota.

(** Case analysis on the comparisons inside [SFcompare]. *)
Ltac order_cases :=
  repeat match goal with
  | |- context [Pos.compare_cont Eq ?a ?b] =>
      change (Pos.compare_cont Eq a b) with (Pos.compare a b) in *
  | H : context [Pos.compare_cont Eq ?a ?b] |- _ =>
      change (Pos.compare_cont Eq a b) with (Pos.compare a b) in *
  | |- context [Z.compare ?a ?b] => destruct (Z.compare_spec a b); subst
  | |- context [Pos.compare ?a ?b] => destruct (Pos.compare_spec a b); subst
  | H : context [Z.compare ?a ?b] |- _ => destruct (Z.compare_spec a b); subst
  | H : context [Pos.compare ?a ?b] |- _ => destruct (Pos.compare_spec a b); subst
  end.

(* ===================================================================== *)
(** * Part II: properties *)
(* ===================================================================== *)

(** ** Rounding to nearest in binary64

    [binary_round_aux] shifts out the low bits of a mantissa that is wider
    than 53 bits and rounds; the facts below bound what it returns, which
    is all that a bound on [int(n * c)] needs. *)

Lemma digits2_pos_bounds (m : positive) :
  2 ^ (Zpos (digits2_pos m) - 1) <= Zpos m < 2 ^ Zpos (digits2_pos m).
Proof.
  induction m as [m IH | m IH |]; cbn [digits2_pos].
  - rewrite Pos2Z.inj_succ.
    replace (Z.succ (Zpos (digits2_pos m)) - 1) with (Z.succ (Zpos (digits2_pos m) - 1)) by lia.
    rewrite !Z.pow_succ_r by lia. lia.
  - rewrite Pos2Z.inj_succ.
    replace (Z.succ (Zpos (digits2_pos m)) - 1) with (Z.succ (Zpos (digits2_pos m) - 1)) by lia.
    rewrite !Z.pow_succ_r by lia. lia.
  - cbn. lia.
Qed.

Lemma digits2_unique (z d : Z) :
  0 < d -> 2 ^ (d - 1) <= z < 2 ^ d -> Zdigits2 z = d.
Proof.
  intros Hd [Hlo Hhi].
  assert (0 < z) by (pose proof (Z.pow_pos_nonneg 2 (d - 1)); lia).
  destruct z as [|m|m]; try lia. cbn [Zdigits2].
  pose proof (digits2_pos_bounds m) as [Blo Bhi].
  set (k := Zpos (digits2_pos m)) in *.
  destruct (Z.lt_trichotomy k d) as [Hlt | [Heq | Hgt]]; [exfalso | assumption | exfalso].
  - assert (2 ^ k <= 2 ^ (d - 1)) by (apply Z.pow_le_mono_r; lia). lia.
  - assert (2 ^ d <= 2 ^ (k - 1)) by (apply Z.pow_le_mono_r; lia). lia.
Qed.

Lemma shr_1_m (r : shr_record) : 0 <= shr_m r -> shr_m (shr_1 r) = shr_m r / 2.
Proof.
  destruct r as [m r s]; cbn [shr_m]. intros Hm.
  destruct m as [|[p|p|]|p]; cbn [shr_1 shr_m]; try lia; try reflexivity.
  - rewrite Pos2Z.inj_xI. apply Z.div_unique with (r := 1); lia.
  - rewrite Pos2Z.inj_xO. apply Z.div_unique with (r := 0); lia.
Qed.

Lemma iter_shr_m (p : positive) : forall r : shr_record,
  0 <= shr_m r -> shr_m (SpecFloat.iter_pos shr_1 p r) = shr_m r / 2 ^ Zpos p.
Proof.
  induction p as [p IH | p IH |]; intros r Hr; cbn [SpecFloat.iter_pos].
  - assert (H1 : 0 <= shr_m (shr_1 r)) by (rewrite shr_1_m by assumption; apply Z.div_pos; lia).
    assert (H2 : 0 <= shr_m (SpecFloat.iter_pos shr_1 p (shr_1 r)))
      by (rewrite IH by assumption; apply Z.div_pos; [assumption | apply Z.pow_pos_nonneg; lia]).
    rewrite IH, IH, shr_1_m by assumption.
    rewrite !Z.div_div by (try apply Z.pow_pos_nonneg; lia).
    f_equal.
    replace (Zpos p~1) with (1 + Zpos p + Zpos p) by lia.
    rewrite !Z.pow_add_r by lia. lia.
  - assert (H2 : 0 <= shr_m (SpecFloat.iter_pos shr_1 p r))
      by (rewrite IH by assumption; apply Z.div_pos; [assumption | apply Z.pow_pos_nonneg; lia]).
    rewrite IH, IH by assumption.
    rewrite !Z.div_div by (try apply Z.pow_pos_nonneg; lia).
    f_equal.
    replace (Zpos p~0) with (Zpos p + Zpos p) by lia.
    rewrite !Z.pow_add_r by lia. lia.
  - rewrite shr_1_m by assumption. reflexivity.
Qed.

Lemma round_nearest_even_bounds (m : Z) (l : location) :
  m <= round_nearest_even m l <= m + 1.
Proof.
  destruct l as [|[| |]]; cbn [round_nearest_even]; try lia.
  destruct (Z.even m); lia.
Qed.

Lemma fexp_normal (x : Z) : 3 - emax - prec <= x - prec -> fexp prec emax x = x - prec.
Proof. intros H. unfold fexp, emin. apply Z.max_l. lia. Qed.

Lemma binary_round_aux_bound (s : bool) (m : positive) (e : Z) :
  - 1074 <= Zpos (digits2_pos m) + e - 53 ->
  e <= 970 -> Zpos (digits2_pos m) + e <= 1023 ->
  exists m' e',
    binary_round_aux prec emax s (Zpos m) e loc_Exact = S754_finite s m' e'
    /\ e <= e' <= Z.max e (Zpos (digits2_pos m) + e - 53) + 1
    /\ Zpos m' < 2 ^ 53
    /\ Zpos m' * 2 ^ (e' - e) * 2 ^ 52 <= Zpos m * (2 ^ 52 + 1)
    /\ (Zpos (digits2_pos m) <= 53 -> m' = m /\ e' = e).
Proof.
  intros Hlo He Hhi.
  pose proof (digits2_pos_bounds m) as [Dlo Dhi].
  set (d := Zpos (digits2_pos m)) in *.
  unfold binary_round_aux, shr_fexp.
  replace (Zdigits2 (Zpos m)) with d by reflexivity.
  rewrite fexp_normal by (unfold emax, prec; lia).
  replace (d + e - prec - e) with (d - 53) by (unfold prec; lia).
  cbn [shr_record_of_loc].
  destruct (d - 53) as [|k|k] eqn:Hk.
  - (* exactly 53 digits *)
    cbn [shr shr_m loc_of_shr_record round_nearest_even].
    replace (Zdigits2 (Zpos m)) with d by reflexivity.
    rewrite fexp_normal by (unfold emax, prec; lia).
    replace (d + e - prec - e) with 0 by (unfold prec; lia).
    cbn [shr shr_m].
    assert (Hle : (e <=? emax - prec) = true) by (apply Z.leb_le; unfold emax, prec; lia).
    rewrite Hle. exists m, e. rewrite Z.sub_diag.
    assert (2 ^ d <= 2 ^ 53) by (apply Z.pow_le_mono_r; lia).
    repeat split; lia.
  - (* more than 53 digits: the low k bits are rounded away *)
    cbn [shr].
    set (r1 := SpecFloat.iter_pos shr_1 k _).
    assert (Hm1 : shr_m r1 = Zpos m / 2 ^ Zpos k) by (apply iter_shr_m; cbn; lia).
    pose proof (round_nearest_even_bounds (shr_m r1) (loc_of_shr_record r1)) as Hrne.
    set (m2 := round_nearest_even (shr_m r1) (loc_of_shr_record r1)) in *.
    assert (Hpk : 0 < 2 ^ Zpos k) by (apply Z.pow_pos_nonneg; lia).
    assert (Hsplit : 2 ^ d = 2 ^ 53 * 2 ^ Zpos k)
      by (rewrite <- Z.pow_add_r by lia; f_equal; lia).
    assert (Hsplit' : 2 ^ (d - 1) = 2 ^ 52 * 2 ^ Zpos k)
      by (rewrite <- Z.pow_add_r by lia; f_equal; lia).
    assert (Hm1lo : 2 ^ 52 <= shr_m r1).
    { rewrite Hm1. apply Z.div_le_lower_bound; lia. }
    assert (Hm1hi : shr_m r1 < 2 ^ 53).
    { rewrite Hm1. apply Z.div_lt_upper_bound; lia. }
    assert (Hmul : shr_m r1 * 2 ^ Zpos k <= Zpos m).
    { rewrite Hm1. pose proof (Z.mul_div_le (Zpos m) (2 ^ Zpos k) Hpk). lia. }
    destruct (Z.eq_dec m2 (2 ^ 53)) as [Hcarry | Hnocarry].
    + (* the mantissa was rounded up to 2^53 *)
      rewrite Hcarry.
      replace (Zdigits2 (2 ^ 53)) with 54 by reflexivity.
      rewrite fexp_normal by (unfold emax, prec; lia).
      replace (54 + (e + Zpos k) - prec - (e + Zpos k)) with 1 by (unfold prec; lia).
      cbn [shr SpecFloat.iter_pos shr_record_of_loc].
      change (shr_m (shr_1 {| shr_m := 2 ^ 53; shr_r := false; shr_s := false |}))
        with (Zpos (2 ^ 52)%positive).
      cbn iota beta.
      assert (Hle : (e + Zpos k + 1 <=? emax - prec) = true)
        by (apply Z.leb_le; unfold emax, prec; lia).
      rewrite Hle. exists (2 ^ 52)%positive, (e + Zpos k + 1).
      repeat split; try lia; try reflexivity.
      replace (e + Zpos k + 1 - e) with (1 + Zpos k) by lia.
      rewrite Z.pow_add_r by lia.
      change (Zpos (2 ^ 52)%positive) with (2 ^ 52). change (2 ^ 1) with 2.
      nia.
    + assert (Hd2 : Zdigits2 m2 = 53) by (apply digits2_unique; lia).
      rewrite Hd2, fexp_normal by (unfold emax, prec; lia).
      replace (53 + (e + Zpos k) - prec - (e + Zpos k)) with 0 by (unfold prec; lia).
      cbn [shr shr_record_of_loc shr_m].
      clearbody m2. destruct m2 as [|q|q]; try lia.
      assert (Hle : (e + Zpos k <=? emax - prec) = true)
        by (apply Z.leb_le; unfold emax, prec; lia).
      rewrite Hle. exists q, (e + Zpos k).
      repeat split; try lia.
      replace (e + Zpos k - e) with (Zpos k) by lia. nia.
  - (* fewer than 53 digits: nothing is shifted out *)
    cbn [shr shr_m loc_of_shr_record round_nearest_even].
    replace (Zdigits2 (Zpos m)) with d by reflexivity.
    rewrite fexp_normal by (unfold emax, prec; lia).
    replace (d + e - prec - e) with (Zneg k) by (unfold prec; lia).
    cbn [shr shr_m].
    assert (Hle : (e <=? emax - prec) = true) by (apply Z.leb_le; unfold emax, prec; lia).
    rewrite Hle. exists m, e. rewrite Z.sub_diag.
    assert (2 ^ d <= 2 ^ 53) by (apply Z.pow_le_mono_r; lia).
    repeat split; lia.
Qed.

Lemma Pos_iter_xO (k m : positive) : Zpos (Pos.iter xO m k) = Zpos m * 2 ^ Zpos k.
Proof.
  induction k as [|k IH] using Pos.peano_ind.
  - cbn [Pos.iter]. lia.
  - rewrite Pos.iter_succ, Pos2Z.inj_xO, IH, Pos2Z.inj_succ, Z.pow_succ_r by lia. lia.
Qed.

Lemma digits2_pos_le (m : positive) (k : Z) : Zpos m < 2 ^ k -> Zpos (digits2_pos m) <= k.
Proof.
  intros H. pose proof (digits2_pos_bounds m) as [Dlo _].
  destruct (Z.le_gt_cases (Zpos (digits2_pos m)) k) as [|Hgt]; [assumption | exfalso].
  assert (2 ^ k <= 2 ^ (Zpos (digits2_pos m) - 1)) by (apply Z.pow_le_mono_r; lia).
  lia.
Qed.

Lemma of_Z_pos (n : Z) :
  0 < n < 2 ^ 63 ->
  exists m e,
    of_Z n = S754_finite false m e
    /\ -52 <= e <= 11
    /\ Zpos m < 2 ^ 53
    /\ ((e < 0 /\ Zpos m = n * 2 ^ (- e)) \/
        (0 <= e /\ Zpos m * 2 ^ e * 2 ^ 52 <= n * (2 ^ 52 + 1))).
Proof.
  intros [Hpos Hlt]. destruct n as [|p|p]; try lia.
  unfold of_Z, binary_normalize, binary_round.
  pose proof (digits2_pos_bounds p) as [Dlo Dhi].
  assert (Hd63 : Zpos (digits2_pos p) <= 63) by (apply digits2_pos_le; assumption).
  set (d := Zpos (digits2_pos p)) in *.
  rewrite fexp_normal by (unfold emax, prec; lia).
  unfold shl_align.
  replace (d + 0 - prec - 0) with (d - 53) by (unfold prec; lia).
  destruct (d - 53) as [|k|k] eqn:Hk.
  - destruct (binary_round_aux_bound false p 0) as (m' & e' & -> & He & Hm & Hub & Hex);
      fold d; try lia.
    destruct Hex as [-> ->]; [lia|].
    exists p, 0. repeat split; lia.
  - destruct (binary_round_aux_bound false p 0) as (m' & e' & -> & He & Hm & Hub & _);
      fold d; try lia.
    fold d in He.
    rewrite Z.sub_0_r in Hub.
    exists m', e'. repeat split; lia.
  - replace (d + 0 - prec) with (d - 53) by (unfold prec; lia). rewrite Hk.
    assert (Hmz : Zpos (Pos.iter xO p k) = Zpos p * 2 ^ Zpos k) by apply Pos_iter_xO.
    assert (Hsplit : 2 ^ 53 = 2 ^ d * 2 ^ Zpos k)
      by (rewrite <- Z.pow_add_r by lia; f_equal; lia).
    assert (Hsplit' : 2 ^ 52 = 2 ^ (d - 1) * 2 ^ Zpos k)
      by (rewrite <- Z.pow_add_r by lia; f_equal; lia).
    assert (Hpk : 0 < 2 ^ Zpos k) by (apply Z.pow_pos_nonneg; lia).
    assert (Hdz : Zpos (digits2_pos (Pos.iter xO p k)) = 53).
    { change (Zdigits2 (Zpos (Pos.iter xO p k)) = 53). apply digits2_unique; [lia|].
      rewrite Hmz. change (53 - 1) with 52. nia. }
    destruct (binary_round_aux_bound false (Pos.iter xO p k) (Zneg k))
      as (m' & e' & -> & He & Hm & Hub & Hex); rewrite ?Hdz; try lia.
    destruct Hex as [-> ->]; [lia|].
    exists (Pos.iter xO p k), (Zneg k). rewrite Hmz.
    change (- Zneg k) with (Zpos k). repeat split; lia.
Qed.

Lemma int_mul_bound (n : Z) (mc : positive) (ec : Z) :
  0 < n < 2 ^ 63 ->
  12 <= - ec <= 60 ->
  Zpos mc < 2 ^ 53 ->
  Zpos mc * (2 ^ 52 + 1) < 2 ^ (- ec) * 2 ^ 52 ->
  Zpos mc * ((2 ^ 52 + 1) * (2 ^ 52 + 1)) < 2 ^ (- ec) * (2 ^ 52 * 2 ^ 52) ->
  exists i, trunc (mul (of_Z n) (S754_finite false mc ec)) = Some i /\ 0 <= i <= n - 1.
Proof.
  intros Hn Hec Hmc Hc1 Hc2.
  destruct (of_Z_pos n Hn) as (mn & en & -> & Hen & Hmn & Hval).
  unfold mul, SFmul. cbn [xorb].
  assert (Hprod : Zpos (mn * mc) < 2 ^ 106).
  { rewrite Pos2Z.inj_mul. change (2 ^ 106) with (2 ^ 53 * 2 ^ 53). nia. }
  pose proof (digits2_pos_le _ _ Hprod) as Hdp.
  destruct (binary_round_aux_bound false (mn * mc) (en + ec))
    as (m' & e' & -> & He' & _ & Hub & _); try lia.
  rewrite Pos2Z.inj_mul in Hub.
  cbn [trunc cond_Zopp].
  set (a := - ec) in *.
  set (V := Zpos m' * 2 ^ (e' - (en + ec))) in *.
  set (t := if 0 <=? e' then Zpos m' * 2 ^ e' else Zpos m' / 2 ^ (- e')).
  assert (Hs : 0 < 2 ^ (a - en)) by (apply Z.pow_pos_nonneg; lia).
  assert (Ht0 : 0 <= t).
  { subst t. destruct (0 <=? e') eqn:E.
    - apply Z.leb_le in E. pose proof (Z.pow_pos_nonneg 2 e'). nia.
    - apply Z.div_pos; [lia | apply Z.pow_pos_nonneg; lia]. }
  assert (HtV : t * 2 ^ (a - en) <= V).
  { subst t V. replace (e' - (en + ec)) with (e' + (a - en)) by lia.
    destruct (0 <=? e') eqn:E.
    - apply Z.leb_le in E. rewrite Z.pow_add_r by lia. lia.
    - apply Z.leb_gt in E.
      replace (a - en) with ((e' + (a - en)) + (- e')) at 1 by lia.
      rewrite Z.pow_add_r by lia.
      assert (0 < 2 ^ (- e')) by (apply Z.pow_pos_nonneg; lia).
      assert (0 < 2 ^ (e' + (a - en))) by (apply Z.pow_pos_nonneg; lia).
      pose proof (Z.mul_div_le (Zpos m') (2 ^ (- e')) ltac:(assumption)). nia. }
  assert (HVn : V < n * 2 ^ (a - en)).
  { destruct Hval as [[Hneg Hmn'] | [Hnn Hmn']].
    - replace (a - en) with (a + - en) by lia. rewrite Z.pow_add_r by lia.
      assert (0 < 2 ^ (- en)) by (apply Z.pow_pos_nonneg; lia).
      rewrite Hmn' in Hub.
      set (A := 2 ^ a) in *. set (E := 2 ^ (- en)) in *.
      set (K := 2 ^ 52) in *. assert (0 < K) by (subst K; lia).
      clearbody A E K V. nia.
    - assert (Hsplit : 2 ^ a = 2 ^ (a - en) * 2 ^ en)
        by (rewrite <- Z.pow_add_r by lia; f_equal; lia).
      assert (0 < 2 ^ en) by (apply Z.pow_pos_nonneg; lia).
      set (A := 2 ^ a) in *. set (E := 2 ^ en) in *. set (S := 2 ^ (a - en)) in *.
      set (K := 2 ^ 52) in *. assert (0 < K) by (subst K; lia).
      assert (H1 : V * E * (K * K) <= Zpos mn * E * K * (Zpos mc * (K + 1))) by nia.
      assert (H2 : Zpos mn * E * K * (Zpos mc * (K + 1)) <= n * (K + 1) * (Zpos mc * (K + 1)))
        by (apply Z.mul_le_mono_nonneg_r; lia).
      assert (H3 : n * (K + 1) * (Zpos mc * (K + 1)) < n * (A * (K * K))) by nia.
      clearbody A E K V S. nia. }
  exists t. split; [reflexivity|]. split; [assumption|].
  assert (t < n) by nia. lia.
Qed.

(** ** The order of binary64 numbers *)

Lemma SFleb_trans (x y z : spec_float) :
  SFleb x y = true -> SFleb y z = true -> SFleb x z = true.
Proof.
  unfold SFleb, SFcompare.
  destruct x as [sx|sx| |sx mx ex], y as [sy|sy| |sy my ey], z as [sz|sz| |sz mz ez];
    try destruct sx; try destruct sy; try destruct sz;
    try reflexivity; try discriminate;
    intros Hxy Hyz;
    order_cases; cbn in *; try reflexivity; try discriminate; try lia.
Qed.

Lemma SFleb_refl (x : spec_float) : x <> S754_nan -> SFleb x x = true.
Proof.
  unfold SFleb, SFcompare. destruct x as [s|s| |s m e]; try destruct s; intros H;
    try reflexivity; try congruence;
    order_cases; cbn; try reflexivity; try lia.
Qed.

Lemma SFleb_total (x y : spec_float) :
  x <> S754_nan -> y <> S754_nan -> SFleb x y = true \/ SFleb y x = true.
Proof.
  unfold SFleb, SFcompare.
  destruct x as [sx|sx| |sx mx ex], y as [sy|sy| |sy my ey];
    try destruct sx; try destruct sy; intros Hx Hy; try congruence; auto;
    order_cases; cbn; auto; try lia.
Qed.

Lemma SFltb_leb (x y : spec_float) :
  x <> S754_nan -> y <> S754_nan -> SFltb x y = negb (SFleb y x).
Proof.
  unfold SFleb, SFltb, SFcompare.
  destruct x as [sx|sx| |sx mx ex], y as [sy|sy| |sy my ey];
    try destruct sx; try destruct sy; intros Hx Hy; try congruence; auto;
    order_cases; cbn; auto; try lia.
Qed.

Lemma leb_trans (x y z : float) : leb x y = true -> leb y z = true -> leb x z = true.
Proof. apply SFleb_trans. Qed.

Lemma leb_refl (x : float) : is_nan x = false -> leb x x = true.
Proof. intros H. apply SFleb_refl. destruct x; discriminate || congruence. Qed.

(** ** The breakpoint indices [int(n * c)] *)

(** The literals of the program are the doubles that Python prints with
    [float.hex]: 85.7 is 0x1.56ccccccccccdp+6, 0.8 is 0x1.999999999999ap-1. *)
Lemma literal_bits :
  lit 857 10 = S754_finite false 6030601376025805 (-46)
  /\ lit 714 10 = S754_finite false 5024328334285210 (-46)
  /\ lit 571 10 = S754_finite false 8036110585089229 (-47)
  /\ lit 428 10 = S754_finite false 6023564501608038 (-47)
  /\ lit 285 10 = S754_finite false 8022036836253696 (-48)
  /\ lit 142 10 = S754_finite false 7993889338582630 (-49)
  /\ lit 8 10 = S754_finite false 7205759403792794 (-53)
  /\ lit 2 10 = S754_finite false 7205759403792794 (-55).
Proof. repeat split; vm_compute; reflexivity. Qed.

Lemma c1_bits : c1 = S754_finite false 5146965855738136 (-55).
Proof. vm_compute. reflexivity. Qed.

Lemma c2_bits : c2 = S754_finite false 5146965855738136 (-54).
Proof. vm_compute. reflexivity. Qed.

Lemma c3_bits : c3 = S754_finite false 7720448783607203 (-54).
Proof. vm_compute. reflexivity. Qed.

Lemma c4_bits : c4 = S754_finite false 5146974862937390 (-53).
Proof. vm_compute. reflexivity. Qed.

Lemma c5_bits : c5 = S754_finite false 6433716326871924 (-53).
Proof. vm_compute. reflexivity. Qed.

Lemma c6_bits : c6 = S754_finite false 7720457790806458 (-53).
Proof. vm_compute. reflexivity. Qed.

Lemma quantile_index_bound (n : Z) (mc : positive) (ec : Z) :
  0 < n <= PY_SSIZE_T_MAX ->
  12 <= - ec <= 60 ->
  Zpos mc < 2 ^ 53 ->
  Zpos mc * (2 ^ 52 + 1) < 2 ^ (- ec) * 2 ^ 52 ->
  Zpos mc * ((2 ^ 52 + 1) * (2 ^ 52 + 1)) < 2 ^ (- ec) * (2 ^ 52 * 2 ^ 52) ->
  exists i, quantile_index n (S754_finite false mc ec) = Ok i /\ 0 <= i <= n - 1.
Proof.
  intros Hn Hec Hmc Hc1 Hc2.
  assert (Hn' : 0 < n < 2 ^ 63) by (unfold PY_SSIZE_T_MAX in Hn; lia).
  destruct (int_mul_bound n mc ec Hn' Hec Hmc Hc1 Hc2) as (i & Hi & Hrange).
  destruct (of_Z_pos n Hn') as (mn & en & Hof & _).
  exists i. split; [|assumption].
  unfold quantile_index, py_mul_int_float, py_float_of_int.
  rewrite Hof. cbn [is_infinite]. rewrite <- Hof.
  cbn [mbind result_bind]. unfold py_int. rewrite Hi. reflexivity.
Qed.

Lemma quantile_index_in_range (n : Z) (c : float) :
  0 < n <= PY_SSIZE_T_MAX -> In c constants ->
  exists i, quantile_index n c = Ok i /\ 0 <= i <= n - 1.
Proof.
  intros Hn Hc. unfold constants in Hc. cbn [In] in Hc.
  destruct Hc as [<- | [<- | [<- | [<- | [<- | [<- | []]]]]]];
    [rewrite c1_bits | rewrite c2_bits | rewrite c3_bits
    | rewrite c4_bits | rewrite c5_bits | rewrite c6_bits];
    (apply quantile_index_bound; [assumption | lia | reflexivity | reflexivity | reflexivity]).
Qed.

(** ** Indexing, sorting, collecting *)

Lemma py_getitem_in_range {A : Type} (l : list A) (i : Z) :
  0 <= i <= Z.of_nat (length l) - 1 ->
  exists a, l !! Z.to_nat i = Some a /\ py_getitem l i = Ok a.
Proof.
  intros Hi. unfold py_getitem.
  assert (Hlt : (Z.to_nat i < length l)%nat) by lia.
  destruct (lookup_lt_is_Some_2 l _ Hlt) as [a Ha].
  exists a. split; [assumption|].
  assert (E1 : (i <? 0) = false) by (apply Z.ltb_ge; lia).
  assert (E2 : (Z.of_nat (length l) <=? i) = false) by (apply Z.leb_gt; lia).
  cbv zeta. rewrite E1, E1, E2. cbn [orb]. rewrite Ha. reflexivity.
Qed.

Lemma length_insert_sorted (x : float) (l : list float) :
  length (insert x l) = S (length l).
Proof.
  induction l as [|y l IH]; cbn [insert]; [reflexivity|].
  destruct (ltb y x); cbn [length]; congruence.
Qed.

Lemma length_sort (l : list float) : length (sort l) = length l.
Proof.
  induction l as [|x l IH]; cbn [sort]; [reflexivity|].
  rewrite length_insert_sorted, IH. reflexivity.
Qed.

Lemma insert_perm (x : float) (l : list float) : insert x l ≡ₚ x :: l.
Proof.
  induction l as [|y l IH]; cbn [insert]; [reflexivity|].
  destruct (ltb y x); [|reflexivity].
  rewrite IH. apply Permutation_swap.
Qed.

Lemma sort_perm (l : list float) : sort l ≡ₚ l.
Proof.
  induction l as [|x l IH]; cbn [sort]; [reflexivity|].
  rewrite insert_perm, IH. reflexivity.
Qed.

Lemma sort_replicate (n : nat) (x : float) : sort (replicate n x) = replicate n x.
Proof.
  induction n as [|n IH]; cbn [replicate sort]; [reflexivity|].
  rewrite IH. destruct n as [|n]; cbn [replicate insert]; [reflexivity|].
  assert (H : ltb x x = false).
  { unfold ltb, SFltb, SFcompare. destruct x as [s|s| |s m e]; try destruct s; try reflexivity;
      order_cases; cbn; try reflexivity; lia. }
  rewrite H. reflexivity.
Qed.

Lemma ltb_leb (x y : float) : ltb x y = true -> leb x y = true.
Proof. unfold ltb, leb, SFltb, SFleb. destruct (SFcompare x y) as [[| |]|]; congruence. Qed.

Lemma ltb_false_leb (x y : float) :
  is_nan x = false -> is_nan y = false -> ltb y x = false -> leb x y = true.
Proof.
  intros Hx Hy H. unfold ltb in H. rewrite SFltb_leb in H.
  - apply negb_false_iff in H. exact H.
  - destruct y; discriminate || congruence.
  - destruct x; discriminate || congruence.
Qed.

Lemma insert_sorted (x : float) (l : list float) :
  is_nan x = false -> Forall (fun y => is_nan y = false) l ->
  StronglySorted (fun a b => leb a b = true) l ->
  StronglySorted (fun a b => leb a b = true) (insert x l).
Proof.
  intros Hx Hl Hs. induction Hs as [|y l Hs IH Hy]; cbn [insert].
  - repeat constructor.
  - apply Forall_cons in Hl as [Hny Hl].
    destruct (ltb y x) eqn:E.
    + constructor; [apply IH; assumption|].
      rewrite insert_perm. constructor; [apply ltb_leb; assumption | assumption].
    + assert (Hxy : leb x y = true) by (apply ltb_false_leb; assumption).
      constructor; [constructor; assumption|].
      constructor; [assumption|].
      eapply Forall_impl; [exact Hy|]. intros z Hz. cbn beta in Hz.
      exact (leb_trans x y z Hxy Hz).
Qed.

(** Without NaN the outcome of [sort] is in non-decreasing order (and it is
    a permutation, [sort_perm]). *)
Lemma sort_sorted (l : list float) :
  Forall (fun y => is_nan y = false) l ->
  StronglySorted (fun a b => leb a b = true) (sort l).
Proof.
  induction l as [|x l IH]; intros Hl; cbn [sort]; [constructor|].
  apply Forall_cons in Hl as [Hx Hl].
  apply insert_sorted; [assumption | rewrite sort_perm; assumption | apply IH; assumption].
Qed.

Section PythonFacts.

Variable float_of_str : string -> option float.

Lemma collect_values_length (field_name : string) (fs : list feature) (values : list float) :
  collect_values float_of_str field_name fs = Ok values ->
  (length values <= length fs)%nat.
Proof.
  revert values. induction fs as [|f fs IH]; intros values H; cbn [collect_values] in H.
  - injection H as <-. cbn. lia.
  - destruct (has_value (getitem f field_name)).
    + destruct (py_float float_of_str (getitem f field_name)) as [e|x].
      * destruct e; try discriminate; specialize (IH _ H); cbn [length]; lia.
      * destruct (collect_values float_of_str field_name fs) as [e|values']; [discriminate|].
        cbn in H. injection H as <-. specialize (IH _ eq_refl). cbn [length]. lia.
    + specialize (IH _ H). cbn [length]. lia.
Qed.

End PythonFacts.

Lemma quantile_at_in_range (values : list float) (c : float) :
  values <> [] -> Z.of_nat (length values) <= PY_SSIZE_T_MAX -> In c constants ->
  exists i v,
    quantile_index (Z.of_nat (length values)) c = Ok i
    /\ 0 <= i <= Z.of_nat (length values) - 1
    /\ values !! Z.to_nat i = Some v
    /\ quantile_at values c = Ok v.
Proof.
  intros Hne Hmax Hc.
  assert (Hn : 0 < Z.of_nat (length values) <= PY_SSIZE_T_MAX).
  { destruct values; [congruence | cbn [length] in *; lia]. }
  destruct (quantile_index_in_range _ c Hn Hc) as (i & Hi & Hrange).
  destruct (py_getitem_in_range values i Hrange) as (v & Hv & Hget).
  exists i, v. repeat split; try assumption; try lia.
  unfold quantile_at. rewrite Hi. exact Hget.
Qed.

Lemma compute_quantiles_ok (values : list float) :
  values <> [] -> Z.of_nat (length values) <= PY_SSIZE_T_MAX ->
  exists q,
    compute_quantiles values = Ok q
    /\ breakpoint_at values c1 (q1 q) /\ breakpoint_at values c2 (q2 q)
    /\ breakpoint_at values c3 (q3 q) /\ breakpoint_at values c4 (q4 q)
    /\ breakpoint_at values c5 (q5 q) /\ breakpoint_at values c6 (q6 q).
Proof.
  intros Hne Hmax.
  assert (Hin : forall c, In c constants ->
            exists v, quantile_at values c = Ok v /\ breakpoint_at values c v).
  { intros c Hc. destruct (quantile_at_in_range values c Hne Hmax Hc) as (i & v & ? & ? & ? & ?).
    exists v. split; [assumption|]. exists i. auto. }
  destruct (Hin c1) as (v1 & E1 & B1); [unfold constants; cbn; auto|].
  destruct (Hin c2) as (v2 & E2 & B2); [unfold constants; cbn; auto|].
  destruct (Hin c3) as (v3 & E3 & B3); [unfold constants; cbn; auto|].
  destruct (Hin c4) as (v4 & E4 & B4); [unfold constants; cbn; auto|].
  destruct (Hin c5) as (v5 & E5 & B5); [unfold constants; cbn; auto 10|].
  destruct (Hin c6) as (v6 & E6 & B6); [unfold constants; cbn; auto 10|].
  exists {| q1 := v1; q2 := v2; q3 := v3; q4 := v4; q5 := v5; q6 := v6 |}.
  split; [|cbn [q1 q2 q3 q4 q5 q6]; auto 10].
  unfold compute_quantiles. rewrite E1, E2, E3, E4, E5, E6. reflexivity.
Qed.

(** ** The claims about the breakpoints *)

(** C1 (amended).  For every non-empty sample, the six breakpoints are the
    elements of the sorted sample at the indices [int(n * c)], [c] being the
    six-digit constants 0.142857, 0.285714, 0.428571, 0.571429, 0.714286 and
    0.857143 and the product being the binary64 one; every index is a valid
    position, nothing is clamped.  For the sample 1, ..., 7 the indices are
    0, 1, 2, 4, 5, 6 and the breakpoints 1, 2, 3, 5, 6, 7. *)
Theorem breakpoints_at_quantile_indices (values : list float) :
  values <> [] -> Z.of_nat (length values) <= PY_SSIZE_T_MAX ->
  (exists q,
      compute_quantiles (sort values) = Ok q
      /\ breakpoint_at (sort values) c1 (q1 q) /\ breakpoint_at (sort values) c2 (q2 q)
      /\ breakpoint_at (sort values) c3 (q3 q) /\ breakpoint_at (sort values) c4 (q4 q)
      /\ breakpoint_at (sort values) c5 (q5 q) /\ breakpoint_at (sort values) c6 (q6 q))
  /\ map (quantile_index 7) constants = map Ok [0; 1; 2; 4; 5; 6]
  /\ compute_quantiles (sort (map of_Z [1; 2; 3; 4; 5; 6; 7]))
     = Ok {| q1 := of_Z 1; q2 := of_Z 2; q3 := of_Z 3;
             q4 := of_Z 5; q5 := of_Z 6; q6 := of_Z 7 |}.
Proof.
  intros Hne Hmax. split; [|split; vm_compute; reflexivity].
  apply compute_quantiles_ok.
  - intros E. apply Hne. apply (f_equal (@length float)) in E.
    rewrite length_sort in E. destruct values; [reflexivity | discriminate].
  - rewrite length_sort. assumption.
Qed.

Lemma breakpoints_at_quantile_indices_witness :
  let values := map of_Z [1; 2; 3; 4; 5; 6; 7] in
  values <> [] /\ Z.of_nat (length values) <= PY_SSIZE_T_MAX
  /\ (exists q,
        compute_quantiles (sort values) = Ok q
        /\ breakpoint_at (sort values) c1 (q1 q) /\ breakpoint_at (sort values) c2 (q2 q)
        /\ breakpoint_at (sort values) c3 (q3 q) /\ breakpoint_at (sort values) c4 (q4 q)
        /\ breakpoint_at (sort values) c5 (q5 q) /\ breakpoint_at (sort values) c6 (q6 q))
  /\ map (quantile_index 7) constants = map Ok [0; 1; 2; 4; 5; 6]
  /\ compute_quantiles (sort (map of_Z [1; 2; 3; 4; 5; 6; 7]))
     = Ok {| q1 := of_Z 1; q2 := of_Z 2; q3 := of_Z 3;
             q4 := of_Z 5; q5 := of_Z 6; q6 := of_Z 7 |}.
Proof.
  split; [discriminate|]. split; [vm_compute; discriminate|].
  apply (breakpoints_at_quantile_indices (map of_Z [1; 2; 3; 4; 5; 6; 7])).
  - discriminate.
  - vm_compute. discriminate.
Defined.

(** C1 as stated fails on the sample 1, ..., 7: the indices are not
    1, ..., 6 and the breakpoints are not 2, ..., 7. *)
Lemma breakpoints_one_to_seven_counterexample :
  map (quantile_index 7) constants <> map Ok [1; 2; 3; 4; 5; 6]
  /\ compute_quantiles (sort (map of_Z [1; 2; 3; 4; 5; 6; 7]))
     <> Ok {| q1 := of_Z 2; q2 := of_Z 3; q3 := of_Z 4;
              q4 := of_Z 5; q5 := of_Z 6; q6 := of_Z 7 |}.
Proof. split; vm_compute; discriminate. Qed.

(** C10.  For a sample of [n >= 1] values, each of the six index expressions
    [int(n * c)] evaluates to an integer between [0] and [n - 1], so that
    the lookup in the list of values succeeds. *)
Theorem quantile_indices_in_bounds (values : list float) (c : float) :
  values <> [] -> Z.of_nat (length values) <= PY_SSIZE_T_MAX -> In c constants ->
  exists i v,
    quantile_index (Z.of_nat (length values)) c = Ok i
    /\ 0 <= i <= Z.of_nat (length values) - 1
    /\ py_getitem values i = Ok v.
Proof.
  intros Hne Hmax Hc.
  destruct (quantile_at_in_range values c Hne Hmax Hc) as (i & v & Hi & Hr & Hv & _).
  exists i, v. repeat split; try assumption; try lia.
  destruct (py_getitem_in_range values i Hr) as (v' & Hv' & ->). congruence.
Qed.

Lemma quantile_indices_in_bounds_witness :
  let values := map of_Z [1; 2; 3] in
  values <> [] /\ Z.of_nat (length values) <= PY_SSIZE_T_MAX /\ In c6 constants
  /\ exists i v,
       quantile_index (Z.of_nat (length values)) c6 = Ok i
       /\ 0 <= i <= Z.of_nat (length values) - 1
       /\ py_getitem values i = Ok v.
Proof.
  split; [discriminate|]. split; [vm_compute; discriminate|].
  split; [unfold constants; cbn; auto 10|].
  apply (quantile_indices_in_bounds (map of_Z [1; 2; 3]) c6).
  - discriminate.
  - vm_compute. discriminate.
  - unfold constants; cbn; auto 10.
Defined.

(** ** The ladder *)

Lemma quantile_score_range (q : quantiles) (x : float) : -3 <= quantile_score q x <= 3.
Proof. unfold quantile_score. repeat (destruct (leb x _)); lia. Qed.

Lemma quantile_score_mono (q : quantiles) (x y : float) :
  leb x y = true -> quantile_score q x <= quantile_score q y.
Proof.
  intros Hxy. unfold quantile_score.
  repeat match goal with
  | |- context [leb y ?b] =>
      let E := fresh "E" in
      destruct (leb y b) eqn:E; [rewrite (leb_trans x y b Hxy E) |]
  end;
  repeat (destruct (leb x _)); lia.
Qed.

Lemma quantile_score_ladder (q : quantiles) (x : float) :
  inclusive_upper_bound_ladder q x (quantile_score q x).
Proof.
  unfold inclusive_upper_bound_ladder, quantile_score.
  destruct (leb x (q1 q)), (leb x (q2 q)), (leb x (q3 q)),
           (leb x (q4 q)), (leb x (q5 q)), (leb x (q6 q));
    repeat split; intros; congruence.
Qed.

(** C3.  On every non-empty sample the six breakpoints exist, every value of
    the sample gets one score, between -3 and 3, and the score is monotonic:
    [x <= y] implies [score x <= score y]. *)
Theorem quantile_score_monotone (values : list float) :
  values <> [] -> Z.of_nat (length values) <= PY_SSIZE_T_MAX ->
  exists q,
    compute_quantiles (sort values) = Ok q
    /\ forall x y, In x values -> In y values ->
         -3 <= quantile_score q x <= 3
         /\ (leb x y = true -> quantile_score q x <= quantile_score q y).
Proof.
  intros Hne Hmax.
  destruct (compute_quantiles_ok (sort values)) as (q & Hq & _).
  - intros E. apply Hne. apply (f_equal (@length float)) in E.
    rewrite length_sort in E. destruct values; [reflexivity | discriminate].
  - rewrite length_sort. assumption.
  - exists q. split; [assumption|]. intros x y _ _. split.
    + apply quantile_score_range.
    + apply quantile_score_mono.
Qed.

Lemma quantile_score_monotone_witness :
  let values := map of_Z [4; -2; 9; 4] in
  values <> [] /\ Z.of_nat (length values) <= PY_SSIZE_T_MAX
  /\ exists q,
       compute_quantiles (sort values) = Ok q
       /\ forall x y, In x values -> In y values ->
            -3 <= quantile_score q x <= 3
            /\ (leb x y = true -> quantile_score q x <= quantile_score q y).
Proof.
  split; [discriminate|]. split; [vm_compute; discriminate|].
  apply (quantile_score_monotone (map of_Z [4; -2; 9; 4])).
  - discriminate.
  - vm_compute. discriminate.
Defined.

Lemma quantile_index_7 :
  quantile_index 7 c1 = Ok 0 /\ quantile_index 7 c2 = Ok 1 /\ quantile_index 7 c3 = Ok 2
  /\ quantile_index 7 c4 = Ok 4 /\ quantile_index 7 c5 = Ok 5 /\ quantile_index 7 c6 = Ok 6.
Proof. repeat split; vm_compute; reflexivity. Qed.

(** C4 (amended).  For a sample of seven identical values all six
    breakpoints equal that value, and the value is assigned score -3: it
    does not exceed the first breakpoint, and the first rung of the ladder
    decides. *)
Theorem seven_identical_values (v : float) :
  is_nan v = false ->
  exists q,
    compute_quantiles (sort (replicate 7 v)) = Ok q
    /\ q = {| q1 := v; q2 := v; q3 := v; q4 := v; q5 := v; q6 := v |}
    /\ quantile_score q v = -3.
Proof.
  intros Hv. rewrite sort_replicate.
  exists {| q1 := v; q2 := v; q3 := v; q4 := v; q5 := v; q6 := v |}.
  destruct quantile_index_7 as (E1 & E2 & E3 & E4 & E5 & E6).
  split; [|split; [reflexivity|]].
  - unfold compute_quantiles, quantile_at.
    change (Z.of_nat (length (replicate 7 v))) with 7.
    rewrite E1, E2, E3, E4, E5, E6. reflexivity.
  - unfold quantile_score. cbn [q1]. rewrite (leb_refl v Hv). reflexivity.
Qed.

Lemma seven_identical_values_witness :
  is_nan (of_Z 5) = false
  /\ exists q,
       compute_quantiles (sort (replicate 7 (of_Z 5))) = Ok q
       /\ q = {| q1 := of_Z 5; q2 := of_Z 5; q3 := of_Z 5;
                 q4 := of_Z 5; q5 := of_Z 5; q6 := of_Z 5 |}
       /\ quantile_score q (of_Z 5) = -3.
Proof.
  split; [reflexivity|]. apply (seven_identical_values (of_Z 5)). reflexivity.
Defined.

(** C4 as stated fails: in a sample of seven values 5.0 the value 5.0 is
    scored -3, not 2. *)
Lemma seven_identical_values_counterexample :
  let score := q ← compute_quantiles (sort (replicate 7 (of_Z 5)));
               Ok (quantile_score q (of_Z 5)) in
  score = Ok (-3) /\ score <> Ok 2.
Proof. split; vm_compute; [reflexivity | discriminate]. Qed.

(** ** The classifier on a layer *)

Section QuantileClassifier.

Variable float_of_str : string -> option float.

Lemma score_features_spec (q : quantiles) (field_name output_field : string)
    (fs : list feature) (values : list float) :
  collect_values float_of_str field_name fs = Ok values ->
  exists scored,
    score_features float_of_str q field_name output_field fs = Ok scored
    /\ Forall2 (scored_as float_of_str q field_name output_field) fs scored.
Proof.
  revert values. induction fs as [|f fs IH]; intros values Hc.
  - exists []. split; [reflexivity | constructor].
  - cbn [collect_values] in Hc. cbn [score_features].
    unfold score_feature.
    assert (Hhead : forall f', (valid_value float_of_str field_name f = None -> f' = f) ->
              (forall v, valid_value float_of_str field_name f = Some v ->
                 f' = <[output_field := PyInt (quantile_score q v)]> f) ->
              scored_as float_of_str q field_name output_field f f').
    { intros f' HN HS. unfold scored_as.
      destruct (valid_value float_of_str field_name f) as [v|].
      - exists (quantile_score q v). split; [auto | apply quantile_score_ladder].
      - auto. }
    unfold valid_value in Hhead.
    destruct (has_value (getitem f field_name)).
    + destruct (py_float float_of_str (getitem f field_name)) as [e|x].
      * assert (Hskip : collect_values float_of_str field_name fs = Ok values
                        /\ (e = ValueError \/ e = TypeError)).
        { destruct e; try discriminate; auto. }
        destruct Hskip as [Hc' He].
        destruct (IH _ Hc') as (scored & -> & HF).
        exists (f :: scored). split.
        -- destruct He as [-> | ->]; reflexivity.
        -- constructor; [|assumption]. apply Hhead; [reflexivity | discriminate].
      * destruct (collect_values float_of_str field_name fs) as [e|values'];
          [discriminate|].
        destruct (IH _ eq_refl) as (scored & -> & HF).
        exists (<[output_field := PyInt (quantile_score q x)]> f :: scored).
        split; [reflexivity|].
        constructor; [|assumption]. apply Hhead; [discriminate|].
        intros v [= <-]. reflexivity.
    + destruct (IH _ Hc) as (scored & -> & HF).
      exists (f :: scored). split; [reflexivity|].
      constructor; [|assumption]. apply Hhead; [reflexivity | discriminate].
Qed.

Lemma calculate_quantile_score_runs (layer : QgsVectorLayer)
    (field_name output_field : string) (values : list float)
    (q : quantiles) (scored : list feature) :
  contains (fields layer) field_name = true ->
  collect_values float_of_str field_name (features layer) = Ok values ->
  values <> [] ->
  compute_quantiles (sort values) = Ok q ->
  score_features float_of_str q field_name output_field (features layer) = Ok scored ->
  calculate_quantile_score float_of_str field_name output_field layer
  = (Ok tt, {| fields := fields (add_output_field output_field layer);
               features := scored |}).
Proof.
  intros Hfield Hvalues Hne Hq Hs.
  assert (Hfeat : features (add_output_field output_field layer) = features layer).
  { unfold add_output_field. destruct (contains (fields layer) output_field); reflexivity. }
  unfold calculate_quantile_score, try_except, quantile_body.
  run_M.
  rewrite Hfield. cbn [negb]. rewrite Hvalues.
  destruct values as [|v values']; [congruence|].
  rewrite Hq, Hfeat, Hs. reflexivity.
Qed.

Lemma sample_has_quantiles (fs : list feature) (field_name : string) (values : list float) :
  collect_values float_of_str field_name fs = Ok values ->
  values <> [] ->
  Z.of_nat (length fs) <= PY_SSIZE_T_MAX ->
  exists q, compute_quantiles (sort values) = Ok q.
Proof.
  intros Hvalues Hne Hmax.
  pose proof (collect_values_length _ _ _ _ Hvalues) as Hlen.
  destruct (compute_quantiles_ok (sort values)) as (q & Hq & _).
  - intros E. apply Hne. apply (f_equal (@length float)) in E.
    rewrite length_sort in E. destruct values; [reflexivity | discriminate].
  - rewrite length_sort. lia.
  - exists q. assumption.
Qed.

(** C2.  When the classifier is run on a layer with at least one valid
    source value, none of them NaN, the valid values are sorted, the six
    breakpoints are taken from the sorted sample, and every feature with a
    valid source value gets, in the output field, the score of the
    inclusive-upper-bound ladder over the six breakpoints: -3 up to the
    first, -2 up to the second, ..., 2 up to the sixth and 3 beyond; every
    other feature is left as it was, its output field is not written. *)
Theorem quantile_scores_follow_ladder (layer : QgsVectorLayer)
    (field_name output_field : string) (values : list float) :
  contains (fields layer) field_name = true ->
  collect_values float_of_str field_name (features layer) = Ok values ->
  values <> [] ->
  Forall (fun y => is_nan y = false) values ->
  Z.of_nat (length (features layer)) <= PY_SSIZE_T_MAX ->
  exists q scored,
    sort values ≡ₚ values
    /\ StronglySorted (fun x y => leb x y = true) (sort values)
    /\ compute_quantiles (sort values) = Ok q
    /\ calculate_quantile_score float_of_str field_name output_field layer
       = (Ok tt, {| fields := fields (add_output_field output_field layer);
                    features := scored |})
    /\ Forall2 (fun f f' =>
         match valid_value float_of_str field_name f with
         | Some v =>
             exists s, f' = <[output_field := PyInt s]> f
                       /\ inclusive_upper_bound_ladder q v s
         | None => f' = f
         end) (features layer) scored.
Proof.
  intros Hfield Hvalues Hne Hnan Hmax.
  destruct (sample_has_quantiles _ _ _ Hvalues Hne Hmax) as (q & Hq).
  destruct (score_features_spec q field_name output_field _ _ Hvalues)
    as (scored & Hscored & Hall).
  exists q, scored. split; [apply sort_perm|].
  split; [apply sort_sorted; assumption|]. split; [assumption|]. split.
  - apply (calculate_quantile_score_runs layer field_name output_field values q scored);
      assumption.
  - exact Hall.
Qed.

(** C9.  When no valid value remains after the collection, the classifier
    raises its no-valid-values error and the layer is left untouched; when at
    least one valid value remains, it returns normally. *)
Theorem no_valid_values_is_an_error (layer : QgsVectorLayer)
    (field_name output_field : string) (values : list float) :
  contains (fields layer) field_name = true ->
  collect_values float_of_str field_name (features layer) = Ok values ->
  Z.of_nat (length (features layer)) <= PY_SSIZE_T_MAX ->
  (values = [] ->
     calculate_quantile_score float_of_str field_name output_field layer
     = (Raise (QuantileFailure (NoValidValues field_name)), layer))
  /\ (values <> [] ->
        exists layer',
          calculate_quantile_score float_of_str field_name output_field layer
          = (Ok tt, layer')).
Proof.
  intros Hfield Hvalues Hmax. split.
  - intros ->.
    unfold calculate_quantile_score, try_except, quantile_body.
    run_M.
    rewrite Hfield. cbn [negb]. rewrite Hvalues. reflexivity.
  - intros Hne.
    destruct (sample_has_quantiles _ _ _ Hvalues Hne Hmax) as (q & Hq).
    destruct (score_features_spec q field_name output_field _ _ Hvalues)
      as (scored & Hscored & _).
    eexists.
    apply (calculate_quantile_score_runs layer field_name output_field values q scored);
      assumption.
Qed.

End QuantileClassifier.

Lemma quantile_scores_follow_ladder_witness :
  let values := [of_Z 4; of_Z (-2)] in
  contains (fields three_blocks) "score_gebaeude_sum" = true
  /\ collect_values no_text "score_gebaeude_sum" (features three_blocks) = Ok values
  /\ values <> []
  /\ Forall (fun y => is_nan y = false) values
  /\ Z.of_nat (length (features three_blocks)) <= PY_SSIZE_T_MAX
  /\ exists q scored,
       sort values ≡ₚ values
       /\ StronglySorted (fun x y => leb x y = true) (sort values)
       /\ compute_quantiles (sort values) = Ok q
       /\ calculate_quantile_score no_text "score_gebaeude_sum" "score_geb_sum_norm"
            three_blocks
          = (Ok tt, {| fields := fields (add_output_field "score_geb_sum_norm" three_blocks);
                       features := scored |})
       /\ Forall2 (fun f f' =>
            match valid_value no_text "score_gebaeude_sum" f with
            | Some v =>
                exists s, f' = <["score_geb_sum_norm" := PyInt s]> f
                          /\ inclusive_upper_bound_ladder q v s
            | None => f' = f
            end) (features three_blocks) scored.
Proof.
  split; [reflexivity|]. split; [reflexivity|]. split; [discriminate|].
  split; [repeat constructor|].
  split; [vm_compute; discriminate|].
  apply (quantile_scores_follow_ladder no_text three_blocks
           "score_gebaeude_sum" "score_geb_sum_norm" [of_Z 4; of_Z (-2)]).
  - reflexivity.
  - reflexivity.
  - discriminate.
  - repeat constructor.
  - vm_compute. discriminate.
Defined.

Lemma no_valid_values_is_an_error_witness :
  contains (fields empty_blocks) "score_gebaeude_sum" = true
  /\ collect_values no_text "score_gebaeude_sum" (features empty_blocks) = Ok []
  /\ Z.of_nat (length (features empty_blocks)) <= PY_SSIZE_T_MAX
  /\ calculate_quantile_score no_text "score_gebaeude_sum" "score_geb_sum_norm" empty_blocks
     = (Raise (QuantileFailure (NoValidValues "score_gebaeude_sum")), empty_blocks).
Proof.
  split; [reflexivity|]. split; [reflexivity|]. split; [vm_compute; discriminate|].
  apply (no_valid_values_is_an_error no_text empty_blocks
           "score_gebaeude_sum" "score_geb_sum_norm" []).
  - reflexivity.
  - reflexivity.
  - vm_compute. discriminate.
  - reflexivity.
Defined.

(** ** The ratio score *)

Lemma ratio_case_ladder (p : float) :
  exists s, ratio_case (PyFloat p) = Ok (PyInt s) /\ descending_threshold_ladder p s.
Proof.
  unfold ratio_case, descending_threshold_ladder, qgs_case, qgs_ge.
  cbn [operand_of mbind result_bind to_double].
  destruct (leb (lit 857 10) p), (leb (lit 714 10) p), (leb (lit 571 10) p),
           (leb (lit 428 10) p), (leb (lit 285 10) p), (leb (lit 142 10) p);
    eexists; (split; [reflexivity|]); repeat split; intros; congruence.
Qed.

(** C5.  The ratio score of a box with a non-zero height is decided by
    [p = 100 * width / height] on the descending ladder with inclusive lower
    bounds 85.7, 71.4, 57.1, 42.8, 28.5 and 14.2, and is -3 below the last;
    [p = 100] scores 3, [p = 50] scores 0, [p = 10] and [p = 0] score -3. *)
Theorem ratio_score_follows_ladder (f : feature) (width height : float) :
  getitem f "width" = PyFloat width ->
  getitem f "height" = PyFloat height ->
  is_zero height = false ->
  (exists s,
      score_verhaeltnis_formula f = Ok (PyInt s)
      /\ descending_threshold_ladder (div (mul (of_Z 100) width) height) s)
  /\ score_verhaeltnis_formula (bbox (of_Z 1) (of_Z 1)) = Ok (PyInt 3)
  /\ div (mul (of_Z 100) (of_Z 1)) (of_Z 1) = of_Z 100
  /\ score_verhaeltnis_formula (bbox (of_Z 1) (of_Z 2)) = Ok (PyInt 0)
  /\ div (mul (of_Z 100) (of_Z 1)) (of_Z 2) = of_Z 50
  /\ score_verhaeltnis_formula (bbox (of_Z 1) (of_Z 10)) = Ok (PyInt (-3))
  /\ div (mul (of_Z 100) (of_Z 1)) (of_Z 10) = of_Z 10
  /\ score_verhaeltnis_formula (bbox (of_Z 0) (of_Z 1)) = Ok (PyInt (-3))
  /\ div (mul (of_Z 100) (of_Z 0)) (of_Z 1) = of_Z 0.
Proof.
  intros Hw Hh Hz. split; [|repeat split; vm_compute; reflexivity].
  unfold score_verhaeltnis_formula, qgs_mul, qgs_div. rewrite Hw, Hh.
  cbn [operand_of mbind result_bind to_double]. rewrite Hz.
  apply ratio_case_ladder.
Qed.

Lemma ratio_score_follows_ladder_witness :
  getitem (bbox (of_Z 3) (of_Z 4)) "width" = PyFloat (of_Z 3)
  /\ getitem (bbox (of_Z 3) (of_Z 4)) "height" = PyFloat (of_Z 4)
  /\ is_zero (of_Z 4) = false
  /\ exists s,
       score_verhaeltnis_formula (bbox (of_Z 3) (of_Z 4)) = Ok (PyInt s)
       /\ descending_threshold_ladder (div (mul (of_Z 100) (of_Z 3)) (of_Z 4)) s.
Proof.
  split; [reflexivity|]. split; [reflexivity|]. split; [reflexivity|].
  apply (ratio_score_follows_ladder (bbox (of_Z 3) (of_Z 4)) (of_Z 3) (of_Z 4));
    reflexivity.
Defined.

(** C6 (amended).  A box whose height is zero raises no error: the quotient
    is NULL, no threshold comparison is true, and the feature is given the
    score -3 of the [ELSE] branch. *)
Theorem zero_height_scores_minus_three (f : feature) (width height : operand) :
  operand_of (getitem f "width") = Ok width ->
  operand_of (getitem f "height") = Ok height ->
  is_zero (to_double height) = true ->
  score_verhaeltnis_formula f = Ok (PyInt (-3)).
Proof.
  intros Hw Hh Hz.
  unfold score_verhaeltnis_formula, qgs_mul, qgs_div. rewrite Hh, Hw.
  cbn [operand_of mbind result_bind to_double].
  destruct width as [|z|x], height as [|j|y];
    cbn [operand_of mbind result_bind to_double] in *;
    try discriminate; rewrite ?Hz; reflexivity.
Qed.

Lemma zero_height_scores_minus_three_witness :
  operand_of (getitem (bbox (of_Z 12) (of_Z 0)) "width") = Ok (RealOp (of_Z 12))
  /\ operand_of (getitem (bbox (of_Z 12) (of_Z 0)) "height") = Ok (RealOp (of_Z 0))
  /\ is_zero (to_double (RealOp (of_Z 0))) = true
  /\ score_verhaeltnis_formula (bbox (of_Z 12) (of_Z 0)) = Ok (PyInt (-3)).
Proof.
  split; [reflexivity|]. split; [reflexivity|]. split; [reflexivity|].
  apply (zero_height_scores_minus_three (bbox (of_Z 12) (of_Z 0))
           (RealOp (of_Z 12)) (RealOp (of_Z 0))); reflexivity.
Defined.

(** C6 as stated fails: the field calculator run on a box of width 12 and
    height 0 reports nothing and stores the score -3 for it. *)
Lemma zero_height_counterexample :
  fieldcalculator {| fields := ["width"; "height"]; features := [bbox (of_Z 12) (of_Z 0)] |}
                  "score_verhaeltnis" score_verhaeltnis_formula
  = Ok {| fields := ["width"; "height"; "score_verhaeltnis"];
          features := [<["score_verhaeltnis" := PyInt (-3)]> (bbox (of_Z 12) (of_Z 0))] |}.
Proof. vm_compute. reflexivity. Qed.

(** ** The composite score *)

(** X12.  When one of the two scores of a block is NULL and the other is a
    number or NULL, the final score of the block is NULL. *)
Lemma final_score_null (gc vc : float) (f : feature) (other : operand) :
  (getitem f "score_geb_sum_norm" = QNULL
   /\ operand_of (getitem f "score_verhaeltnis") = Ok other)
  \/ (operand_of (getitem f "score_geb_sum_norm") = Ok other
      /\ getitem f "score_verhaeltnis" = QNULL) ->
  final_score_formula gc vc f = Ok QNULL.
Proof.
  unfold final_score_formula, qgs_mul, qgs_add, qgs_round.
  intros [[-> ->] | [-> ->]]; destruct other; reflexivity.
Qed.

(** A feature with two integer scores. *)
Lemma final_score_on_integers (gc vc : float) (f : feature) (a b : Z) :
  getitem f "score_geb_sum_norm" = PyInt a ->
  getitem f "score_verhaeltnis" = PyInt b ->
  final_score_formula gc vc f
  = match round_half_away (add (mul gc (of_Z a)) (mul vc (of_Z b))) with
    | Some final_score => Ok (PyInt final_score)
    | None => Raise EvalError
    end.
Proof.
  intros Ha Hb. unfold final_score_formula, qgs_mul, qgs_add, qgs_round. rewrite Ha, Hb.
  reflexivity.
Qed.

Lemma in_percentages (w : Z) : 0 <= w <= 100 -> In w percentages.
Proof.
  intros Hw. unfold percentages. apply in_map_iff. exists (Z.to_nat w).
  split; [lia | apply in_seq; lia].
Qed.

Lemma in_score_range (x : Z) : -3 <= x <= 3 -> In x score_range.
Proof.
  intros Hx. unfold score_range. cbn [In].
  assert (x = -3 \/ x = -2 \/ x = -1 \/ x = 0 \/ x = 1 \/ x = 2 \/ x = 3) by lia.
  intuition auto.
Qed.

(** On the weights and scores that occur, the doubles of the two weights
    exist and the rounded binary64 sum is an integer nearest to the exact
    weighted sum. *)
Lemma weighted_sums_round_to_nearest (geb_weight a b : Z) :
  0 <= geb_weight <= 100 -> -3 <= a <= 3 -> -3 <= b <= 3 ->
  exists gc vc final_score,
    py_truediv geb_weight 100 = Ok gc
    /\ py_truediv (100 - geb_weight) 100 = Ok vc
    /\ round_half_away (add (mul gc (of_Z a)) (mul vc (of_Z b))) = Some final_score
    /\ Z.abs (100 * final_score - (geb_weight * a + (100 - geb_weight) * b)) <= 50.
Proof.
  intros Hw Ha Hb.
  assert (Hall : forallb (fun w =>
            match py_truediv w 100, py_truediv (100 - w) 100 with
            | inr gc, inr vc =>
                forallb (fun x => forallb (fun y =>
                  match round_half_away (add (mul gc (of_Z x)) (mul vc (of_Z y))) with
                  | Some z => Z.abs (100 * z - (w * x + (100 - w) * y)) <=? 50
                  | None => false
                  end) score_range) score_range
            | _, _ => false
            end) percentages = true)
    by (vm_compute; reflexivity).
  rewrite forallb_forall in Hall.
  specialize (Hall _ (in_percentages _ Hw)). cbv beta in Hall.
  destruct (py_truediv geb_weight 100) as [e|gc]; [discriminate|].
  destruct (py_truediv (100 - geb_weight) 100) as [e|vc]; [discriminate|].
  rewrite forallb_forall in Hall.
  specialize (Hall _ (in_score_range a Ha)). rewrite forallb_forall in Hall.
  specialize (Hall _ (in_score_range b Hb)). cbv beta in Hall.
  destruct (round_half_away (add (mul gc (of_Z a)) (mul vc (of_Z b)))) as [z|] eqn:Hr;
    [|discriminate].
  apply Z.leb_le in Hall.
  exists gc, vc, z. split; [reflexivity|]. split; [reflexivity|]. split; [exact Hr|].
  exact Hall.
Qed.

(** C7 (amended).  For weights between 0 and 100 that sum to 100 and a
    feature with the integer scores [a] and [b] between -3 and 3, the final
    score is [round(gc * a + vc * b)], where [gc] and [vc] are the doubles
    [geb_weight/100] and [verh_weight/100] and the products and the sum are
    binary64 operations; it is an integer nearest to the exact weighted sum
    [(geb_weight * a + verh_weight * b) / 100], at most one half away from
    it.  With the weights 80 and 20 and the scores 3 and -3 the binary64
    sum is 1.8000000000000003 and the final score is 2.  Where the exact sum
    is a half, the binary64 sum decides: with the weights 70 and 30 and the
    scores 3 and -2 it is 1.4999999999999996, below 1.5, and the final score
    is 1. *)
Theorem final_score_is_rounded_weighted_sum
    (geb_weight verh_weight a b : Z) (f : feature) :
  0 <= geb_weight <= 100 -> geb_weight + verh_weight = 100 ->
  -3 <= a <= 3 -> -3 <= b <= 3 ->
  getitem f "score_geb_sum_norm" = PyInt a ->
  getitem f "score_verhaeltnis" = PyInt b ->
  (exists gc vc final_score,
      py_truediv geb_weight 100 = Ok gc
      /\ py_truediv verh_weight 100 = Ok vc
      /\ round_half_away (add (mul gc (of_Z a)) (mul vc (of_Z b))) = Some final_score
      /\ final_score_formula gc vc f = Ok (PyInt final_score)
      /\ Z.abs (100 * final_score - (geb_weight * a + verh_weight * b)) <= 50)
  /\ py_truediv 80 100 = Ok (lit 8 10)
  /\ py_truediv 20 100 = Ok (lit 2 10)
  /\ (let sum := add (mul (lit 8 10) (of_Z 3)) (mul (lit 2 10) (of_Z (-3))) in
      sum = S754_finite false 8106479329266894 (-52)
      /\ ltb (lit 15 10) sum = true /\ ltb sum (lit 25 10) = true)
  /\ final_score_formula (lit 8 10) (lit 2 10) (scored_block (PyInt 3) (PyInt (-3)))
     = Ok (PyInt 2)
  /\ py_truediv 70 100 = Ok (lit 7 10)
  /\ py_truediv 30 100 = Ok (lit 3 10)
  /\ (let sum := add (mul (lit 7 10) (of_Z 3)) (mul (lit 3 10) (of_Z (-2))) in
      sum = S754_finite false 6755399441055742 (-52)
      /\ ltb (lit 5 10) sum = true /\ ltb sum (lit 15 10) = true)
  /\ final_score_formula (lit 7 10) (lit 3 10) (scored_block (PyInt 3) (PyInt (-2)))
     = Ok (PyInt 1).
Proof.
  intros Hw Hsum Ha Hb Hfa Hfb. split; [|repeat split; vm_compute; reflexivity].
  assert (verh_weight = 100 - geb_weight) as -> by lia.
  destruct (weighted_sums_round_to_nearest geb_weight a b Hw Ha Hb)
    as (gc & vc & final_score & Hgc & Hvc & Hround & Hnear).
  exists gc, vc, final_score. repeat split; try assumption.
  rewrite (final_score_on_integers gc vc f a b Hfa Hfb), Hround. reflexivity.
Qed.

Lemma final_score_is_rounded_weighted_sum_witness :
  0 <= 60 <= 100 /\ 60 + 40 = 100 /\ -3 <= 2 <= 3 /\ -3 <= -1 <= 3
  /\ getitem (scored_block (PyInt 2) (PyInt (-1))) "score_geb_sum_norm" = PyInt 2
  /\ getitem (scored_block (PyInt 2) (PyInt (-1))) "score_verhaeltnis" = PyInt (-1)
  /\ exists gc vc final_score,
       py_truediv 60 100 = Ok gc
       /\ py_truediv 40 100 = Ok vc
       /\ round_half_away (add (mul gc (of_Z 2)) (mul vc (of_Z (-1)))) = Some final_score
       /\ final_score_formula gc vc (scored_block (PyInt 2) (PyInt (-1)))
          = Ok (PyInt final_score)
       /\ Z.abs (100 * final_score - (60 * 2 + 40 * -1)) <= 50.
Proof.
  split; [lia|]. split; [reflexivity|]. split; [lia|]. split; [lia|].
  split; [reflexivity|]. split; [reflexivity|].
  apply (final_score_is_rounded_weighted_sum 60 40 2 (-1)
           (scored_block (PyInt 2) (PyInt (-1)))); try lia; reflexivity.
Defined.

(** C7 as stated fails: with the weights 70 and 30 and the scores 3 and -2
    the exact weighted sum is 1.5, which rounds to 2 half away from zero
    and half to even alike; the formula of the program yields 1. *)
Lemma exact_rounding_counterexample :
  py_truediv 70 100 = Ok (lit 7 10)
  /\ py_truediv 30 100 = Ok (lit 3 10)
  /\ final_score_formula (lit 7 10) (lit 3 10) (scored_block (PyInt 3) (PyInt (-2)))
     = Ok (PyInt 1)
  /\ 70 * 3 + 30 * -2 = 150
  /\ exact_final_score round_half_away_from_zero 70 30 3 (-2) = 2
  /\ exact_final_score round_half_to_even 70 30 3 (-2) = 2.
Proof. repeat split; vm_compute; reflexivity. Qed.

(** In binary64 the weights 70 and 30 turn the scores 3 and -2 into
    1.4999999999999996, which rounds to 1; in exact arithmetic
    [0.7 * 3 - 0.3 * 2] is 1.5. *)
Lemma final_score_70_30 :
  final_score_formula (lit 7 10) (lit 3 10) (scored_block (PyInt 3) (PyInt (-2)))
  = Ok (PyInt 1)
  /\ add (mul (lit 7 10) (of_Z 3)) (mul (lit 3 10) (of_Z (-2)))
     = S754_finite false 6755399441055742 (-52).
Proof. repeat split; vm_compute; reflexivity. Qed.

(** On the weights and scores that occur, the final score exists and lies
    between -3 and 3. *)
Lemma final_score_of_in_range (geb_weight a b : Z) :
  0 <= geb_weight <= 100 -> -3 <= a <= 3 -> -3 <= b <= 3 ->
  exists final_score,
    final_score_of geb_weight a b = Some final_score /\ -3 <= final_score <= 3.
Proof.
  intros Hw Ha Hb.
  assert (Hall : forallb (fun w => forallb (fun x => forallb (fun y =>
            match final_score_of w x y with
            | Some z => (-3 <=? z) && (z <=? 3)
            | None => false
            end) score_range) score_range) percentages = true)
    by (vm_compute; reflexivity).
  rewrite forallb_forall in Hall.
  assert (Hin : In geb_weight percentages).
  { unfold percentages. apply in_map_iff. exists (Z.to_nat geb_weight).
    split; [lia | apply in_seq; lia]. }
  specialize (Hall _ Hin). rewrite forallb_forall in Hall.
  assert (Hscore : forall x, -3 <= x <= 3 -> In x score_range).
  { intros x Hx. unfold score_range. cbn [In].
    assert (x = -3 \/ x = -2 \/ x = -1 \/ x = 0 \/ x = 1 \/ x = 2 \/ x = 3) by lia.
    intuition auto. }
  specialize (Hall _ (Hscore a Ha)). rewrite forallb_forall in Hall.
  specialize (Hall _ (Hscore b Hb)).
  destruct (final_score_of geb_weight a b) as [z|]; [|discriminate].
  exists z. split; [reflexivity | lia].
Qed.

(** The field calculator stores, for every feature, the value of the
    formula on that feature. *)
Lemma fieldcalculator_features (layer layer' : QgsVectorLayer) (field_name : string)
    (formula : feature -> result attr) :
  fieldcalculator layer field_name formula = Ok layer' ->
  Forall2 (fun f f' => exists v, formula f = Ok v /\ f' = <[field_name := v]> f)
          (features layer) (features layer').
Proof.
  unfold fieldcalculator.
  destruct (calculate_features field_name formula (features layer)) as [e|fs] eqn:E;
    [discriminate|].
  cbn [mbind result_bind]. intros [= <-]. cbn [features].
  revert fs E. induction (features layer) as [|f l IH]; intros fs E; cbn [calculate_features] in E.
  - injection E as <-. constructor.
  - destruct (formula f) as [e|v] eqn:Ef; [discriminate|]. cbn [mbind result_bind] in E.
    destruct (calculate_features field_name formula l) as [e|fs'] eqn:El; [discriminate|].
    cbn [mbind result_bind] in E. injection E as <-.
    constructor; [exists v; auto | apply IH; reflexivity].
Qed.

(** ** The weights *)

Section Weights.

Variable float_of_str : string -> option float.
Variable qgis : Toolbox.

Lemma unequal_weights_raise (geb_weight verh_weight : Z) (d : disk) :
  geb_weight + verh_weight <> 100 ->
  phase_4_quantilskala float_of_str qgis geb_weight verh_weight d
  = (Raise (Phase4Failure
              (if temp_path_exists d && final_output_dir_exists d
               then WeightsNot100 else DirectoriesMissing)), d).
Proof.
  intros Hsum.
  assert (Hneq : (geb_weight + verh_weight =? 100) = false) by (apply Z.eqb_neq; assumption).
  unfold phase_4_quantilskala, try_except, phase_4_body.
  run_M.
  destruct (temp_path_exists d && final_output_dir_exists d); cbn [negb];
    rewrite ?Hneq; reflexivity.
Qed.

(** C8 (amended).  Phase 4 fails, with nothing written, whenever the two
    weights do not sum to exactly 100; when both directories exist the
    failure is the one about the weights.  The weights 60 and 30 are
    rejected.  (A negative weight alone is not a reason for a failure.) *)
Theorem weights_must_sum_to_100 (geb_weight verh_weight : Z) (d : disk) :
  geb_weight + verh_weight <> 100 ->
  (exists e, phase_4_quantilskala float_of_str qgis geb_weight verh_weight d
             = (Raise (Phase4Failure e), d))
  /\ (temp_path_exists d = true -> final_output_dir_exists d = true ->
      phase_4_quantilskala float_of_str qgis geb_weight verh_weight d
      = (Raise (Phase4Failure WeightsNot100), d))
  /\ (temp_path_exists d = true -> final_output_dir_exists d = true ->
      phase_4_quantilskala float_of_str qgis 60 30 d
      = (Raise (Phase4Failure WeightsNot100), d)).
Proof.
  intros Hsum. split; [|split].
  - eexists. apply unequal_weights_raise. assumption.
  - intros Ht Hf. rewrite unequal_weights_raise by assumption. rewrite Ht, Hf. reflexivity.
  - intros Ht Hf. rewrite unequal_weights_raise by lia. rewrite Ht, Hf. reflexivity.
Qed.

End Weights.

Lemma weights_must_sum_to_100_witness :
  60 + 30 <> 100
  /\ phase_4_quantilskala no_text example_toolbox 60 30 example_disk
     = (Raise (Phase4Failure WeightsNot100), example_disk).
Proof.
  split; [discriminate|].
  apply (weights_must_sum_to_100 no_text example_toolbox 60 30 example_disk).
  - discriminate.
  - reflexivity.
  - reflexivity.
Defined.

(** C8 as stated fails: the weights 120 and -20 sum to 100, phase 4 accepts
    them, runs to its end and writes the final scores. *)
Lemma negative_weight_counterexample :
  let '(outcome, d) := phase_4_quantilskala no_text example_toolbox 120 (-20) example_disk in
  outcome = Ok tt
  /\ gpkg d final_path
     = Some {| fields := ["fid"; "score_gebaeude_sum"; "score_geb_sum_norm";
                          "score_verhaeltnis"; "final_score"];
               features :=
                 [ {[ "fid" := PyInt 1; "score_gebaeude_sum" := PyFloat (of_Z 4);
                      "score_geb_sum_norm" := PyInt 0; "score_verhaeltnis" := PyInt 2;
                      "final_score" := PyInt 0 ]};
                   {[ "fid" := PyInt 2; "score_gebaeude_sum" := QNULL;
                      "score_verhaeltnis" := PyInt 2; "final_score" := QNULL ]};
                   {[ "fid" := PyInt 3; "score_gebaeude_sum" := PyFloat (of_Z (-2));
                      "score_geb_sum_norm" := PyInt (-3); "score_verhaeltnis" := PyInt 2;
                      "final_score" := PyInt (-4) ]} ] |}.
Proof. vm_compute. split; reflexivity. Qed.

(* ===================================================================== *)
(** * Part III: further properties *)
(* ===================================================================== *)

(** ** More about the quantile classifier *)

Section ClassifierFrame.

Variable float_of_str : string -> option float.

(** X1.  When the layer has no field called [field_name], the classifier
    fails with the report that the field does not exist and leaves the
    layer as it was. *)
Theorem missing_field_is_an_error (layer : QgsVectorLayer) (field_name output_field : string) :
  contains (fields layer) field_name = false ->
  calculate_quantile_score float_of_str field_name output_field layer
  = (Raise (QuantileFailure (FieldNotFound field_name)), layer).
Proof.
  intros H. unfold calculate_quantile_score, try_except, quantile_body. run_M.
  rewrite H. reflexivity.
Qed.

Lemma score_features_frame (q : quantiles) (field_name output_field : string)
    (fs scored : list feature) :
  score_features float_of_str q field_name output_field fs = Ok scored ->
  Forall2 (agree_off output_field) fs scored.
Proof.
  revert scored. induction fs as [|f fs IH]; intros scored H; cbn [score_features] in H.
  - injection H as <-. constructor.
  - destruct (score_feature float_of_str q field_name output_field f) as [e|f'] eqn:Ef;
      [discriminate|].
    cbn [mbind result_bind] in H.
    destruct (score_features float_of_str q field_name output_field fs) as [e|fs'];
      [discriminate|].
    cbn [mbind result_bind] in H. injection H as <-.
    constructor; [|apply IH; reflexivity].
    unfold score_feature in Ef.
    destruct (has_value (getitem f field_name)).
    + destruct (py_float float_of_str (getitem f field_name)) as [e|x].
      * destruct e; try discriminate; injection Ef as <-; intros other _; reflexivity.
      * injection Ef as <-. intros other Hne. apply lookup_insert_ne. congruence.
    + injection Ef as <-. intros other _. reflexivity.
Qed.

Lemma Forall2_agree_refl (name : string) (fs : list feature) :
  Forall2 (agree_off name) fs fs.
Proof. induction fs; constructor; [intros ? ?; reflexivity | assumption]. Qed.

(** X2.  Whatever the outcome of the classifier, every attribute other
    than [output_field] of every feature is what it was, no feature is
    added or dropped, and the list of fields is either unchanged or
    extended at its end by [output_field], which then was not a field
    before. *)
Theorem only_the_output_field_is_written (layer : QgsVectorLayer)
    (field_name output_field : string) :
  let layer' := (calculate_quantile_score float_of_str field_name output_field layer).2 in
  Forall2 (agree_off output_field) (features layer) (features layer')
  /\ (fields layer' = fields layer
      \/ (contains (fields layer) output_field = false
          /\ fields layer' = fields layer ++ [output_field])).
Proof.
  cbv zeta.
  assert (Hadd : features (add_output_field output_field layer) = features layer
                 /\ (fields (add_output_field output_field layer) = fields layer
                     \/ (contains (fields layer) output_field = false
                         /\ fields (add_output_field output_field layer)
                            = fields layer ++ [output_field]))).
  { unfold add_output_field. destruct (contains (fields layer) output_field); cbn; auto. }
  destruct Hadd as [Hfeat Hfields].
  unfold calculate_quantile_score, try_except, quantile_body. run_M.
  destruct (contains (fields layer) field_name); cbn [negb snd];
    [|split; [apply Forall2_agree_refl | auto]].
  destruct (collect_values float_of_str field_name (features layer)) as [e|[|v values]];
    cbn [snd]; try (split; [apply Forall2_agree_refl | auto]).
  destruct (compute_quantiles (sort (v :: values))) as [e|q];
    cbn [snd]; try (split; [apply Forall2_agree_refl | auto]).
  destruct (score_features float_of_str q field_name output_field
              (features (add_output_field output_field layer))) as [e|scored] eqn:Es;
    cbn [snd features fields].
  - rewrite Hfeat. split; [apply Forall2_agree_refl | exact Hfields].
  - rewrite Hfeat in Es. split; [eapply score_features_frame; eassumption | exact Hfields].
Qed.
End ClassifierFrame.

Lemma missing_field_is_an_error_witness :
  contains (fields three_blocks) "hoehe" = false
  /\ calculate_quantile_score no_text "hoehe" "score" three_blocks
     = (Raise (QuantileFailure (FieldNotFound "hoehe")), three_blocks).
Proof.
  split; [reflexivity|].
  apply (missing_field_is_an_error no_text three_blocks "hoehe" "score"). reflexivity.
Defined.

Lemma contains_app_l (l l' : list string) (x : string) :
  contains l x = true -> contains (l ++ l') x = true.
Proof. unfold contains. rewrite existsb_app. intros ->. reflexivity. Qed.

Lemma contains_app_r (l : list string) (x : string) : contains (l ++ [x]) x = true.
Proof.
  unfold contains. rewrite existsb_app. cbn. rewrite String.eqb_refl.
  destruct (existsb (String.eqb x) l); reflexivity.
Qed.

Lemma add_output_field_contains (output_field : string) (layer : QgsVectorLayer) :
  contains (fields (add_output_field output_field layer)) output_field = true.
Proof.
  unfold add_output_field. destruct (contains (fields layer) output_field) eqn:E.
  - exact E.
  - cbn [fields]. apply contains_app_r.
Qed.

Lemma add_output_field_keeps (output_field name : string) (layer : QgsVectorLayer) :
  contains (fields layer) name = true ->
  contains (fields (add_output_field output_field layer)) name = true.
Proof.
  intros H. unfold add_output_field. destruct (contains (fields layer) output_field).
  - exact H.
  - cbn [fields]. apply contains_app_l. exact H.
Qed.

Section ClassifierTwice.

Variable float_of_str : string -> option float.

Lemma calculate_quantile_score_inv (layer layer1 : QgsVectorLayer)
    (field_name output_field : string) :
  calculate_quantile_score float_of_str field_name output_field layer = (Ok tt, layer1) ->
  contains (fields layer) field_name = true
  /\ exists values q scored,
       collect_values float_of_str field_name (features layer) = Ok values
       /\ values <> []
       /\ compute_quantiles (sort values) = Ok q
       /\ score_features float_of_str q field_name output_field (features layer) = Ok scored
       /\ layer1 = {| fields := fields (add_output_field output_field layer);
                      features := scored |}.
Proof.
  assert (Hfeat : features (add_output_field output_field layer) = features layer).
  { unfold add_output_field. destruct (contains (fields layer) output_field); reflexivity. }
  unfold calculate_quantile_score, try_except, quantile_body. run_M.
  destruct (contains (fields layer) field_name); cbn [negb]; [|discriminate].
  destruct (collect_values float_of_str field_name (features layer))
    as [e|[|v values]] eqn:Ev; try discriminate.
  destruct (compute_quantiles (sort (v :: values))) as [e|q] eqn:Eq; [discriminate|].
  rewrite Hfeat.
  destruct (score_features float_of_str q field_name output_field (features layer))
    as [e|scored] eqn:Es; [discriminate|].
  intros H. injection H as <-. split; [reflexivity|].
  exists (v :: values), q, scored.
  split; [reflexivity|]. split; [discriminate|]. split; [exact Eq|].
  split; [exact Es | reflexivity].
Qed.

Lemma collect_values_agree (field_name output_field : string) (fs fs' : list feature) :
  field_name <> output_field ->
  Forall2 (agree_off output_field) fs fs' ->
  collect_values float_of_str field_name fs' = collect_values float_of_str field_name fs.
Proof.
  intros Hne H. induction H as [|f f' fs fs' Hf _ IH]; [reflexivity|].
  cbn [collect_values]. unfold getitem. rewrite (Hf field_name Hne), IH. reflexivity.
Qed.

Lemma score_features_twice (q : quantiles) (field_name output_field : string)
    (fs scored : list feature) :
  field_name <> output_field ->
  score_features float_of_str q field_name output_field fs = Ok scored ->
  score_features float_of_str q field_name output_field scored = Ok scored.
Proof.
  intros Hne. revert scored. induction fs as [|f fs IH]; intros scored H;
    cbn [score_features] in H.
  - injection H as <-. reflexivity.
  - destruct (score_feature float_of_str q field_name output_field f) as [e|f'] eqn:Ef;
      [discriminate|].
    cbn [mbind result_bind] in H.
    destruct (score_features float_of_str q field_name output_field fs) as [e|fs'];
      [discriminate|].
    cbn [mbind result_bind] in H. injection H as <-.
    cbn [score_features]. rewrite (IH fs' eq_refl).
    assert (Hf' : score_feature float_of_str q field_name output_field f' = Ok f').
    { unfold score_feature in *.
      destruct (has_value (getitem f field_name)) eqn:Ehv.
      - destruct (py_float float_of_str (getitem f field_name)) as [e|x] eqn:Epf.
        + assert (f' = f) as -> by (destruct e; try discriminate; congruence).
          rewrite Ehv, Epf. exact Ef.
        + injection Ef as <-.
          assert (Hget : getitem (<[output_field:=PyInt (quantile_score q x)]> f) field_name
                         = getitem f field_name).
          { unfold getitem. f_equal. apply lookup_insert_ne. congruence. }
          rewrite Hget, Ehv, Epf. f_equal. apply insert_insert_eq.
      - injection Ef as <-. rewrite Ehv. reflexivity. }
    rewrite Hf'. reflexivity.
Qed.

(** X3.  When the output field is not the field that is classified, a
    second run of the classifier on the layer that a successful run has
    left succeeds again and changes nothing. *)
Theorem calculate_quantile_score_idempotent (layer layer1 : QgsVectorLayer)
    (field_name output_field : string) :
  field_name <> output_field ->
  calculate_quantile_score float_of_str field_name output_field layer = (Ok tt, layer1) ->
  calculate_quantile_score float_of_str field_name output_field layer1 = (Ok tt, layer1).
Proof.
  intros Hne Hrun.
  destruct (calculate_quantile_score_inv _ _ _ _ Hrun)
    as (Hfield & values & q & scored & Hvalues & Hnonempty & Hq & Hscored & ->).
  pose proof (score_features_frame float_of_str _ _ _ _ _ Hscored) as Hframe.
  set (layer1 := {| fields := fields (add_output_field output_field layer);
                    features := scored |}).
  rewrite (calculate_quantile_score_runs float_of_str layer1 field_name output_field
             values q scored).
  - f_equal. unfold layer1, add_output_field at 1. cbn [fields features].
    rewrite add_output_field_contains. reflexivity.
  - apply add_output_field_keeps. exact Hfield.
  - unfold layer1. cbn [features].
    rewrite (collect_values_agree _ _ _ _ Hne Hframe). exact Hvalues.
  - exact Hnonempty.
  - exact Hq.
  - unfold layer1. cbn [features]. eapply score_features_twice; eassumption.
Qed.

End ClassifierTwice.

Lemma calculate_quantile_score_idempotent_witness :
  exists layer1,
    "score_gebaeude_sum" <> "score_geb_sum_norm"
    /\ calculate_quantile_score no_text "score_gebaeude_sum" "score_geb_sum_norm" three_blocks
       = (Ok tt, layer1)
    /\ calculate_quantile_score no_text "score_gebaeude_sum" "score_geb_sum_norm" layer1
       = (Ok tt, layer1).
Proof.
  eexists. split; [discriminate|].
  assert (H : calculate_quantile_score no_text "score_gebaeude_sum" "score_geb_sum_norm"
                three_blocks
              = (Ok tt, (calculate_quantile_score no_text "score_gebaeude_sum"
                           "score_geb_sum_norm" three_blocks).2))
    by (vm_compute; reflexivity).
  split; [exact H|].
  apply (calculate_quantile_score_idempotent no_text three_blocks _
           "score_gebaeude_sum" "score_geb_sum_norm"); [discriminate | exact H].
Defined.

Lemma binary_round_aux_lower (s : bool) (m m' : positive) (e e' : Z) :
  - 1074 <= Zpos (digits2_pos m) + e - 53 ->
  e <= 970 -> Zpos (digits2_pos m) + e <= 1023 ->
  binary_round_aux prec emax s (Zpos m) e loc_Exact = S754_finite s m' e' ->
  e <= e' /\ Zpos m * (2 ^ 52 - 1) <= Zpos m' * 2 ^ (e' - e) * 2 ^ 52.
Proof.
  intros Hlo He Hhi.
  pose proof (digits2_pos_bounds m) as [Dlo Dhi].
  set (d := Zpos (digits2_pos m)) in *.
  unfold binary_round_aux, shr_fexp.
  replace (Zdigits2 (Zpos m)) with d by reflexivity.
  rewrite fexp_normal by (unfold emax, prec; lia).
  replace (d + e - prec - e) with (d - 53) by (unfold prec; lia).
  cbn [shr_record_of_loc].
  destruct (d - 53) as [|k|k] eqn:Hk.
  - cbn [shr shr_m loc_of_shr_record round_nearest_even].
    replace (Zdigits2 (Zpos m)) with d by reflexivity.
    rewrite fexp_normal by (unfold emax, prec; lia).
    replace (d + e - prec - e) with 0 by (unfold prec; lia).
    cbn [shr shr_m].
    assert (Hle : (e <=? emax - prec) = true) by (apply Z.leb_le; unfold emax, prec; lia).
    rewrite Hle. intros [= <- <-]. rewrite Z.sub_diag. lia.
  - cbn [shr].
    set (r1 := SpecFloat.iter_pos shr_1 k _).
    assert (Hm1 : shr_m r1 = Zpos m / 2 ^ Zpos k) by (apply iter_shr_m; cbn; lia).
    pose proof (round_nearest_even_bounds (shr_m r1) (loc_of_shr_record r1)) as Hrne.
    set (m2 := round_nearest_even (shr_m r1) (loc_of_shr_record r1)) in *.
    assert (Hpk : 0 < 2 ^ Zpos k) by (apply Z.pow_pos_nonneg; lia).
    assert (Hsplit : 2 ^ d = 2 ^ 53 * 2 ^ Zpos k)
      by (rewrite <- Z.pow_add_r by lia; f_equal; lia).
    assert (Hsplit' : 2 ^ (d - 1) = 2 ^ 52 * 2 ^ Zpos k)
      by (rewrite <- Z.pow_add_r by lia; f_equal; lia).
    assert (Hm1lo : 2 ^ 52 <= shr_m r1).
    { rewrite Hm1. apply Z.div_le_lower_bound; lia. }
    assert (Hm1hi : shr_m r1 < 2 ^ 53).
    { rewrite Hm1. apply Z.div_lt_upper_bound; lia. }
    assert (Hmul : Zpos m < (shr_m r1 + 1) * 2 ^ Zpos k).
    { rewrite Hm1. pose proof (Z.mod_pos_bound (Zpos m) (2 ^ Zpos k) Hpk).
      pose proof (Z.div_mod (Zpos m) (2 ^ Zpos k)). lia. }
    destruct (Z.eq_dec m2 (2 ^ 53)) as [Hcarry | Hnocarry].
    + rewrite Hcarry.
      replace (Zdigits2 (2 ^ 53)) with 54 by reflexivity.
      rewrite fexp_normal by (unfold emax, prec; lia).
      replace (54 + (e + Zpos k) - prec - (e + Zpos k)) with 1 by (unfold prec; lia).
      cbn [shr SpecFloat.iter_pos shr_record_of_loc].
      change (shr_m (shr_1 {| shr_m := 2 ^ 53; shr_r := false; shr_s := false |}))
        with (Zpos (2 ^ 52)%positive).
      cbn iota beta.
      assert (Hle : (e + Zpos k + 1 <=? emax - prec) = true)
        by (apply Z.leb_le; unfold emax, prec; lia).
      rewrite Hle. intros [= <- <-]. split; [lia|].
      replace (e + Zpos k + 1 - e) with (1 + Zpos k) by lia.
      rewrite Z.pow_add_r by lia.
      change (Zpos (2 ^ 52)%positive) with (2 ^ 52). change (2 ^ 1) with 2.
      nia.
    + assert (Hd2 : Zdigits2 m2 = 53) by (apply digits2_unique; lia).
      rewrite Hd2, fexp_normal by (unfold emax, prec; lia).
      replace (53 + (e + Zpos k) - prec - (e + Zpos k)) with 0 by (unfold prec; lia).
      cbn [shr shr_record_of_loc shr_m].
      clearbody m2. destruct m2 as [|q|q]; try lia.
      assert (Hle : (e + Zpos k <=? emax - prec) = true)
        by (apply Z.leb_le; unfold emax, prec; lia).
      rewrite Hle. intros [= <- <-]. split; [lia|].
      replace (e + Zpos k - e) with (Zpos k) by lia. nia.
  - cbn [shr shr_m loc_of_shr_record round_nearest_even].
    replace (Zdigits2 (Zpos m)) with d by reflexivity.
    rewrite fexp_normal by (unfold emax, prec; lia).
    replace (d + e - prec - e) with (Zneg k) by (unfold prec; lia).
    cbn [shr shr_m].
    assert (Hle : (e <=? emax - prec) = true) by (apply Z.leb_le; unfold emax, prec; lia).
    rewrite Hle. intros [= <- <-]. rewrite Z.sub_diag. lia.
Qed.

(** The truncated product of [float(n)] and a constant, with both bounds. *)
Lemma int_mul_value (n : Z) (mc : positive) (ec : Z) :
  0 < n < 2 ^ 63 ->
  12 <= - ec <= 60 ->
  Zpos mc < 2 ^ 53 ->
  exists mn en V,
    of_Z n = S754_finite false mn en
    /\ -52 <= en <= 11
    /\ trunc (mul (of_Z n) (S754_finite false mc ec)) = Some (V / 2 ^ (- ec - en))
    /\ Zpos mn * Zpos mc * (2 ^ 52 - 1) <= V * 2 ^ 52 <= Zpos mn * Zpos mc * (2 ^ 52 + 1).
Proof.
  intros Hn Hec Hmc.
  destruct (of_Z_pos n Hn) as (mn & en & Hof & Hen & Hmn & _).
  exists mn, en. rewrite Hof.
  unfold mul, SFmul. cbn [xorb].
  assert (Hprod : Zpos (mn * mc) < 2 ^ 106).
  { rewrite Pos2Z.inj_mul. change (2 ^ 106) with (2 ^ 53 * 2 ^ 53). nia. }
  pose proof (digits2_pos_le _ _ Hprod) as Hdp.
  destruct (binary_round_aux_bound false (mn * mc) (en + ec))
    as (m' & e' & Heq & He' & _ & Hub & _); try lia.
  destruct (binary_round_aux_lower false (mn * mc) m' (en + ec) e') as [_ Hlb];
    try lia; [exact Heq|].
  rewrite Heq. rewrite Pos2Z.inj_mul in Hub, Hlb.
  exists (Zpos m' * 2 ^ (e' - (en + ec))).
  split; [reflexivity|]. split; [assumption|]. split; [|lia].
  cbn [trunc cond_Zopp]. f_equal.
  replace (e' - (en + ec)) with (e' + (- ec - en)) by lia.
  destruct (0 <=? e') eqn:E.
  - apply Z.leb_le in E. rewrite Z.pow_add_r by lia.
    rewrite Z.mul_assoc, Z.div_mul; [reflexivity|].
    apply Z.pow_nonzero; lia.
  - apply Z.leb_gt in E.
    replace (- ec - en) with ((e' + (- ec - en)) + (- e')) at 2 by lia.
    rewrite (Z.pow_add_r 2 (e' + (- ec - en)) (- e')) by lia.
    rewrite (Z.mul_comm (Zpos m')).
    rewrite Z.div_mul_cancel_l; [reflexivity | |]; apply Z.pow_nonzero; lia.
Qed.

Lemma quantile_index_value (n : Z) (mc : positive) (ec : Z) (i : Z) :
  0 < n <= PY_SSIZE_T_MAX ->
  12 <= - ec <= 60 ->
  Zpos mc < 2 ^ 53 ->
  quantile_index n (S754_finite false mc ec) = Ok i ->
  exists mn en V,
    of_Z n = S754_finite false mn en
    /\ -52 <= en <= 11
    /\ i = V / 2 ^ (- ec - en)
    /\ Zpos mn * Zpos mc * (2 ^ 52 - 1) <= V * 2 ^ 52 <= Zpos mn * Zpos mc * (2 ^ 52 + 1).
Proof.
  intros Hn Hec Hmc Hi.
  assert (Hn' : 0 < n < 2 ^ 63) by (unfold PY_SSIZE_T_MAX in Hn; lia).
  destruct (int_mul_value n mc ec Hn' Hec Hmc) as (mn & en & V & Hof & Hen & Ht & HV).
  exists mn, en, V. split; [assumption|]. split; [assumption|]. split; [|assumption].
  unfold quantile_index, py_mul_int_float, py_float_of_int in Hi.
  rewrite Hof in Hi. cbn [is_infinite mbind result_bind] in Hi. rewrite <- Hof in Hi.
  unfold py_int in Hi. rewrite Ht in Hi. congruence.
Qed.

Lemma quantile_index_mono (n : Z) (mc mc' : positive) (ec ec' : Z) (i i' : Z) :
  0 < n <= PY_SSIZE_T_MAX ->
  12 <= - ec <= 60 -> Zpos mc < 2 ^ 53 ->
  12 <= - ec' <= 60 -> Zpos mc' < 2 ^ 53 ->
  Zpos mc * 2 ^ (- ec') * (2 ^ 52 + 1) <= Zpos mc' * 2 ^ (- ec) * (2 ^ 52 - 1) ->
  quantile_index n (S754_finite false mc ec) = Ok i ->
  quantile_index n (S754_finite false mc' ec') = Ok i' ->
  i <= i'.
Proof.
  intros Hn Hec Hmc Hec' Hmc' Hc Hi Hi'.
  destruct (quantile_index_value n mc ec i Hn Hec Hmc Hi)
    as (mn & en & V & Hof & Hen & -> & HV).
  destruct (quantile_index_value n mc' ec' i' Hn Hec' Hmc' Hi')
    as (mn' & en' & V' & Hof' & _ & -> & HV').
  rewrite Hof in Hof'. injection Hof' as <- <-.
  assert (HS : 0 < 2 ^ (- ec - en)) by (apply Z.pow_pos_nonneg; lia).
  assert (HS' : 0 < 2 ^ (- ec' - en)) by (apply Z.pow_pos_nonneg; lia).
  assert (HA : 0 < 2 ^ (- ec)) by (apply Z.pow_pos_nonneg; lia).
  assert (HA' : 0 < 2 ^ (- ec')) by (apply Z.pow_pos_nonneg; lia).
  assert (Hpow : 2 ^ (- ec) * 2 ^ (- ec' - en) = 2 ^ (- ec') * 2 ^ (- ec - en)).
  { rewrite <- !Z.pow_add_r by lia. f_equal. lia. }
  pose proof (Z.mul_div_le V (2 ^ (- ec - en)) HS) as Hfloor.
  apply Z.div_le_lower_bound; [assumption|].
  set (q := V / 2 ^ (- ec - en)) in *.
  set (A := 2 ^ (- ec)) in *. set (A' := 2 ^ (- ec')) in *.
  set (S := 2 ^ (- ec - en)) in *. set (S' := 2 ^ (- ec' - en)) in *.
  set (K := 2 ^ 52) in *. assert (HK : 1 < K) by (subst K; lia).
  assert (HVV : V * A' <= V' * A).
  { assert (H1 : V * K * A' <= Zpos mn * Zpos mc * (K + 1) * A') by nia.
    assert (H2 : Zpos mn * (Zpos mc * A' * (K + 1)) <= Zpos mn * (Zpos mc' * A * (K - 1)))
      by (apply Z.mul_le_mono_nonneg_l; lia).
    assert (H3 : Zpos mn * Zpos mc' * (K - 1) * A <= V' * K * A) by nia.
    clearbody A A' S S' K q. nia. }
  assert (Hq : 0 <= q \/ q < 0) by lia.
  clearbody A A' S S' K q.
  destruct (Z.le_gt_cases (S' * q) V') as [|Hgt]; [assumption | exfalso].
  assert (H1 : S * q * A' <= V' * A) by nia.
  assert (H2 : S * q * A' * S' <= V' * A * S') by (apply Z.mul_le_mono_nonneg_r; lia).
  assert (H3 : V' * (A' * S) < (S' * q) * (A' * S)) by (apply Z.mul_lt_mono_pos_r; nia).
  nia.
Qed.

(** The six breakpoint indices increase with the constant. *)
Lemma quantile_indices_increase (n i1 i2 i3 i4 i5 i6 : Z) :
  0 < n <= PY_SSIZE_T_MAX ->
  quantile_index n c1 = Ok i1 -> quantile_index n c2 = Ok i2 ->
  quantile_index n c3 = Ok i3 -> quantile_index n c4 = Ok i4 ->
  quantile_index n c5 = Ok i5 -> quantile_index n c6 = Ok i6 ->
  i1 <= i2 /\ i2 <= i3 /\ i3 <= i4 /\ i4 <= i5 /\ i5 <= i6.
Proof.
  rewrite c1_bits, c2_bits, c3_bits, c4_bits, c5_bits, c6_bits.
  intros Hn H1 H2 H3 H4 H5 H6.
  repeat split;
    (eapply (quantile_index_mono n); [exact Hn | | | | | | eassumption | eassumption];
     [lia | reflexivity | lia | reflexivity | vm_compute; discriminate]).
Qed.

Lemma sorted_lookup_le (l : list float) (i j : nat) (x y : float) :
  StronglySorted (fun a b => leb a b = true) l ->
  Forall (fun y => is_nan y = false) l ->
  (i <= j)%nat -> l !! i = Some x -> l !! j = Some y -> leb x y = true.
Proof.
  intros Hs. revert i j. induction Hs as [|a l Hs IH Ha]; intros i j Hn Hij Hi Hj.
  - discriminate.
  - apply Forall_cons in Hn as [Hna Hn].
    destruct i as [|i], j as [|j]; cbn in Hi, Hj; try lia.
    + injection Hi as <-. injection Hj as <-. apply leb_refl. assumption.
    + injection Hi as <-. rewrite Forall_forall in Ha. apply Ha.
      eapply list_elem_of_lookup_2. eassumption.
    + apply (IH i j); try assumption. lia.
Qed.

Lemma breakpoint_in_sample (values : list float) (c v : float) :
  breakpoint_at (sort values) c v -> In v values.
Proof.
  intros (i & _ & _ & Hv).
  apply list_elem_of_In. rewrite <- (sort_perm values).
  eapply list_elem_of_lookup_2. eassumption.
Qed.

Lemma sample_quantiles (values : list float) :
  values <> [] -> Z.of_nat (length values) <= PY_SSIZE_T_MAX ->
  exists q,
    compute_quantiles (sort values) = Ok q
    /\ breakpoint_at (sort values) c1 (q1 q) /\ breakpoint_at (sort values) c2 (q2 q)
    /\ breakpoint_at (sort values) c3 (q3 q) /\ breakpoint_at (sort values) c4 (q4 q)
    /\ breakpoint_at (sort values) c5 (q5 q) /\ breakpoint_at (sort values) c6 (q6 q).
Proof.
  intros Hne Hmax. apply compute_quantiles_ok.
  - intros E. apply Hne. apply (f_equal (@length float)) in E.
    rewrite length_sort in E. destruct values; [reflexivity | discriminate].
  - rewrite length_sort. assumption.
Qed.

Lemma breakpoints_chain (values : list float) (q : quantiles) :
  values <> [] -> Z.of_nat (length values) <= PY_SSIZE_T_MAX ->
  Forall (fun y => is_nan y = false) values ->
  breakpoint_at (sort values) c1 (q1 q) -> breakpoint_at (sort values) c2 (q2 q) ->
  breakpoint_at (sort values) c3 (q3 q) -> breakpoint_at (sort values) c4 (q4 q) ->
  breakpoint_at (sort values) c5 (q5 q) -> breakpoint_at (sort values) c6 (q6 q) ->
  leb (q1 q) (q2 q) = true /\ leb (q2 q) (q3 q) = true /\ leb (q3 q) (q4 q) = true
  /\ leb (q4 q) (q5 q) = true /\ leb (q5 q) (q6 q) = true.
Proof.
  intros Hne Hmax Hnan (i1 & E1 & R1 & L1) (i2 & E2 & R2 & L2) (i3 & E3 & R3 & L3)
         (i4 & E4 & R4 & L4) (i5 & E5 & R5 & L5) (i6 & E6 & R6 & L6).
  assert (Hn : 0 < Z.of_nat (length (sort values)) <= PY_SSIZE_T_MAX).
  { rewrite length_sort. destruct values; [congruence | cbn [length] in *; lia]. }
  destruct (quantile_indices_increase _ _ _ _ _ _ _ Hn E1 E2 E3 E4 E5 E6)
    as (H12 & H23 & H34 & H45 & H56).
  pose proof (sort_sorted values Hnan) as Hsorted.
  assert (Hnan' : Forall (fun y => is_nan y = false) (sort values))
    by (rewrite sort_perm; assumption).
  repeat split;
    (eapply (sorted_lookup_le (sort values)); [exact Hsorted | exact Hnan' | | eassumption | eassumption]; lia).
Qed.

(** X4.  For a non-empty sample without NaN the six breakpoints exist and
    do not decrease: q1 <= q2 <= q3 <= q4 <= q5 <= q6. *)
Theorem breakpoints_are_non_decreasing (values : list float) :
  values <> [] -> Z.of_nat (length values) <= PY_SSIZE_T_MAX ->
  Forall (fun y => is_nan y = false) values ->
  exists q,
    compute_quantiles (sort values) = Ok q
    /\ leb (q1 q) (q2 q) = true /\ leb (q2 q) (q3 q) = true /\ leb (q3 q) (q4 q) = true
    /\ leb (q4 q) (q5 q) = true /\ leb (q5 q) (q6 q) = true.
Proof.
  intros Hne Hmax Hnan.
  destruct (sample_quantiles values Hne Hmax) as (q & Hq & B1 & B2 & B3 & B4 & B5 & B6).
  exists q. split; [assumption|]. apply (breakpoints_chain values); assumption.
Qed.

Lemma breakpoints_are_non_decreasing_witness :
  sample <> []
  /\ Z.of_nat (length sample) <= PY_SSIZE_T_MAX
  /\ Forall (fun y => is_nan y = false) sample
  /\ exists q,
       compute_quantiles (sort sample) = Ok q
       /\ leb (q1 q) (q2 q) = true /\ leb (q2 q) (q3 q) = true /\ leb (q3 q) (q4 q) = true
       /\ leb (q4 q) (q5 q) = true /\ leb (q5 q) (q6 q) = true.
Proof.
  split; [discriminate|]. split; [vm_compute; discriminate|].
  split; [repeat constructor|].
  apply (breakpoints_are_non_decreasing sample);
    [discriminate | vm_compute; discriminate | repeat constructor].
Defined.

Lemma score_counts_exceeded (q : quantiles) (x : float) :
  leb (q1 q) (q2 q) = true -> leb (q2 q) (q3 q) = true -> leb (q3 q) (q4 q) = true ->
  leb (q4 q) (q5 q) = true -> leb (q5 q) (q6 q) = true ->
  quantile_score q x = -3 + breakpoints_exceeded q x.
Proof.
  intros H12 H23 H34 H45 H56.
  unfold quantile_score, breakpoints_exceeded, breakpoints. cbn [List.filter].
  destruct (leb x (q1 q)) eqn:E1.
  { rewrite (leb_trans _ _ _ E1 H12).
    rewrite (leb_trans _ _ _ (leb_trans _ _ _ E1 H12) H23).
    pose proof (leb_trans _ _ _ (leb_trans _ _ _ (leb_trans _ _ _ E1 H12) H23) H34) as E4.
    rewrite E4, (leb_trans _ _ _ E4 H45), (leb_trans _ _ _ (leb_trans _ _ _ E4 H45) H56).
    reflexivity. }
  destruct (leb x (q2 q)) eqn:E2.
  { rewrite (leb_trans _ _ _ E2 H23).
    pose proof (leb_trans _ _ _ (leb_trans _ _ _ E2 H23) H34) as E4.
    rewrite E4, (leb_trans _ _ _ E4 H45), (leb_trans _ _ _ (leb_trans _ _ _ E4 H45) H56).
    reflexivity. }
  destruct (leb x (q3 q)) eqn:E3.
  { pose proof (leb_trans _ _ _ E3 H34) as E4.
    rewrite E4, (leb_trans _ _ _ E4 H45), (leb_trans _ _ _ (leb_trans _ _ _ E4 H45) H56).
    reflexivity. }
  destruct (leb x (q4 q)) eqn:E4.
  { rewrite (leb_trans _ _ _ E4 H45), (leb_trans _ _ _ (leb_trans _ _ _ E4 H45) H56).
    reflexivity. }
  destruct (leb x (q5 q)) eqn:E5.
  { rewrite (leb_trans _ _ _ E5 H56). reflexivity. }
  destruct (leb x (q6 q)) eqn:E6; reflexivity.
Qed.

(** X5.  For a non-empty sample without NaN the score of any value is -3
    plus the number of breakpoints that the value exceeds. *)
Theorem score_counts_breakpoints_exceeded (values : list float) :
  values <> [] -> Z.of_nat (length values) <= PY_SSIZE_T_MAX ->
  Forall (fun y => is_nan y = false) values ->
  exists q,
    compute_quantiles (sort values) = Ok q
    /\ forall x, quantile_score q x = -3 + breakpoints_exceeded q x.
Proof.
  intros Hne Hmax Hnan.
  destruct (sample_quantiles values Hne Hmax) as (q & Hq & B1 & B2 & B3 & B4 & B5 & B6).
  exists q. split; [assumption|]. intros x.
  destruct (breakpoints_chain values q) as (H12 & H23 & H34 & H45 & H56); try assumption.
  apply score_counts_exceeded; assumption.
Qed.

Lemma score_counts_breakpoints_exceeded_witness :
  sample <> []
  /\ Z.of_nat (length sample) <= PY_SSIZE_T_MAX
  /\ Forall (fun y => is_nan y = false) sample
  /\ exists q,
       compute_quantiles (sort sample) = Ok q
       /\ forall x, quantile_score q x = -3 + breakpoints_exceeded q x.
Proof.
  split; [discriminate|]. split; [vm_compute; discriminate|].
  split; [repeat constructor|].
  apply (score_counts_breakpoints_exceeded sample);
    [discriminate | vm_compute; discriminate | repeat constructor].
Defined.

(** X6.  A value that no value of the sample lies below scores -3; so the
    smallest value of every sample does. *)
Theorem smallest_value_scores_minus_three (values : list float) :
  values <> [] -> Z.of_nat (length values) <= PY_SSIZE_T_MAX ->
  exists q,
    compute_quantiles (sort values) = Ok q
    /\ forall x, (forall y, In y values -> leb x y = true) -> quantile_score q x = -3.
Proof.
  intros Hne Hmax.
  destruct (sample_quantiles values Hne Hmax) as (q & Hq & B1 & _).
  exists q. split; [assumption|]. intros x Hmin.
  unfold quantile_score. rewrite (Hmin _ (breakpoint_in_sample _ _ _ B1)). reflexivity.
Qed.

Lemma smallest_value_scores_minus_three_witness :
  sample <> []
  /\ Z.of_nat (length sample) <= PY_SSIZE_T_MAX
  /\ exists q,
       compute_quantiles (sort sample) = Ok q
       /\ forall x, (forall y, In y sample -> leb x y = true) -> quantile_score q x = -3.
Proof.
  split; [discriminate|]. split; [vm_compute; discriminate|].
  apply (smallest_value_scores_minus_three sample);
    [discriminate | vm_compute; discriminate].
Defined.

Lemma last_index_small_samples (n i : Z) :
  1 <= n <= 7 -> quantile_index n c6 = Ok i -> i = n - 1.
Proof.
  intros Hn. assert (n = 1 \/ n = 2 \/ n = 3 \/ n = 4 \/ n = 5 \/ n = 6 \/ n = 7) as H by lia.
  destruct H as [-> | [-> | [-> | [-> | [-> | [-> | ->]]]]]]; vm_compute; congruence.
Qed.

(** X7.  In a non-empty sample of at most seven values without NaN no
    value of the sample scores 3 (the sixth breakpoint is the largest
    value). *)
Theorem small_samples_have_no_top_score (values : list float) :
  values <> [] -> (length values <= 7)%nat ->
  Forall (fun y => is_nan y = false) values ->
  exists q,
    compute_quantiles (sort values) = Ok q
    /\ forall x, In x values -> quantile_score q x <= 2.
Proof.
  intros Hne Hlen Hnan.
  assert (Hmax : Z.of_nat (length values) <= PY_SSIZE_T_MAX)
    by (unfold PY_SSIZE_T_MAX; lia).
  destruct (sample_quantiles values Hne Hmax) as (q & Hq & _ & _ & _ & _ & _ & B6).
  exists q. split; [assumption|]. intros x Hx.
  destruct B6 as (i & Ei & Ri & Li).
  rewrite length_sort in Ei, Ri.
  assert (Hi : i = Z.of_nat (length values) - 1).
  { apply last_index_small_samples; [|assumption].
    destruct values; [congruence | cbn [length] in *; lia]. }
  assert (Hxs : x ∈ sort values) by (rewrite sort_perm; apply list_elem_of_In; assumption).
  apply list_elem_of_lookup_1 in Hxs as [j Hj].
  pose proof (lookup_lt_Some _ _ _ Hj) as Hjlt. rewrite length_sort in Hjlt.
  assert (Hle : leb x (q6 q) = true).
  { eapply (sorted_lookup_le (sort values) j (Z.to_nat i)); try eassumption.
    - apply sort_sorted. assumption.
    - rewrite sort_perm. assumption.
    - lia. }
  unfold quantile_score. rewrite Hle. repeat (destruct (leb x _)); lia.
Qed.

Lemma small_samples_have_no_top_score_witness :
  sample <> []
  /\ (length sample <= 7)%nat
  /\ Forall (fun y => is_nan y = false) sample
  /\ exists q,
       compute_quantiles (sort sample) = Ok q
       /\ forall x, In x sample -> quantile_score q x <= 2.
Proof.
  split; [discriminate|]. split; [cbn; lia|].
  split; [repeat constructor|].
  apply (small_samples_have_no_top_score sample);
    [discriminate | cbn; lia | repeat constructor].
Defined.

(** ** More about the two formulas *)

Lemma ratio_thresholds_descend :
  leb (lit 714 10) (lit 857 10) = true /\ leb (lit 571 10) (lit 714 10) = true
  /\ leb (lit 428 10) (lit 571 10) = true /\ leb (lit 285 10) (lit 428 10) = true
  /\ leb (lit 142 10) (lit 285 10) = true.
Proof. repeat split; vm_compute; reflexivity. Qed.

Lemma ratio_case_counts (p : float) :
  ratio_case (PyFloat p) = Ok (PyInt (-3 + thresholds_reached p)).
Proof.
  destruct ratio_thresholds_descend as (H1 & H2 & H3 & H4 & H5).
  unfold ratio_case, thresholds_reached, qgs_case, qgs_ge.
  cbn [operand_of mbind result_bind to_double List.filter].
  destruct (leb (lit 857 10) p) eqn:E1.
  { pose proof (leb_trans _ _ _ H1 E1) as E2. pose proof (leb_trans _ _ _ H2 E2) as E3.
    pose proof (leb_trans _ _ _ H3 E3) as E4. pose proof (leb_trans _ _ _ H4 E4) as E5.
    pose proof (leb_trans _ _ _ H5 E5) as E6. rewrite E2, E3, E4, E5, E6. reflexivity. }
  destruct (leb (lit 714 10) p) eqn:E2.
  { pose proof (leb_trans _ _ _ H2 E2) as E3.
    pose proof (leb_trans _ _ _ H3 E3) as E4. pose proof (leb_trans _ _ _ H4 E4) as E5.
    pose proof (leb_trans _ _ _ H5 E5) as E6. rewrite E3, E4, E5, E6. reflexivity. }
  destruct (leb (lit 571 10) p) eqn:E3.
  { pose proof (leb_trans _ _ _ H3 E3) as E4. pose proof (leb_trans _ _ _ H4 E4) as E5.
    pose proof (leb_trans _ _ _ H5 E5) as E6. rewrite E4, E5, E6. reflexivity. }
  destruct (leb (lit 428 10) p) eqn:E4.
  { pose proof (leb_trans _ _ _ H4 E4) as E5.
    pose proof (leb_trans _ _ _ H5 E5) as E6. rewrite E5, E6. reflexivity. }
  destruct (leb (lit 285 10) p) eqn:E5.
  { pose proof (leb_trans _ _ _ H5 E5) as E6. rewrite E6. reflexivity. }
  destruct (leb (lit 142 10) p) eqn:E6; reflexivity.
Qed.

Lemma thresholds_reached_range (p : float) : 0 <= thresholds_reached p <= 6.
Proof.
  unfold thresholds_reached.
  pose proof (filter_length_le (fun t => leb t p)
     [lit 857 10; lit 714 10; lit 571 10; lit 428 10; lit 285 10; lit 142 10]) as H.
  cbn [length] in *. lia.
Qed.

Lemma thresholds_reached_mono (p p' : float) :
  leb p p' = true -> thresholds_reached p <= thresholds_reached p'.
Proof.
  intros H. unfold thresholds_reached. cbn [List.filter].
  repeat match goal with
  | |- context [leb ?t p] =>
      let E := fresh "E" in
      destruct (leb t p) eqn:E;
      [rewrite (leb_trans _ _ _ E H) | destruct (leb t p')]
  end; cbn [length]; lia.
Qed.

(** X8.  On a box whose width and height are numbers or NULL the ratio
    formula raises no error and never yields NULL: its value is an integer
    between -3 and 3. *)
Theorem ratio_score_is_never_null (f : feature) (width height : operand) :
  operand_of (getitem f "width") = Ok width ->
  operand_of (getitem f "height") = Ok height ->
  exists s, score_verhaeltnis_formula f = Ok (PyInt s) /\ -3 <= s <= 3.
Proof.
  intros Hw Hh. unfold score_verhaeltnis_formula, qgs_mul, qgs_div. rewrite Hw, Hh.
  cbn [operand_of mbind result_bind to_double].
  assert (Hnull : exists s, ratio_case QNULL = Ok (PyInt s) /\ -3 <= s <= 3)
    by (exists (-3); split; [reflexivity | lia]).
  assert (Hreal : forall p, exists s, ratio_case (PyFloat p) = Ok (PyInt s) /\ -3 <= s <= 3).
  { intros p. eexists. split; [apply ratio_case_counts|].
    pose proof (thresholds_reached_range p). lia. }
  destruct width as [|z|x], height as [|j|y];
    cbn [operand_of mbind result_bind to_double]; try exact Hnull;
    match goal with
    | |- context [is_zero ?h] => destruct (is_zero h)
    end; cbn [operand_of mbind result_bind to_double]; try exact Hnull; apply Hreal.
Qed.

Lemma ratio_score_is_never_null_witness :
  operand_of (getitem (bbox (of_Z 3) (of_Z 4)) "width") = Ok (RealOp (of_Z 3))
  /\ operand_of (getitem (bbox (of_Z 3) (of_Z 4)) "height") = Ok (RealOp (of_Z 4))
  /\ exists s, score_verhaeltnis_formula (bbox (of_Z 3) (of_Z 4)) = Ok (PyInt s)
               /\ -3 <= s <= 3.
Proof.
  split; [reflexivity|]. split; [reflexivity|].
  apply (ratio_score_is_never_null (bbox (of_Z 3) (of_Z 4)) (RealOp (of_Z 3))
           (RealOp (of_Z 4))); reflexivity.
Defined.

(** X9.  The ratio score is monotone: of two boxes with non-zero heights,
    the one whose [100 * width / height] is not smaller does not score
    lower. *)
Theorem ratio_score_is_monotone (f f' : feature) (width height width' height' : float) :
  getitem f "width" = PyFloat width -> getitem f "height" = PyFloat height ->
  getitem f' "width" = PyFloat width' -> getitem f' "height" = PyFloat height' ->
  is_zero height = false -> is_zero height' = false ->
  leb (div (mul (of_Z 100) width) height) (div (mul (of_Z 100) width') height') = true ->
  exists s s',
    score_verhaeltnis_formula f = Ok (PyInt s)
    /\ score_verhaeltnis_formula f' = Ok (PyInt s')
    /\ s <= s'.
Proof.
  intros Hw Hh Hw' Hh' Hz Hz' Hle.
  unfold score_verhaeltnis_formula, qgs_mul, qgs_div. rewrite Hw, Hh, Hw', Hh'.
  cbn [operand_of mbind result_bind to_double]. rewrite Hz, Hz'.
  do 2 eexists. split; [apply ratio_case_counts|]. split; [apply ratio_case_counts|].
  pose proof (thresholds_reached_mono _ _ Hle). lia.
Qed.

Lemma ratio_score_is_monotone_witness :
  getitem (bbox (of_Z 1) (of_Z 2)) "width" = PyFloat (of_Z 1)
  /\ getitem (bbox (of_Z 1) (of_Z 2)) "height" = PyFloat (of_Z 2)
  /\ getitem (bbox (of_Z 3) (of_Z 4)) "width" = PyFloat (of_Z 3)
  /\ getitem (bbox (of_Z 3) (of_Z 4)) "height" = PyFloat (of_Z 4)
  /\ is_zero (of_Z 2) = false /\ is_zero (of_Z 4) = false
  /\ leb (div (mul (of_Z 100) (of_Z 1)) (of_Z 2)) (div (mul (of_Z 100) (of_Z 3)) (of_Z 4))
     = true
  /\ exists s s',
       score_verhaeltnis_formula (bbox (of_Z 1) (of_Z 2)) = Ok (PyInt s)
       /\ score_verhaeltnis_formula (bbox (of_Z 3) (of_Z 4)) = Ok (PyInt s')
       /\ s <= s'.
Proof.
  repeat (split; [reflexivity|]).
  apply (ratio_score_is_monotone (bbox (of_Z 1) (of_Z 2)) (bbox (of_Z 3) (of_Z 4))
           (of_Z 1) (of_Z 2) (of_Z 3) (of_Z 4)); reflexivity.
Defined.

(** *** The composite score on the weights and scores that occur *)

(** X10.  For every weight between 0 and 100 and every pair of scores
    between -3 and 3, the final score exists and lies between the smaller
    and the larger of the two scores; two equal scores are kept. *)
Theorem final_score_between_the_scores (geb_weight a b : Z) :
  0 <= geb_weight <= 100 -> -3 <= a <= 3 -> -3 <= b <= 3 ->
  exists final_score,
    final_score_of geb_weight a b = Some final_score
    /\ Z.min a b <= final_score <= Z.max a b.
Proof.
  intros Hw Ha Hb.
  assert (Hall : forallb (fun w => forallb (fun x => forallb (fun y =>
            match final_score_of w x y with
            | Some z => (Z.min x y <=? z) && (z <=? Z.max x y)
            | None => false
            end) score_range) score_range) percentages = true)
    by (vm_compute; reflexivity).
  rewrite forallb_forall in Hall.
  specialize (Hall _ (in_percentages _ Hw)). rewrite forallb_forall in Hall.
  specialize (Hall _ (in_score_range a Ha)). rewrite forallb_forall in Hall.
  specialize (Hall _ (in_score_range b Hb)).
  destruct (final_score_of geb_weight a b) as [z|]; [|discriminate].
  exists z. split; [reflexivity | lia].
Qed.

Lemma final_score_between_the_scores_witness :
  0 <= 70 <= 100 /\ -3 <= 3 <= 3 /\ -3 <= -2 <= 3
  /\ exists final_score,
       final_score_of 70 3 (-2) = Some final_score
       /\ Z.min 3 (-2) <= final_score <= Z.max 3 (-2).
Proof.
  split; [lia|]. split; [lia|]. split; [lia|].
  apply (final_score_between_the_scores 70 3 (-2)); lia.
Defined.

Lemma in_final_scores (geb_weight a b : Z) :
  -3 <= a <= 3 -> -3 <= b <= 3 ->
  In (a, b, final_score_of geb_weight a b) (final_scores geb_weight).
Proof.
  intros Ha Hb. unfold final_scores. apply in_flat_map. exists a.
  split; [apply in_score_range; assumption|].
  apply in_map_iff. exists b. split; [reflexivity | apply in_score_range; assumption].
Qed.

(** X11.  For every weight between 0 and 100 the final score is monotone
    in both scores: raising the building score or the ratio score never
    lowers the final score. *)
Theorem final_score_is_monotone (geb_weight a a' b b' : Z) :
  0 <= geb_weight <= 100 -> -3 <= a <= a' -> a' <= 3 -> -3 <= b <= b' -> b' <= 3 ->
  exists s s',
    final_score_of geb_weight a b = Some s
    /\ final_score_of geb_weight a' b' = Some s'
    /\ s <= s'.
Proof.
  intros Hw Ha Ha' Hb Hb'.
  assert (Hall : forallb (fun w => monotone_table (final_scores w)) percentages = true)
    by (vm_compute; reflexivity).
  rewrite forallb_forall in Hall.
  specialize (Hall _ (in_percentages _ Hw)). unfold monotone_table in Hall.
  rewrite forallb_forall in Hall.
  specialize (Hall _ (in_final_scores geb_weight a b ltac:(lia) ltac:(lia))).
  cbv beta iota in Hall. rewrite forallb_forall in Hall.
  specialize (Hall _ (in_final_scores geb_weight a' b' ltac:(lia) ltac:(lia))).
  cbv beta iota in Hall.
  replace (a <=? a') with true in Hall by (symmetry; apply Z.leb_le; lia).
  replace (b <=? b') with true in Hall by (symmetry; apply Z.leb_le; lia).
  cbn [andb implb] in Hall. unfold final_le in Hall.
  destruct (final_score_of geb_weight a b) as [s|]; [|discriminate].
  destruct (final_score_of geb_weight a' b') as [s'|]; [|discriminate].
  exists s, s'. repeat split. apply Z.leb_le. assumption.
Qed.

Lemma final_score_is_monotone_witness :
  0 <= 70 <= 100 /\ -3 <= -1 <= 2 /\ 2 <= 3 /\ -3 <= 0 <= 3 /\ 3 <= 3
  /\ exists s s',
       final_score_of 70 (-1) 0 = Some s /\ final_score_of 70 2 3 = Some s' /\ s <= s'.
Proof.
  split; [lia|]. split; [lia|]. split; [lia|]. split; [lia|]. split; [lia|].
  apply (final_score_is_monotone 70 (-1) 2 0 3); lia.
Defined.

(** A block without buildings, under the weights 80 and 20. *)
Lemma final_score_null_witness :
  (getitem (scored_block QNULL (PyInt 2)) "score_geb_sum_norm" = QNULL
   /\ operand_of (getitem (scored_block QNULL (PyInt 2)) "score_verhaeltnis") = Ok (IntOp 2))
  /\ final_score_formula (lit 8 10) (lit 2 10) (scored_block QNULL (PyInt 2)) = Ok QNULL.
Proof.
  split; [split; reflexivity|].
  apply (final_score_null (lit 8 10) (lit 2 10) (scored_block QNULL (PyInt 2)) (IntOp 2)).
  left. split; reflexivity.
Defined.

(** ** More about phase 4 *)

Lemma same_inputs_refl d : same_inputs d d.
Proof. repeat split. Qed.

Lemma same_inputs_trans d1 d2 d3 : same_inputs d1 d2 -> same_inputs d2 d3 -> same_inputs d1 d3.
Proof. unfold same_inputs. intros (?&?&?&?) (?&?&?&?). repeat split; congruence. Qed.

Lemma keeps_bind {A B : Type} (m : M disk A) (k : A -> M disk B) :
  keeps_inputs m -> (forall a, keeps_inputs (k a)) -> keeps_inputs (a ← m; k a).
Proof.
  intros Hm Hk d. unfold mbind, M_bind. specialize (Hm d).
  destruct (m d) as [[e|a] d1]; cbn [snd] in *; [assumption|].
  eapply same_inputs_trans; [eassumption | apply Hk].
Qed.

Lemma keeps_get : keeps_inputs (@get disk).
Proof. intros d. apply same_inputs_refl. Qed.

Lemma keeps_throw {A : Type} (e : exn) : keeps_inputs (@throw disk A e).
Proof. intros d. apply same_inputs_refl. Qed.

Lemma keeps_lift {A : Type} (r : result A) : keeps_inputs (@lift disk A r).
Proof. intros d. apply same_inputs_refl. Qed.

Lemma keeps_ret {A : Type} (a : A) : keeps_inputs (mret a : M disk A).
Proof. intros d. apply same_inputs_refl. Qed.

Lemma keeps_write (p : path) (layer : QgsVectorLayer) :
  p <> input_blocks -> p <> join_layer -> keeps_inputs (write p layer).
Proof.
  intros H1 H2 d. unfold write, same_inputs. cbn [snd temp_path_exists final_output_dir_exists gpkg].
  repeat split; destruct (decide _); congruence.
Qed.

Lemma keeps_remove (p : path) :
  p <> input_blocks -> p <> join_layer -> keeps_inputs (remove p).
Proof.
  intros H1 H2 d. unfold remove, same_inputs.
  destruct (undeletable d p); cbn [snd temp_path_exists final_output_dir_exists gpkg];
    repeat split; destruct (decide _); congruence.
Qed.

Lemma keeps_read (p : path) (algorithm : string) : keeps_inputs (read p algorithm).
Proof.
  unfold read. apply keeps_bind; [apply keeps_get|]. intros d.
  destruct (gpkg d p); [apply keeps_ret | apply keeps_throw].
Qed.

Lemma keeps_on_layer {A : Type} (p : path) (edit : M QgsVectorLayer A) :
  p <> input_blocks -> p <> join_layer -> keeps_inputs (on_layer p edit).
Proof.
  intros H1 H2. unfold on_layer. apply keeps_bind; [apply keeps_read|]. intros layer.
  destruct (edit layer) as [r layer'].
  apply keeps_bind; [apply keeps_write; assumption|]. intros _. apply keeps_lift.
Qed.

Lemma keeps_try_except {A : Type} (body : M disk A) (handler : exn -> M disk A) :
  keeps_inputs body -> (forall e, keeps_inputs (handler e)) -> keeps_inputs (try_except body handler).
Proof.
  intros Hb Hh d. unfold try_except. specialize (Hb d).
  destruct (body d) as [[e|a] d1]; cbn [snd] in *; [|assumption].
  eapply same_inputs_trans; [eassumption | apply Hh].
Qed.

(** Phase 4 is a sequence of such steps. *)
Ltac keeps :=
  repeat first
    [ apply keeps_get | apply keeps_throw | apply keeps_lift | apply keeps_ret
    | apply keeps_read
    | apply keeps_write; discriminate
    | apply keeps_remove; discriminate
    | apply keeps_on_layer; discriminate
    | apply keeps_bind; [|intros ?]
    | match goal with
      | |- keeps_inputs (if ?b then _ else _) => destruct b
      | |- keeps_inputs (match ?x with _ => _ end) => destruct x
      end ].

Section Phase4Facts.

Variable float_of_str : string -> option float.
Variable qgis : Toolbox.

Lemma phase_4_body_keeps_inputs (geb_weight verh_weight : Z) :
  keeps_inputs (phase_4_body float_of_str qgis geb_weight verh_weight).
Proof. unfold phase_4_body. keeps. Qed.

(** X13.  Whatever happens, phase 4 leaves the blocks file, the buildings
    file and the two directories as they were, and it either returns
    normally or fails with a phase 4 failure that wraps the cause. *)
Theorem phase_4_keeps_its_inputs (geb_weight verh_weight : Z) (d : disk) :
  let '(outcome, d') := phase_4_quantilskala float_of_str qgis geb_weight verh_weight d in
  same_inputs d d'
  /\ (outcome = Ok tt \/ exists e, outcome = Raise (Phase4Failure e)).
Proof.
  pose proof (phase_4_body_keeps_inputs geb_weight verh_weight d) as H.
  unfold phase_4_quantilskala, try_except.
  destruct (phase_4_body float_of_str qgis geb_weight verh_weight d) as [[e|[]] d1];
    cbn [snd] in H; unfold throw.
  - split; [assumption | right; eexists; reflexivity].
  - split; [assumption | left; reflexivity].
Qed.

(** X14.  When the weights sum to 100 and a directory, the blocks file or
    the file [gwr_bund_bs_lv95.gpkg] is missing, phase 4 fails with the
    first of these findings, in this order, and has written nothing. *)
Theorem failed_precondition_stops_phase_4 (geb_weight verh_weight : Z) (d : disk) :
  geb_weight + verh_weight = 100 ->
  temp_path_exists d && final_output_dir_exists d = false
  \/ gpkg d input_blocks = None \/ gpkg d join_layer = None ->
  phase_4_quantilskala float_of_str qgis geb_weight verh_weight d
  = (Raise (Phase4Failure
              (if temp_path_exists d && final_output_dir_exists d
               then match gpkg d input_blocks with
                    | None => BlocksLayerMissing
                    | Some _ => BuildingsLayerMissing
                    end
               else DirectoriesMissing)), d).
Proof.
  intros Hsum Hmiss.
  unfold phase_4_quantilskala, try_except, phase_4_body. run_M.
  destruct (temp_path_exists d && final_output_dir_exists d); cbn [negb]; [|reflexivity].
  rewrite Hsum. cbn [negb Z.eqb Pos.eqb].
  destruct (gpkg d input_blocks) as [blocks|]; [|reflexivity].
  destruct Hmiss as [Hd | [Hb | Hj]]; try discriminate. rewrite Hj. reflexivity.
Qed.

(** X15.  When the aggregation returns blocks of which none has a valid
    sum of building scores, phase 4 fails with the classifier's report that
    the field holds no valid values; the aggregated layer has been written
    and no other file has changed. *)
Theorem blocks_without_scores_stop_phase_4
    (geb_weight verh_weight : Z) (d : disk) (blocks buildings aggregated : QgsVectorLayer) :
  temp_path_exists d = true -> final_output_dir_exists d = true ->
  geb_weight + verh_weight = 100 ->
  gpkg d input_blocks = Some blocks -> gpkg d join_layer = Some buildings ->
  joinbylocationsummary qgis blocks buildings = Ok aggregated ->
  isValid qgis aggregated = true ->
  contains (fields aggregated) score_field = true ->
  collect_values float_of_str score_field (features aggregated) = Ok [] ->
  let '(outcome, d') := phase_4_quantilskala float_of_str qgis geb_weight verh_weight d in
  outcome = Raise (Phase4Failure (QuantileFailure (NoValidValues score_field)))
  /\ gpkg d' joined_score_path = Some aggregated
  /\ forall p, p <> joined_score_path -> gpkg d' p = gpkg d p.
Proof.
  intros Ht Hf Hsum Hb Hj Hagg Hvalid Hfield Hvalues.
  unfold phase_4_quantilskala, try_except, phase_4_body. run_M.
  rewrite Ht, Hf, Hsum, Hb, Hj, Hagg. cbn [andb negb Z.eqb Pos.eqb].
  unfold write at 1. cbn [gpkg]. rewrite decide_True by reflexivity.
  rewrite Hvalid, Hfield. cbn [negb].
  unfold on_layer, read. run_M. cbn [gpkg]. rewrite decide_True by reflexivity.
  unfold mret, M_ret. cbv beta iota.
  unfold calculate_quantile_score, try_except, quantile_body. run_M.
  rewrite Hfield, Hvalues. cbn [negb]. unfold write. cbn [gpkg].
  split; [reflexivity|]. split; [rewrite decide_True by reflexivity; reflexivity|].
  intros p Hp. rewrite !decide_False by assumption. reflexivity.
Qed.

End Phase4Facts.

Lemma failed_precondition_stops_phase_4_witness :
  80 + 20 = 100
  /\ gpkg kantonal_disk join_layer = None
  /\ phase_4_quantilskala no_text example_toolbox 80 20 kantonal_disk
     = (Raise (Phase4Failure BuildingsLayerMissing), kantonal_disk).
Proof.
  split; [reflexivity|]. split; [reflexivity|].
  apply (failed_precondition_stops_phase_4 no_text example_toolbox 80 20 kantonal_disk);
    [reflexivity | right; right; reflexivity].
Defined.

Lemma blocks_without_scores_stop_phase_4_witness :
  temp_path_exists example_disk = true /\ final_output_dir_exists example_disk = true
  /\ 80 + 20 = 100
  /\ gpkg example_disk input_blocks = Some three_blocks
  /\ gpkg example_disk join_layer = Some three_blocks
  /\ joinbylocationsummary empty_toolbox three_blocks three_blocks = Ok empty_blocks
  /\ isValid empty_toolbox empty_blocks = true
  /\ contains (fields empty_blocks) score_field = true
  /\ collect_values no_text score_field (features empty_blocks) = Ok []
  /\ let '(outcome, d') := phase_4_quantilskala no_text empty_toolbox 80 20 example_disk in
     outcome = Raise (Phase4Failure (QuantileFailure (NoValidValues score_field)))
     /\ gpkg d' joined_score_path = Some empty_blocks
     /\ forall p, p <> joined_score_path -> gpkg d' p = gpkg example_disk p.
Proof.
  repeat (split; [reflexivity|]).
  apply (blocks_without_scores_stop_phase_4 no_text empty_toolbox 80 20 example_disk
           three_blocks three_blocks empty_blocks); reflexivity.
Defined.

Lemma contains_In (names : list string) (name : string) :
  contains names name = true -> In name names.
Proof.
  unfold contains. rewrite existsb_exists. intros (x & Hx & E).
  apply String.eqb_eq in E. subst. assumption.
Qed.

Lemma retainfields_fields (layer : QgsVectorLayer) (keep : list string) (name : string) :
  In name (fields (retainfields layer keep)) -> In name keep /\ In name (fields layer).
Proof.
  unfold retainfields. cbn [fields]. rewrite filter_In. intros [H1 H2].
  split; [apply contains_In|]; assumption.
Qed.

Lemma retainfields_features (layer : QgsVectorLayer) (keep : list string) :
  Forall (fun f : feature => forall k v, f !! k = Some v -> In k keep)
         (features (retainfields layer keep)).
Proof.
  unfold retainfields. cbn [features]. apply Forall_forall. intros f Hf.
  apply list_elem_of_fmap in Hf as (g & -> & _). intros k v H.
  apply map_lookup_filter_Some in H as [_ H]. apply contains_In. exact H.
Qed.

Section Phase4Success.

Variable float_of_str : string -> option float.
Variable qgis : Toolbox.

Lemma phase_4_body_success (geb_weight verh_weight : Z) (d d' : disk) :
  phase_4_body float_of_str qgis geb_weight verh_weight d = (Ok tt, d') ->
  geb_weight + verh_weight = 100
  /\ (undeletable d temp_joined_path = false -> gpkg d' temp_joined_path = None)
  /\ (undeletable d temp_joined_path = true -> is_Some (gpkg d' temp_joined_path))
  /\ (undeletable d temp_final_path = false -> gpkg d' temp_final_path = None)
  /\ (undeletable d temp_final_path = true -> is_Some (gpkg d' temp_final_path))
  /\ (exists scored bbox scored_bbox temp_joined temp_final,
        gpkg d' joined_score_path = Some scored
        /\ contains (fields scored) "score_geb_sum_norm" = true
        /\ gpkg d' bbox_path = Some bbox
        /\ gpkg d' scored_bbox_path = Some scored_bbox
        /\ contains (fields scored_bbox) "score_verhaeltnis" = true
        /\ joinattributestable qgis scored scored_bbox = Ok temp_joined
        /\ contains (fields temp_final) "final_score" = true
        /\ length (features temp_final) = length (features temp_joined)
        /\ gpkg d' final_path = Some (retainfields temp_final retained)).
Proof.
  intros E. unfold phase_4_body in E.
  unfold mbind, M_bind, get, lift, put, throw in E. cbv beta iota in E.
  destruct (negb (temp_path_exists d && final_output_dir_exists d)); [discriminate|].
  destruct (negb (geb_weight + verh_weight =? 100)) eqn:Hsum; [discriminate|].
  apply negb_false_iff, Z.eqb_eq in Hsum.
  destruct (gpkg d input_blocks) as [blocks|]; [|discriminate].
  destruct (gpkg d join_layer) as [buildings|]; [|discriminate].
  destruct (joinbylocationsummary qgis blocks buildings) as [e|aggregated]; [discriminate|].
  unfold write at 1 in E. cbn [gpkg] in E. rewrite decide_True in E by reflexivity.
  destruct (negb (isValid qgis aggregated)); [discriminate|].
  destruct (negb (contains (fields aggregated) score_field)); [discriminate|].
  unfold on_layer, read in E.
  unfold mbind, M_bind, get, lift, put, throw, mret, M_ret in E. cbv beta iota in E.
  cbn [gpkg] in E. rewrite decide_True in E by reflexivity. cbv beta iota in E.
  destruct (calculate_quantile_score float_of_str score_field "score_geb_sum_norm" aggregated)
    as [[e|[]] scored] eqn:Escore; unfold write at 1 in E; cbv beta iota in E; [discriminate|].
  cbn [gpkg] in E. rewrite decide_True in E by reflexivity. cbv beta iota in E.
  destruct (orientedminimumboundingbox qgis scored) as [e|bbox]; [discriminate|].
  unfold write at 1 in E. cbv beta iota in E.
  destruct (fieldcalculator bbox "score_verhaeltnis" score_verhaeltnis_formula)
    as [e|scored_bbox] eqn:Eratio; [discriminate|].
  unfold write at 1 in E. cbv beta iota in E.
  destruct (joinattributestable qgis scored scored_bbox) as [e|temp_joined] eqn:Ejoin;
    [discriminate|].
  unfold write at 1 in E. cbv beta iota in E.
  destruct (py_truediv geb_weight 100) as [e|gc]; [discriminate|].
  destruct (py_truediv verh_weight 100) as [e|vc]; [discriminate|].
  destruct (fieldcalculator temp_joined "final_score" (final_score_formula gc vc))
    as [e|temp_final] eqn:Efinal; [discriminate|].
  assert (Hscored : contains (fields scored) "score_geb_sum_norm" = true).
  { apply calculate_quantile_score_inv in Escore as (_ & values & q & fs & _ & _ & _ & _ & ->).
    cbn [fields]. apply add_output_field_contains. }
  assert (Hratio : contains (fields scored_bbox) "score_verhaeltnis" = true).
  { unfold fieldcalculator in Eratio.
    destruct (calculate_features _ _ _) as [e|fs]; [discriminate|].
    cbn [mbind result_bind] in Eratio. injection Eratio as <-. cbn [fields].
    destruct (contains (fields bbox) "score_verhaeltnis") eqn:Ec; [assumption|].
    apply contains_app_r. }
  assert (Hfinal : contains (fields temp_final) "final_score" = true).
  { unfold fieldcalculator in Efinal.
    destruct (calculate_features _ _ _) as [e|fs]; [discriminate|].
    cbn [mbind result_bind] in Efinal. injection Efinal as <-. cbn [fields].
    destruct (contains (fields temp_joined) "final_score") eqn:Ec; [assumption|].
    apply contains_app_r. }
  assert (Hlen : length (features temp_final) = length (features temp_joined)).
  { apply fieldcalculator_features in Efinal. symmetry. eapply Forall2_length. eassumption. }
  unfold write, remove in E. cbv beta iota in E.
  cbn [gpkg temp_path_exists final_output_dir_exists undeletable] in E.
  destruct (undeletable d temp_joined_path);
    cbn [gpkg temp_path_exists final_output_dir_exists undeletable] in E;
    destruct (undeletable d temp_final_path);
    injection E as <-; cbn [gpkg];
    (split; [assumption|]);
    (split; [intros H; first [discriminate H | reflexivity]|]);
    (split; [intros H; first [discriminate H | eexists; reflexivity]|]);
    (split; [intros H; first [discriminate H | reflexivity]|]);
    (split; [intros H; first [discriminate H | eexists; reflexivity]|]);
    exists scored, bbox, scored_bbox, temp_joined, temp_final;
    repeat split; assumption.
Qed.

(** X16.  When phase 4 returns normally, the weights sum to 100, the three
    intermediate files exist, and the final file holds a layer with the
    field [final_score] whose fields and attributes are all among the five
    retained names.  Each of the two temporary files is gone when it could
    be deleted; when its removal fails, phase 4 returns normally all the
    same and the file is still there. *)
Theorem successful_phase_4_leaves_the_final_layer
    (geb_weight verh_weight : Z) (d d' : disk) :
  phase_4_quantilskala float_of_str qgis geb_weight verh_weight d = (Ok tt, d') ->
  geb_weight + verh_weight = 100
  /\ (undeletable d temp_joined_path = false -> gpkg d' temp_joined_path = None)
  /\ (undeletable d temp_joined_path = true -> is_Some (gpkg d' temp_joined_path))
  /\ (undeletable d temp_final_path = false -> gpkg d' temp_final_path = None)
  /\ (undeletable d temp_final_path = true -> is_Some (gpkg d' temp_final_path))
  /\ is_Some (gpkg d' joined_score_path) /\ is_Some (gpkg d' bbox_path)
  /\ is_Some (gpkg d' scored_bbox_path)
  /\ exists final,
       gpkg d' final_path = Some final
       /\ In "final_score" (fields final)
       /\ (forall name, In name (fields final) -> In name retained)
       /\ Forall (fun f : feature => forall k v, f !! k = Some v -> In k retained)
                 (features final).
Proof.
  unfold phase_4_quantilskala, try_except.
  destruct (phase_4_body float_of_str qgis geb_weight verh_weight d) as [[e|[]] d1] eqn:E;
    [discriminate|].
  intros [= <-].
  apply phase_4_body_success in E
    as (Hsum & Ht1 & Ht2 & Ht3 & Ht4 & scored & bbox & scored_bbox & temp_joined & temp_final
        & H1 & _ & H2 & H3 & _ & _ & Hfinal & _ & H4).
  split; [assumption|]. split; [assumption|]. split; [assumption|].
  split; [assumption|]. split; [assumption|].
  split; [rewrite H1; eexists; reflexivity|].
  split; [rewrite H2; eexists; reflexivity|].
  split; [rewrite H3; eexists; reflexivity|].
  exists (retainfields temp_final retained). split; [assumption|]. split.
  - unfold retainfields. cbn [fields]. apply filter_In.
    split; [apply contains_In; assumption | reflexivity].
  - split; [intros name H; apply (retainfields_fields _ _ _ H) | apply retainfields_features].
Qed.

End Phase4Success.

Lemma successful_phase_4_leaves_the_final_layer_witness :
  exists d',
    phase_4_quantilskala no_text example_toolbox 80 20 busy_disk = (Ok tt, d')
    /\ undeletable busy_disk temp_joined_path = false
    /\ gpkg d' temp_joined_path = None
    /\ undeletable busy_disk temp_final_path = true
    /\ is_Some (gpkg d' temp_final_path)
    /\ exists final,
         gpkg d' final_path = Some final
         /\ In "final_score" (fields final)
         /\ (forall name, In name (fields final) -> In name retained).
Proof.
  assert (H : phase_4_quantilskala no_text example_toolbox 80 20 busy_disk
              = (Ok tt, (phase_4_quantilskala no_text example_toolbox 80 20 busy_disk).2))
    by (vm_compute; reflexivity).
  eexists. split; [exact H|].
  destruct (successful_phase_4_leaves_the_final_layer no_text example_toolbox 80 20
              busy_disk _ H)
    as (_ & H1 & _ & _ & H2 & _ & _ & _ & final & H3 & H4 & H5 & _).
  split; [reflexivity|]. split; [apply H1; reflexivity|].
  split; [reflexivity|]. split; [apply H2; reflexivity|].
  exists final. split; [exact H3|]. split; [exact H4 | exact H5].
Defined.

(** ** The building formulas *)

(** The four formulas are instances of [case_equal]. *)
Lemma gwr_gebaeude_formula_eq (f : feature) :
  _get_gwr_gebaeude_formula f = case_equal PyStr (getitem f "GKLAS") gwr_gebaeude.
Proof. reflexivity. Qed.

Lemma gwr_score_formula_eq (f : feature) :
  _get_gwr_score_formula f = case_equal PyInt (getitem f "GKLAS") gwr_score.
Proof. reflexivity. Qed.

Lemma kt_gebaeude_formula_eq (f : feature) :
  _get_kt_gebaeude_formula f = case_equal PyStr (getitem f "GEBKATEGO") kt_gebaeude.
Proof. reflexivity. Qed.

Lemma kt_score_formula_eq (f : feature) :
  _get_kt_score_formula f = case_equal PyInt (getitem f "GEBKATEGO") kt_score.
Proof. reflexivity. Qed.

Lemma qgs_eq_literal (x : attr) (o : operand) (k : Z) :
  operand_of x = Ok o -> exists c, qgs_eq x (PyInt k) = Ok c.
Proof.
  intros H. unfold qgs_eq. rewrite H. cbn [operand_of mbind result_bind].
  destruct o; eexists; reflexivity.
Qed.

Lemma case_equal_cases {A : Type} (then_ : A -> attr) (x : attr) (o : operand)
    (table : list (Z * A)) :
  operand_of x = Ok o ->
  exists v, case_equal then_ x table = Ok v
            /\ (v = QNULL \/ exists k a, In (k, a) table /\ v = then_ a
                                        /\ qgs_eq x (PyInt k) = Ok (Some true)).
Proof.
  intros H. unfold case_equal. induction table as [|[k a] table IH].
  - exists QNULL. split; [reflexivity | left; reflexivity].
  - cbn [map qgs_case]. destruct (qgs_eq_literal x o k H) as [c Hc]. rewrite Hc.
    cbn [mbind result_bind].
    destruct IH as (v & Hv & Hcase).
    assert (Hrest : exists v, qgs_case (map (fun '(k, v) => (qgs_eq x (PyInt k), then_ v)) table)
                                       QNULL = Ok v
              /\ (v = QNULL \/ exists k0 a0, In (k0, a0) ((k, a) :: table) /\ v = then_ a0
                                            /\ qgs_eq x (PyInt k0) = Ok (Some true))).
    { exists v. split; [assumption|]. destruct Hcase as [-> | (k0 & a0 & Hin & -> & Hq)].
      - left. reflexivity.
      - right. exists k0, a0. split; [right; assumption | split; [reflexivity | assumption]]. }
    destruct c as [[|]|]; try exact Hrest.
    exists (then_ a). split; [reflexivity|]. right. exists k, a.
    split; [left; reflexivity | split; [reflexivity | assumption]].
Qed.

Lemma score_table_range (table : list (Z * Z)) (x : attr) (o : operand) :
  forallb (fun '(_, s) => (-3 <=? s) && (s <=? 3)) table = true ->
  operand_of x = Ok o ->
  exists v, case_equal PyInt x table = Ok v /\ building_score v.
Proof.
  intros Ht Hx. destruct (case_equal_cases PyInt x o table Hx) as (v & Hv & Hcase).
  exists v. split; [assumption|].
  destruct Hcase as [-> | (k & s & Hin & -> & _)]; [left; reflexivity|].
  right. exists s. split; [reflexivity|].
  rewrite forallb_forall in Ht. specialize (Ht _ Hin). cbv beta iota in Ht. lia.
Qed.

(** X17.  On a building whose class code is a number or NULL, both score
    formulas raise no error and yield NULL or an integer between -3 and
    3. *)
Theorem building_scores_are_null_or_in_range (f : feature) (gklas gebkatego : operand) :
  operand_of (getitem f "GKLAS") = Ok gklas ->
  operand_of (getitem f "GEBKATEGO") = Ok gebkatego ->
  (exists v, _get_gwr_score_formula f = Ok v /\ building_score v)
  /\ (exists v, _get_kt_score_formula f = Ok v /\ building_score v).
Proof.
  intros H1 H2. rewrite gwr_score_formula_eq, kt_score_formula_eq. split.
  - apply (score_table_range gwr_score _ gklas); [reflexivity | assumption].
  - apply (score_table_range kt_score _ gebkatego); [reflexivity | assumption].
Qed.

Lemma building_scores_are_null_or_in_range_witness :
  operand_of (getitem ({[ "GKLAS" := PyInt 1110 ]} : feature) "GKLAS") = Ok (IntOp 1110)
  /\ operand_of (getitem ({[ "GKLAS" := PyInt 1110 ]} : feature) "GEBKATEGO") = Ok NullOp
  /\ (exists v, _get_gwr_score_formula {[ "GKLAS" := PyInt 1110 ]} = Ok v
                /\ building_score v)
  /\ (exists v, _get_kt_score_formula {[ "GKLAS" := PyInt 1110 ]} = Ok v
                /\ building_score v).
Proof.
  split; [reflexivity|]. split; [reflexivity|].
  apply (building_scores_are_null_or_in_range {[ "GKLAS" := PyInt 1110 ]}
           (IntOp 1110) NullOp); reflexivity.
Defined.

(** Two CASE expressions over the same conditions whose THEN values are not
    NULL are NULL together. *)
Lemma case_equal_null_together {A B : Type} (then1 : A -> attr) (then2 : B -> attr)
    (x : attr) (t1 : list (Z * A)) (t2 : list (Z * B)) (v1 v2 : attr) :
  map fst t1 = map fst t2 ->
  (forall a, then1 a <> QNULL) -> (forall b, then2 b <> QNULL) ->
  case_equal then1 x t1 = Ok v1 -> case_equal then2 x t2 = Ok v2 ->
  (v1 = QNULL <-> v2 = QNULL).
Proof.
  intros Hkeys Hn1 Hn2. unfold case_equal. revert t2 Hkeys.
  induction t1 as [|[k a] t1 IH]; intros [|[k' b] t2] Hkeys; try discriminate.
  - cbn. intros [= <-] [= <-]. reflexivity.
  - cbn [map fst] in Hkeys. injection Hkeys as <- Hkeys.
    cbn [map qgs_case]. destruct (qgs_eq x (PyInt k)) as [e|c]; [discriminate|].
    cbn [mbind result_bind].
    destruct c as [[|]|]; try (apply IH; assumption).
    intros [= <-] [= <-]. split; intros H; [destruct (Hn1 _ H) | destruct (Hn2 _ H)].
Qed.

(** X18.  The label formula and the score formula of either data source
    are NULL on the same buildings: a building has a label exactly when it
    has a score. *)
Theorem label_and_score_are_null_together
    (f : feature) (bezeichnung gwr kategotxt kt : attr) :
  _get_gwr_gebaeude_formula f = Ok bezeichnung -> _get_gwr_score_formula f = Ok gwr ->
  _get_kt_gebaeude_formula f = Ok kategotxt -> _get_kt_score_formula f = Ok kt ->
  (bezeichnung = QNULL <-> gwr = QNULL) /\ (kategotxt = QNULL <-> kt = QNULL).
Proof.
  rewrite gwr_gebaeude_formula_eq, gwr_score_formula_eq, kt_gebaeude_formula_eq,
    kt_score_formula_eq.
  intros H1 H2 H3 H4. split.
  - apply (case_equal_null_together PyStr PyInt (getitem f "GKLAS") gwr_gebaeude gwr_score);
      [reflexivity | discriminate | discriminate | exact H1 | exact H2].
  - apply (case_equal_null_together PyStr PyInt (getitem f "GEBKATEGO") kt_gebaeude kt_score);
      [reflexivity | discriminate | discriminate | exact H3 | exact H4].
Qed.

Lemma label_and_score_are_null_together_witness :
  _get_gwr_gebaeude_formula {[ "GKLAS" := PyInt 1110 ]}
  = Ok (PyStr "Gebaeude mit einer Wohnung")
  /\ _get_gwr_score_formula {[ "GKLAS" := PyInt 1110 ]} = Ok (PyInt 3)
  /\ _get_kt_gebaeude_formula {[ "GKLAS" := PyInt 1110 ]} = Ok QNULL
  /\ _get_kt_score_formula {[ "GKLAS" := PyInt 1110 ]} = Ok QNULL
  /\ (PyStr "Gebaeude mit einer Wohnung" = QNULL <-> PyInt 3 = QNULL)
  /\ (QNULL = QNULL <-> QNULL = QNULL).
Proof.
  split; [reflexivity|]. split; [reflexivity|]. split; [reflexivity|]. split; [reflexivity|].
  apply (label_and_score_are_null_together {[ "GKLAS" := PyInt 1110 ]}); reflexivity.
Defined.

Lemma case_equal_int {A : Type} (then_ : A -> attr) (code : Z) (table : list (Z * A)) :
  case_equal then_ (PyInt code) table
  = Ok (match find (fun '(k, _) => code =? k) table with
        | Some (_, a) => then_ a
        | None => QNULL
        end).
Proof.
  unfold case_equal. induction table as [|[k a] table IH]; [reflexivity|].
  cbn [map qgs_case find]. rewrite IH. unfold qgs_eq. cbn [operand_of mbind result_bind].
  destruct (code =? k); reflexivity.
Qed.

Lemma case_equal_int_null {A : Type} (then_ : A -> attr) (code : Z) (table : list (Z * A)) :
  (forall a, then_ a <> QNULL) ->
  case_equal then_ (PyInt code) table = Ok QNULL <-> ~ In code (map fst table).
Proof.
  intros Hn. rewrite case_equal_int. induction table as [|[k a] table IH].
  - cbn. split; [intros _ [] | reflexivity].
  - cbn [find map fst In]. destruct (Z.eqb_spec code k) as [-> | Hne].
    + split; [intros [= H]; destruct (Hn _ H) | intros H; destruct H; left; reflexivity].
    + rewrite IH. split; [intros H [E | Hin]; [congruence | exact (H Hin)] | tauto].
Qed.

(** X19.  A building with an integer class code has the score NULL exactly
    when the code is not one of the codes that the score formula of its
    data source lists. *)
Theorem unlisted_classes_have_no_score (f : feature) (gklas gebkatego : Z) :
  getitem f "GKLAS" = PyInt gklas -> getitem f "GEBKATEGO" = PyInt gebkatego ->
  (_get_gwr_score_formula f = Ok QNULL <-> ~ In gklas (map fst gwr_score))
  /\ (_get_kt_score_formula f = Ok QNULL <-> ~ In gebkatego (map fst kt_score)).
Proof.
  rewrite gwr_score_formula_eq, kt_score_formula_eq.
  intros -> ->. split; apply case_equal_int_null; discriminate.
Qed.

Lemma unlisted_classes_have_no_score_witness :
  getitem ({[ "GKLAS" := PyInt 1279; "GEBKATEGO" := PyInt 1021 ]} : feature) "GKLAS"
  = PyInt 1279
  /\ getitem ({[ "GKLAS" := PyInt 1279; "GEBKATEGO" := PyInt 1021 ]} : feature) "GEBKATEGO"
     = PyInt 1021
  /\ (_get_gwr_score_formula {[ "GKLAS" := PyInt 1279; "GEBKATEGO" := PyInt 1021 ]}
      = Ok QNULL <-> ~ In 1279 (map fst gwr_score))
  /\ (_get_kt_score_formula {[ "GKLAS" := PyInt 1279; "GEBKATEGO" := PyInt 1021 ]}
      = Ok QNULL <-> ~ In 1021 (map fst kt_score)).
Proof.
  split; [reflexivity|]. split; [reflexivity|].
  apply (unlisted_classes_have_no_score
           {[ "GKLAS" := PyInt 1279; "GEBKATEGO" := PyInt 1021 ]} 1279 1021); reflexivity.
Defined.

Lemma extract_features_true (expression : feature -> result (option bool))
    (fs kept : list feature) :
  extract_features expression fs = Ok kept ->
  Forall (fun f => expression f = Ok (Some true)) kept /\ (length kept <= length fs)%nat.
Proof.
  revert kept. induction fs as [|f fs IH]; intros kept; cbn [extract_features].
  - intros [= <-]. split; [constructor | reflexivity].
  - destruct (expression f) as [e|c] eqn:Ef; [discriminate|]. cbn [mbind result_bind].
    destruct (extract_features expression fs) as [e|rest]; [discriminate|].
    cbn [mbind result_bind]. specialize (IH rest eq_refl) as [IH1 IH2].
    intros [= <-]. destruct c as [[|]|]; cbn [length]; split; try assumption; try lia.
    constructor; assumption.
Qed.

Lemma getitem_insert_ne (f : feature) (name other : string) (v : attr) :
  other <> name -> getitem (<[name := v]> f) other = getitem f other.
Proof. intros H. unfold getitem. f_equal. apply lookup_insert_ne. congruence. Qed.

Lemma getitem_insert (f : feature) (name : string) (v : attr) :
  getitem (<[name := v]> f) name = v.
Proof.
  unfold getitem.
  replace (<[name := v]> f !! name) with (Some v) by (symmetry; apply lookup_insert_eq).
  reflexivity.
Qed.

Lemma prepared_features (status label_field class_field : string)
    (label score : feature -> result attr) (table : list (Z * Z))
    (layer gefiltert labelled export_layer : QgsVectorLayer) :
  status <> label_field -> status <> "score_gebaeude" ->
  class_field <> label_field ->
  forallb (fun '(_, s) => (-3 <=? s) && (s <=? 3)) table = true ->
  (forall f, score f = case_equal PyInt (getitem f class_field) table) ->
  extractbyexpression layer (fun f => qgs_eq (getitem f status) (PyInt 1004)) = Ok gefiltert ->
  fieldcalculator gefiltert label_field label = Ok labelled ->
  fieldcalculator labelled "score_gebaeude" score = Ok export_layer ->
  Forall (fun f => qgs_eq (getitem f status) (PyInt 1004) = Ok (Some true)
                   /\ building_score (getitem f "score_gebaeude"))
         (features export_layer)
  /\ (length (features export_layer) <= length (features layer))%nat.
Proof.
  intros Hs1 Hs2 Hc Ht Hdef Hextract Hlabel Hscore.
  unfold extractbyexpression in Hextract.
  destruct (extract_features _ (features layer)) as [e|kept] eqn:Ek; [discriminate|].
  cbn [mbind result_bind] in Hextract. injection Hextract as <-.
  apply extract_features_true in Ek as [Hkept Hlen].
  apply fieldcalculator_features in Hlabel, Hscore. cbn [features] in Hlabel.
  split.
  - revert Hlabel Hscore Hkept. generalize (features export_layer) as out.
    generalize (features labelled) as mid. clear Hlen.
    induction kept as [|f kept IH]; intros mid out Hl Hsc Hk.
    + inversion Hl; subst. inversion Hsc; subst. constructor.
    + inversion Hl as [|? g ? mid' (v & Hv & ->) Hl']; subst.
      inversion Hsc as [|? h ? out' (s & Hs & ->) Hsc']; subst.
      inversion Hk as [|? ? Hf Hk']; subst.
      constructor; [|apply (IH mid' out'); assumption].
      split.
      * rewrite !getitem_insert_ne by assumption. exact Hf.
      * rewrite getitem_insert. rewrite Hdef in Hs.
        rewrite getitem_insert_ne in Hs by assumption.
        unfold qgs_eq in Hf.
        destruct (operand_of (getitem f class_field)) as [e|o] eqn:Eo.
        { unfold case_equal in Hs. destruct table as [|[k a] table].
          - cbn in Hs. injection Hs as <-. left. reflexivity.
          - cbn [map qgs_case] in Hs. unfold qgs_eq in Hs. rewrite Eo in Hs. discriminate. }
        destruct (score_table_range table _ o Ht Eo) as (v' & Hv' & Hb). congruence.
  - rewrite <- (Forall2_length _ _ _ Hscore), <- (Forall2_length _ _ _ Hlabel). exact Hlen.
Qed.

(** X20.  When the preparation of the buildings succeeds, the file is named
    after the data source (GWR when the layer has a field [GKLAS],
    kantonal otherwise), every exported building has the status 1004 and a
    score that is NULL or between -3 and 3, and no building has been
    added. *)
Theorem prepared_buildings_exist_and_are_scored
    (layer export_layer : QgsVectorLayer) (output_name : string) :
  prepare_gebaeude layer = Ok (output_name, export_layer) ->
  output_name = (if contains (fields layer) "GKLAS"
                 then "gwr_bund_bs_lv95.gpkg" else "gebaeudeinformationen_kt_bs_lv95.gpkg")
  /\ Forall (fun f => qgs_eq (getitem f (status_field layer)) (PyInt 1004) = Ok (Some true)
                      /\ building_score (getitem f "score_gebaeude"))
            (features export_layer)
  /\ (length (features export_layer) <= length (features layer))%nat.
Proof.
  unfold prepare_gebaeude, status_field.
  destruct (contains (fields layer) "GKLAS").
  - destruct (extractbyexpression layer _) as [e|gefiltert] eqn:E1; [discriminate|].
    cbn [mbind result_bind].
    destruct (fieldcalculator gefiltert _ _) as [e|bezeichnung] eqn:E2; [discriminate|].
    cbn [mbind result_bind].
    destruct (fieldcalculator bezeichnung _ _) as [e|export] eqn:E3; [discriminate|].
    cbn [mbind result_bind]. intros [= <- <-]. split; [reflexivity|].
    apply (prepared_features "GSTAT" "BEZEICHNUNG" "GKLAS" _get_gwr_gebaeude_formula
             _get_gwr_score_formula gwr_score layer gefiltert bezeichnung export);
      [discriminate | discriminate | discriminate | reflexivity
      | apply gwr_score_formula_eq | exact E1 | exact E2 | exact E3].
  - destruct (extractbyexpression layer _) as [e|gefiltert] eqn:E1; [discriminate|].
    cbn [mbind result_bind].
    destruct (fieldcalculator gefiltert _ _) as [e|kategotxt] eqn:E2; [discriminate|].
    cbn [mbind result_bind].
    destruct (fieldcalculator kategotxt _ _) as [e|export] eqn:E3; [discriminate|].
    cbn [mbind result_bind]. intros [= <- <-]. split; [reflexivity|].
    apply (prepared_features "GEBSTATUS" "KATEGOTXT" "GEBKATEGO" _get_kt_gebaeude_formula
             _get_kt_score_formula kt_score layer gefiltert kategotxt export);
      [discriminate | discriminate | discriminate | reflexivity
      | apply kt_score_formula_eq | exact E1 | exact E2 | exact E3].
Qed.

Lemma prepared_buildings_exist_and_are_scored_witness :
  exists export_layer,
    prepare_gebaeude gwr_buildings = Ok ("gwr_bund_bs_lv95.gpkg", export_layer)
    /\ Forall (fun f => qgs_eq (getitem f (status_field gwr_buildings)) (PyInt 1004)
                        = Ok (Some true)
                        /\ building_score (getitem f "score_gebaeude"))
              (features export_layer)
    /\ (length (features export_layer) <= length (features gwr_buildings))%nat.
Proof.
  assert (H : exists export_layer,
             prepare_gebaeude gwr_buildings = Ok ("gwr_bund_bs_lv95.gpkg", export_layer))
    by (eexists; vm_compute; reflexivity).
  destruct H as [export_layer H]. exists export_layer. split; [exact H|].
  apply (prepared_buildings_exist_and_are_scored gwr_buildings export_layer
           "gwr_bund_bs_lv95.gpkg" H).
Defined.

(** ** The project folder *)

Section FolderFacts.

Variable join : string -> string -> string.
Variable denied : string -> bool.


Lemma makedirs_grows (p : string) (fs fs' : filesystem) (created : bool) :
  makedirs denied p fs = (created, fs') -> forall q, fs q = true -> fs' q = true.
Proof.
  unfold makedirs. destruct (fs p || denied p); intros [= <- <-] q Hq; [assumption|].
  rewrite Hq. apply orb_true_r.
Qed.

Lemma makedirs_created (p : string) (fs fs' : filesystem) :
  makedirs denied p fs = (true, fs') ->
  fs p = false /\ denied p = false /\ fs' p = true
  /\ forall q, fs' q = String.eqb q p || fs q.
Proof.
  unfold makedirs. destruct (fs p) eqn:E1, (denied p) eqn:E2; cbn [orb]; intros [= <-].
  rewrite String.eqb_refl. repeat split.
Qed.

Lemma make_subfolders_grows (full_path : string) (subs : list string)
    (fs fs' : filesystem) (created : bool) :
  make_subfolders join denied full_path subs fs = (created, fs') -> forall q, fs q = true -> fs' q = true.
Proof.
  revert fs. induction subs as [|sub rest IH]; intros fs; cbn [make_subfolders].
  - intros [= <- <-] q Hq. assumption.
  - destruct (makedirs denied (join full_path sub) fs) as [c fs1] eqn:E.
    pose proof (makedirs_grows _ _ _ _ E) as Hg. destruct c.
    + intros H q Hq. eapply IH; [eassumption | auto].
    + intros [= <- <-]. assumption.
Qed.

Lemma make_subfolders_created (full_path : string) (subs : list string)
    (fs fs' : filesystem) :
  make_subfolders join denied full_path subs fs = (true, fs') ->
  (forall sub, In sub subs -> fs (join full_path sub) = false /\ fs' (join full_path sub) = true)
  /\ (forall q, fs' q = true -> fs q = true \/ exists sub, In sub subs /\ q = join full_path sub).
Proof.
  revert fs. induction subs as [|sub rest IH]; intros fs; cbn [make_subfolders].
  - intros [= <-]. split; [intros sub [] | auto].
  - destruct (makedirs denied (join full_path sub) fs) as [[|] fs1] eqn:E; [|discriminate].
    intros H. pose proof (make_subfolders_grows _ _ _ _ _ H) as Hg.
    apply IH in H as [H1 H2]. apply makedirs_created in E as (E1 & _ & E3 & E4).
    split.
    + intros s [<- | Hin].
      * split; [assumption | apply Hg; assumption].
      * destruct (H1 s Hin) as [Ha Hb]. split; [|assumption].
        rewrite E4 in Ha. apply orb_false_iff in Ha as [_ Ha]. exact Ha.
    + intros q Hq. destruct (H2 q Hq) as [Hq1 | (s & Hin & ->)].
      * rewrite E4 in Hq1. apply orb_true_iff in Hq1 as [Hq1 | Hq1].
        -- apply String.eqb_eq in Hq1. right. exists sub. split; [left; reflexivity | assumption].
        -- left. assumption.
      * right. exists s. split; [right; assumption | reflexivity].
Qed.

Lemma attempts_ok (left : nat) (index : Z) (base_path p : string) (fs fs' : filesystem) :
  attempts join denied left index base_path fs = (inr p, fs') ->
  exists i,
    index <= i < index + Z.of_nat left
    /\ p = join base_path (folder_name i)
    /\ (forall j, index <= j < i -> fs (join base_path (folder_name j)) = true)
    /\ fs p = false /\ fs' p = true
    /\ (forall sub, In sub SUBFOLDERS -> fs' (join p sub) = true)
    /\ (forall q, fs q = true -> fs' q = true)
    /\ (forall q, fs' q = true ->
          fs q = true \/ q = p \/ exists sub, In sub SUBFOLDERS /\ q = join p sub).
Proof.
  revert index. induction left as [|left IH]; intros index; cbn [attempts]; [discriminate|].
  destruct (fs (join base_path (folder_name index))) eqn:Ex; cbn [negb].
  - intros H. apply IH in H as (i & Hi & Hp & Hbelow & Hrest).
    exists i. split; [lia|]. split; [assumption|]. split; [|assumption].
    intros j Hj. destruct (Z.eq_dec j index) as [-> | Hne]; [assumption | apply Hbelow; lia].
  - destruct (makedirs denied _ fs) as [[|] fs1] eqn:E1; [|discriminate].
    destruct (make_subfolders join denied _ SUBFOLDERS fs1) as [[|] fs2] eqn:E2; [|discriminate].
    intros [= <- <-]. exists index.
    pose proof (makedirs_grows _ _ _ _ E1) as Hg1.
    pose proof (make_subfolders_grows _ _ _ _ _ E2) as Hg2.
    apply makedirs_created in E1 as (_ & _ & E13 & E14).
    apply make_subfolders_created in E2 as [E21 E22].
    split; [lia|]. split; [reflexivity|]. split; [intros j Hj; lia|].
    split; [assumption|]. split; [auto|]. split; [intros sub Hin; apply E21; assumption|].
    split; [auto|].
    intros q Hq. destruct (E22 q Hq) as [Hq1 | Hq1]; [|auto].
    rewrite E14 in Hq1. apply orb_true_iff in Hq1 as [Hq1 | Hq1]; [|auto].
    apply String.eqb_eq in Hq1. auto.
Qed.

Lemma attempts_exhausted (left : nat) (index : Z) (base_path : string) (fs : filesystem) :
  (forall j, index <= j < index + Z.of_nat left -> fs (join base_path (folder_name j)) = true) ->
  attempts join denied left index base_path fs = (inl MaxAttemptsReached, fs).
Proof.
  revert index. induction left as [|left IH]; intros index H; cbn [attempts]; [reflexivity|].
  rewrite (H index) by lia. cbn [negb]. apply IH. intros j Hj. apply H. lia.
Qed.

Lemma attempts_first_free (left : nat) (index i : Z) (base_path : string) (fs : filesystem) :
  index <= i < index + Z.of_nat left ->
  (forall j, index <= j < i -> fs (join base_path (folder_name j)) = true) ->
  fs (join base_path (folder_name i)) = false ->
  attempts join denied left index base_path fs
  = attempts join denied (Z.to_nat (index + Z.of_nat left - i)) i base_path fs.
Proof.
  revert index. induction left as [|left IH]; intros index Hi Hbelow Hfree; [lia|].
  destruct (Z.eq_dec i index) as [-> | Hne].
  - replace (Z.to_nat (index + Z.of_nat (S left) - index)) with (S left) by lia. reflexivity.
  - cbn [attempts]. rewrite (Hbelow index) by lia. cbn [negb].
    rewrite (IH (index + 1)); [f_equal; lia | lia | intros j Hj; apply Hbelow; lia | assumption].
Qed.

(** X21.  The folder that [create_unique_project_folder] returns did not
    exist before and exists afterwards together with its three subfolders;
    the base directory exists, nothing that existed has disappeared, and
    nothing else has been created. *)
Theorem created_project_folder_is_new (base_path p : string) (fs fs' : filesystem) :
  create_unique_project_folder join denied base_path fs = (inr p, fs') ->
  fs base_path = true
  /\ fs p = false /\ fs' p = true
  /\ (forall sub, In sub SUBFOLDERS -> fs' (join p sub) = true)
  /\ (forall q, fs q = true -> fs' q = true)
  /\ (forall q, fs' q = true ->
        fs q = true \/ q = p \/ exists sub, In sub SUBFOLDERS /\ q = join p sub).
Proof.
  unfold create_unique_project_folder.
  destruct (fs base_path); cbn [negb]; [|discriminate]. intros H.
  apply attempts_ok in H as (i & _ & _ & _ & H). split; [reflexivity | exact H].
Qed.

(** X22.  The folder returned carries the smallest index between 1 and
    1000 whose folder did not exist. *)
Theorem project_folder_takes_the_first_free_index
    (base_path p : string) (fs fs' : filesystem) :
  create_unique_project_folder join denied base_path fs = (inr p, fs') ->
  exists index,
    1 <= index <= MAX_FOLDER_ATTEMPTS
    /\ p = join base_path (folder_name index)
    /\ forall j, 1 <= j < index -> fs (join base_path (folder_name j)) = true.
Proof.
  unfold create_unique_project_folder.
  destruct (fs base_path); cbn [negb]; [|discriminate]. intros H.
  apply attempts_ok in H as (i & Hi & Hp & Hbelow & _).
  exists i. unfold MAX_FOLDER_ATTEMPTS in *. split; [lia|]. split; assumption.
Qed.

(** X23.  When the folders of all indices from 1 to 1000 exist, the
    creation fails with the report that the maximal number of attempts is
    reached, and nothing has been created. *)
Theorem a_thousand_folders_exhaust_the_attempts (base_path : string) (fs : filesystem) :
  fs base_path = true ->
  (forall j, 1 <= j <= MAX_FOLDER_ATTEMPTS -> fs (join base_path (folder_name j)) = true) ->
  create_unique_project_folder join denied base_path fs = (inl MaxAttemptsReached, fs).
Proof.
  intros Hb H. unfold create_unique_project_folder. rewrite Hb. cbn [negb].
  apply attempts_exhausted. intros j Hj. apply H. unfold MAX_FOLDER_ATTEMPTS in *. lia.
Qed.

Lemma make_subfolders_succeeds (full_path : string) (subs : list string) (fs : filesystem) :
  (forall sub, In sub subs ->
     fs (join full_path sub) = false /\ denied (join full_path sub) = false) ->
  NoDup (map (join full_path) subs) ->
  exists fs', make_subfolders join denied full_path subs fs = (true, fs').
Proof.
  revert fs. induction subs as [|sub rest IH]; intros fs Hfree Hdup; cbn [make_subfolders].
  - eexists. reflexivity.
  - unfold makedirs. destruct (Hfree sub (or_introl eq_refl)) as [-> ->]. cbn [orb].
    cbn [map] in Hdup. apply NoDup_cons in Hdup as [Hnotin Hdup].
    apply IH; [|assumption]. intros s Hin. destruct (Hfree s (or_intror Hin)) as [H1 H2].
    split; [|assumption]. rewrite H1, orb_false_r. apply String.eqb_neq. intros E.
    apply Hnotin. rewrite <- E. apply list_elem_of_In, in_map, Hin.
Qed.

(** X24.  When the base directory exists, [index] is the smallest index
    whose folder does not exist, and the folder and its three subfolders
    can be created, the creation returns the folder of that index. *)
Theorem project_folder_is_created (base_path : string) (fs : filesystem) (index : Z) :
  let p := join base_path (folder_name index) in
  fs base_path = true ->
  1 <= index <= MAX_FOLDER_ATTEMPTS ->
  (forall j, 1 <= j < index -> fs (join base_path (folder_name j)) = true) ->
  fs p = false -> denied p = false ->
  (forall sub, In sub SUBFOLDERS ->
     fs (join p sub) = false /\ denied (join p sub) = false /\ join p sub <> p) ->
  NoDup (map (join p) SUBFOLDERS) ->
  exists fs', create_unique_project_folder join denied base_path fs = (inr p, fs').
Proof.
  intros p Hb Hi Hbelow Hfree Hallowed Hsubs Hdup.
  unfold create_unique_project_folder. rewrite Hb. cbn [negb].
  rewrite (attempts_first_free _ 1 index); unfold MAX_FOLDER_ATTEMPTS in *;
    [|lia | assumption | assumption].
  destruct (Z.to_nat (1 + Z.of_nat (Z.to_nat 1000) - index)) as [|left] eqn:El; [lia|].
  cbn [attempts]. fold p. rewrite Hfree. cbn [negb]. unfold makedirs at 1.
  rewrite Hfree, Hallowed. cbn [orb].
  destruct (make_subfolders_succeeds p SUBFOLDERS (fun q => String.eqb q p || fs q))
    as [fs' Hfs']; [|assumption|].
  - intros sub Hin. destruct (Hsubs sub Hin) as (H1 & H2 & H3).
    split; [|assumption]. rewrite H1, orb_false_r. apply String.eqb_neq. assumption.
  - rewrite Hfs'. exists fs'. reflexivity.
Qed.

End FolderFacts.

Lemma created_project_folder_is_new_witness :
  exists fs',
    create_unique_project_folder posix_join nothing_denied "/out" one_project
    = (inr "/out/_basisdata_superblock_2", fs')
    /\ one_project "/out/_basisdata_superblock_2" = false
    /\ fs' "/out/_basisdata_superblock_2" = true
    /\ (forall sub, In sub SUBFOLDERS ->
          fs' (posix_join "/out/_basisdata_superblock_2" sub) = true)
    /\ (forall q, one_project q = true -> fs' q = true).
Proof.
  assert (H : create_unique_project_folder posix_join nothing_denied "/out" one_project
              = (inr "/out/_basisdata_superblock_2",
                 (create_unique_project_folder posix_join nothing_denied "/out"
                    one_project).2))
    by (vm_compute; reflexivity).
  eexists. split; [exact H|].
  destruct (created_project_folder_is_new posix_join nothing_denied "/out" _ one_project _ H)
    as (_ & H1 & H2 & H3 & H4 & _).
  split; [exact H1|]. split; [exact H2|]. split; [exact H3 | exact H4].
Defined.

Lemma project_folder_takes_the_first_free_index_witness :
  exists fs',
    create_unique_project_folder posix_join nothing_denied "/out" one_project
    = (inr "/out/_basisdata_superblock_2", fs')
    /\ exists index,
         1 <= index <= MAX_FOLDER_ATTEMPTS
         /\ "/out/_basisdata_superblock_2" = posix_join "/out" (folder_name index)
         /\ forall j, 1 <= j < index -> one_project (posix_join "/out" (folder_name j)) = true.
Proof.
  assert (H : create_unique_project_folder posix_join nothing_denied "/out" one_project
              = (inr "/out/_basisdata_superblock_2",
                 (create_unique_project_folder posix_join nothing_denied "/out"
                    one_project).2))
    by (vm_compute; reflexivity).
  eexists. split; [exact H|].
  apply (project_folder_takes_the_first_free_index posix_join nothing_denied "/out" _
           one_project _ H).
Defined.

Lemma a_thousand_folders_exhaust_the_attempts_witness :
  full_disk "/out" = true
  /\ (forall j, 1 <= j <= MAX_FOLDER_ATTEMPTS ->
        full_disk (posix_join "/out" (folder_name j)) = true)
  /\ create_unique_project_folder posix_join nothing_denied "/out" full_disk
     = (inl MaxAttemptsReached, full_disk).
Proof.
  split; [reflexivity|]. split; [intros j _; reflexivity|].
  apply (a_thousand_folders_exhaust_the_attempts posix_join nothing_denied "/out" full_disk);
    [reflexivity | intros j _; reflexivity].
Defined.

Lemma project_folder_is_created_witness :
  one_project "/out" = true
  /\ 1 <= 2 <= MAX_FOLDER_ATTEMPTS
  /\ one_project (posix_join "/out" (folder_name 2)) = false
  /\ exists fs',
       create_unique_project_folder posix_join nothing_denied "/out" one_project
       = (inr (posix_join "/out" (folder_name 2)), fs').
Proof.
  split; [reflexivity|]. split; [unfold MAX_FOLDER_ATTEMPTS; lia|].
  split; [vm_compute; reflexivity|].
  apply (project_folder_is_created posix_join nothing_denied "/out" one_project 2).
  - reflexivity.
  - unfold MAX_FOLDER_ATTEMPTS. lia.
  - intros j Hj. assert (j = 1) as -> by lia. vm_compute. reflexivity.
  - vm_compute. reflexivity.
  - reflexivity.
  - intros sub [<- | [<- | [<- | []]]];
      (split; [vm_compute; reflexivity|]); (split; [reflexivity|]);
      apply String.eqb_neq; vm_compute; reflexivity.
  - apply (bool_decide_unpack _). vm_compute. reflexivity.
Defined.
